(** * The reverse-tunnel relay core of go-gost/x: connectors, tunnels, the
      connector pool, the tunnel handler's request state machine, the
      stats-observer period and the listeners' bounded connection queue.

    Go values are embedded as follows.
    - A [*T] pointer that may be nil is an [option]; [None] is nil.
    - [uint8], [int] and [time.Duration] are [Z]; a [uint8] read is reduced
      modulo 256 where it enters the model.
    - Go strings are [string] (a sequence of bytes), [len] is [String.length].
    - Mutable objects shared between goroutines (mux sessions) live in an
      explicit store that every operation reads or threads through.
    - Calls that have an effect on the outside (closing a session, closing a
      channel) append an event to a trace, so that "nothing more was closed"
      is a statement about the trace. *)

From Stdlib Require Import ZArith Lia Ascii String DecimalString.
From stdpp Require Import gmap strings list.

Local Open Scope Z_scope.

(** ** Errors of the handler package (handler.go, var block) *)

Inductive error :=
  | ErrBadVersion
  | ErrUnknownCmd
  | ErrTunnelID
  | ErrTunnelNotAvailable
  | ErrUnauthorized
  | ErrRateLimit
  | ErrOther (msg : string).

#[global] Instance error_eq_dec : EqDecision error.
Proof. solve_decision. Defined.

(** ** The relay protocol package (github.com/go-gost/relay, imported) *)

Module relay.

(** Modelled from the spec: relay.TunnelID (the relay package is not part of
    the sources). Section 3: a 16-byte opaque identifier, a one-bit private
    flag carried out of band of the 16 bytes, the zero value means unset. *)
Record TunnelID := mkTunnelID { tid_bytes : list Z; tid_private : bool }.

Definition zeroBytes : list Z := replicate 16%nat 0.

(** The zero value of the Go type. *)
Definition zeroTunnelID : TunnelID := mkTunnelID zeroBytes false.

(** [copy(tid[:], v)]: at most 16 bytes are copied over the zero array. *)
Definition copy16 (v : list Z) : list Z := take 16%nat (v ++ zeroBytes).

Definition NewTunnelID (v : list Z) : TunnelID := mkTunnelID (copy16 v) false.
Definition NewPrivateTunnelID (v : list Z) : TunnelID := mkTunnelID (copy16 v) true.

Definition IsZero (tid : TunnelID) : bool :=
  forallb (fun b => b =? 0) (tid_bytes tid).

Definition IsPrivate (tid : TunnelID) : bool := tid_private tid.

Definition hexdigit (n : Z) : string :=
  String.substring (Z.to_nat (n mod 16)) 1 "0123456789abcdef".

Definition hexbyte (b : Z) : string := hexdigit (b / 16) +:+ hexdigit b.

Definition hexbytes (bs : list Z) : string :=
  fold_right (fun b acc => hexbyte b +:+ acc) "" bs.

(** Modelled from the spec: TunnelID.String. Section 6: a UUID string, a
    leading dollar sign marks the tunnel as private. *)
Definition String (tid : TunnelID) : string :=
  let b := tid_bytes tid in
  (if tid_private tid then "$" else "") +:+
  hexbytes (take 4%nat b) +:+ "-" +:+
  hexbytes (take 2%nat (drop 4%nat b)) +:+ "-" +:+
  hexbytes (take 2%nat (drop 6%nat b)) +:+ "-" +:+
  hexbytes (take 2%nat (drop 8%nat b)) +:+ "-" +:+
  hexbytes (drop 10%nat b).

(** Modelled from the spec: relay.ConnectorID. Section 3: a 16-byte
    identifier that exposes [IsUDP()] and [Weight()], a selection weight
    in 0..255. *)
Record ConnectorID := mkConnectorID
  { cid_bytes : list Z; cid_udp : bool; cid_weight : Z }.

Definition IsUDP (cid : ConnectorID) : bool := cid_udp cid.

(** [Weight()] returns a [uint8]. *)
Definition Weight (cid : ConnectorID) : Z := cid_weight cid mod 256.

(** Response statuses named by Section 6. *)
Inductive Status :=
  | StatusOK
  | StatusBadRequest
  | StatusUnauthorized
  | StatusForbidden
  | StatusServiceUnavailable
  | StatusNetworkUnreachable.

(** The features of a request that [Handle] switches on. A feature of any
    other type is [OtherFeature]. *)
Inductive Feature :=
  | UserAuthFeature (Username Password : string)
  | AddrFeature (Host : string) (Port : Z)
  | TunnelFeature (ID : TunnelID)
  | NetworkFeature (Network : string)
  | OtherFeature (ftype : Z).

Record Request := mkRequest
  { Version : Z; Cmd : Z; Features : list Feature }.

Record Response := mkResponse
  { RespVersion : Z; RespStatus : Status }.

(** [resp.Status = status] *)
Definition with_status (resp : Response) (status : Status) : Response :=
  mkResponse (RespVersion resp) status.

#[global] Instance TunnelID_eq_dec : EqDecision TunnelID.
Proof. solve_decision. Defined.
#[global] Instance ConnectorID_eq_dec : EqDecision ConnectorID.
Proof. solve_decision. Defined.

End relay.

(** ** The weighted random selector (package selector, used by GetConnector) *)

Module selector.
Section RandomWeighted.
Context {T : Type}.
(** Go's zero value of [T], returned by [Next] when nothing can be picked. *)
Variable zero : T.

(** Modelled from the spec: selector.RandomWeighted (selector/ is not part
    of the sources). Section 9: a reusable utility with add(item, weight),
    reset() and next() returning an item or nil, picking with probability
    proportional to the accumulated weights. The generator's output is the
    explicit argument [r] of [Next]. *)
Record RandomWeighted := mkRW { items : list (T * Z); sum : Z }.

Definition NewRandomWeighted : RandomWeighted := mkRW [] 0.

Definition Add (rw : RandomWeighted) (item : T) (weight : Z) : RandomWeighted :=
  mkRW (items rw ++ [(item, weight)]) (sum rw + weight).

Definition Reset (rw : RandomWeighted) : RandomWeighted := mkRW [] 0.

(** Walk the items, subtracting weights from the drawn ticket. *)
Fixpoint pick (l : list (T * Z)) (ticket : Z) : option T :=
  match l with
  | [] => None
  | (x, w) :: l' => if ticket - w <=? 0 then Some x else pick l' (ticket - w)
  end.

Definition Next (rw : RandomWeighted) (r : Z) : T :=
  match items rw with
  | [] => zero
  | _ =>
    if sum rw <=? 0 then zero
    else match pick (items rw) (r mod sum rw + 1) with
         | Some x => x
         | None => default zero (fst <$> last (items rw))
         end
  end.

(** The weights of a list of items, added up. *)
Definition total (l : list (T * Z)) : Z := foldr (λ i acc, i.2 + acc) 0 l.
End RandomWeighted.
Arguments RandomWeighted : clear implicits.
End selector.

(** ** Multiplex sessions (package internal/util/mux) *)

Module mux.

(** A [*mux.Session] that is not nil: the handle of a session object. *)
Definition Session := nat.

(** The effects the tunnel code has on the outside. *)
Inductive Event :=
  | EvSessionClose (s : Session)
  | EvChanClose (tunnel : string).

(** Modelled from the spec: the session store (internal/util/mux is not
    part of the sources). Section 4.1: a session offers OpenStream, Close
    and IsClosed; IsClosed is true once the session was closed, and opening
    a stream on a dead session fails. [closed] holds the dead sessions,
    [streams] counts the streams opened so far, [trace] records effects in
    the order they happen. *)
Record Store := mkStore
  { closed : gset Session; streams : nat; trace : list Event }.

Definition IsClosed (st : Store) (s : Session) : bool :=
  bool_decide (s ∈ closed st).

Definition Close (st : Store) (s : Session) : Store * option error :=
  (mkStore ({[s]} ∪ closed st) (streams st) (trace st ++ [EvSessionClose s]),
   None).

(** A stream of a session, possibly decorated by the wrappers. *)
Inductive Conn :=
  | Stream (s : Session) (n : nat)
  | StatsConn (c : Conn)
  | TrafficConn (c : Conn) (key service network : string).

Definition GetConn (st : Store) (s : Session) : Store * (Conn + error) :=
  if IsClosed st s then (st, inr (ErrOther "session closed"))
  else (mkStore (closed st) (S (streams st)) (trace st),
        inl (Stream s (streams st))).

End mux.

(** ** Connectors (tunnel.go) *)

Module Connector.

Record ConnectorOptions := mkOptions { service : string; sd : bool }.

(** The target of a [*Connector] that is not nil. [addr] is the address of
    the object, so that two pointers are one pointer exactly when their
    targets are equal; the fields are never assigned after [NewConnector].
    The creation time [t] is never read and is left out. *)
Record Connector := mkConnector
  { addr : nat;
    id : relay.ConnectorID;
    tid : relay.TunnelID;
    node : string;
    s : option mux.Session;
    opts : ConnectorOptions }.

(** A [*Connector]. *)
Definition ptr := option Connector.

#[global] Instance ConnectorOptions_eq_dec : EqDecision ConnectorOptions.
Proof. solve_decision. Defined.
#[global] Instance Connector_eq_dec : EqDecision Connector.
Proof. solve_decision. Defined.

Definition ID (c : Connector) : relay.ConnectorID := id c.

Definition GetConn (c : ptr) (st : mux.Store)
  : mux.Store * (option mux.Conn * option error) :=
  match c with
  | None => (st, (None, None))
  | Some c =>
    match s c with
    | None => (st, (None, None))
    | Some sess =>
      match mux.GetConn st sess with
      | (st', inr err) => (st', (None, Some err))
      | (st', inl conn) =>
        let conn := mux.StatsConn conn in
        let network := if relay.IsUDP (id c) then "udp" else "tcp" in
        let conn :=
          mux.TrafficConn conn (relay.String (tid c)) (service (opts c)) network in
        (st', (Some conn, None))
      end
    end
  end.

Definition Close (c : ptr) (st : mux.Store) : mux.Store * option error :=
  match c with
  | None => (st, None)
  | Some c =>
    match s c with
    | None => (st, None)
    | Some sess => mux.Close st sess
    end
  end.

Definition IsClosed (c : ptr) (st : mux.Store) : bool :=
  match c with
  | None => true
  | Some c =>
    match s c with
    | None => true
    | Some sess => mux.IsClosed st sess
    end
  end.

End Connector.

(** ** Tunnels (tunnel.go)

    The reaper goroutine [clean] is not part of the model. Every method
    runs under the tunnel's lock; the session store it is given is the state
    of the sessions during the call. *)

Module Tunnel.

Definition MaxWeight : Z := 255.

(** The [close chan struct{}] of a tunnel: nothing is ever sent on it, so a
    receive succeeds exactly when it has been closed. *)
Inductive chan := ChanOpen | ChanClosed.

Record Tunnel := mkTunnel
  { node : string;
    id : relay.TunnelID;
    connectors : list Connector.ptr;
    close : chan;
    sd : bool;
    ttl : Z }.

Definition NewTunnel (defaultTTL : Z) (node : string) (tid : relay.TunnelID)
    (ttl : Z) : Tunnel :=
  mkTunnel node tid [] ChanOpen false (if ttl <=? 0 then defaultTTL else ttl).

Definition WithSD (t : Tunnel) (sd : bool) : Tunnel :=
  mkTunnel (node t) (id t) (connectors t) (close t) sd (ttl t).

Definition ID (t : Tunnel) : relay.TunnelID := id t.

Definition AddConnector (t : Tunnel) (c : Connector.ptr) : Tunnel :=
  match c with
  | None => t
  | Some _ =>
    mkTunnel (node t) (id t) (connectors t ++ [c]) (close t) (sd t) (ttl t)
  end.

(** The weight used for selection: 0 counts as 1. *)
Definition weight_of (c : Connector.Connector) : Z :=
  let weight := relay.Weight (Connector.ID c) in
  if weight =? 0 then 1 else weight.

(** [network == "udp" && c.id.IsUDP() || network != "udp" && !c.id.IsUDP()] *)
Definition network_matches (network : string) (c : Connector.Connector) : bool :=
  (String.eqb network "udp" && relay.IsUDP (Connector.id c))
  || (negb (String.eqb network "udp") && negb (relay.IsUDP (Connector.id c))).

(** One iteration of the [for _, c := range t.connectors] loop on the
    loop state [(rw, found)]. *)
Definition select_step (st : mux.Store) (network : string)
    (acc : selector.RandomWeighted Connector.ptr * bool) (c : Connector.ptr)
  : selector.RandomWeighted Connector.ptr * bool :=
  let '(rw, found) := acc in
  if Connector.IsClosed c st then acc
  else
    match c with
    | None => acc
    | Some c' =>
      let weight := weight_of c' in
      if network_matches network c' then
        let '(rw, found) :=
          if (weight =? MaxWeight) && negb found
          then (selector.Reset rw, true) else (rw, found) in
        let rw :=
          if (weight =? MaxWeight) || negb found
          then selector.Add rw c weight else rw in
        (rw, found)
      else acc
    end.

Definition GetConnector (t : Tunnel) (st : mux.Store) (network : string)
    (r : Z) : Connector.ptr :=
  if (length (connectors t) =? 1)%nat then
    default None (connectors t !! 0%nat)
  else
    let '(rw, _) :=
      fold_left (select_step st network) (connectors t)
                (selector.NewRandomWeighted, false) in
    selector.Next None rw r.

Definition close_connectors (cs : list Connector.ptr) (st : mux.Store)
  : mux.Store :=
  fold_left (fun st c => fst (Connector.Close c st)) cs st.

Definition Close (t : Tunnel) (st : mux.Store)
  : Tunnel * mux.Store * option error :=
  match close t with
  | ChanClosed => (t, st, None)
  | ChanOpen =>
    let st := close_connectors (connectors t) st in
    (mkTunnel (node t) (id t) (connectors t) ChanClosed (sd t) (ttl t),
     mux.mkStore (mux.closed st) (mux.streams st)
                 (mux.trace st ++ [mux.EvChanClose (relay.String (id t))]),
     None)
  end.

Definition CloseOnIdle (t : Tunnel) (st : mux.Store)
  : Tunnel * mux.Store * bool :=
  match close t with
  | ChanClosed => (t, st, false)
  | ChanOpen =>
    match connectors t with
    | [] =>
      (mkTunnel (node t) (id t) (connectors t) ChanClosed (sd t) (ttl t),
       mux.mkStore (mux.closed st) (mux.streams st)
                   (mux.trace st ++ [mux.EvChanClose (relay.String (id t))]),
       true)
    | _ => (t, st, false)
    end
  end.

(** *** The selection set, stated directly

    The connectors [GetConnector] chooses among, as the loop is meant to
    leave them: the live connectors of the matching network, restricted to
    those of weight 255 when there is one, each with its normalised weight.
    The loop of [GetConnector] is compared with this list below. *)
Definition eligible (st : mux.Store) (network : string) (c : Connector.ptr)
  : bool :=
  match c with
  | None => false
  | Some c' => negb (Connector.IsClosed c st) && network_matches network c'
  end.

Definition has_max_weight (c : Connector.ptr) : bool :=
  match c with
  | None => false
  | Some c' => weight_of c' =? MaxWeight
  end.

Definition weighted (c : Connector.ptr) : Connector.ptr * Z :=
  (c, match c with Some c' => weight_of c' | None => 0 end).

Definition selection_set (st : mux.Store) (network : string)
    (cs : list Connector.ptr) : list (Connector.ptr * Z) :=
  let live := List.filter (eligible st network) cs in
  match List.filter has_max_weight live with
  | [] => weighted <$> live
  | top => weighted <$> top
  end.

(** *** The reaper [clean] *)

(** A call on the service registry with the service it names: the
    connector, the tunnel and the node. *)
Inductive SDCall :=
  | Deregister (ID : relay.ConnectorID) (Name : relay.TunnelID) (Node : string)
  | Renew (ID : relay.ConnectorID) (Name : relay.TunnelID) (Node : string).

(** The [for _, c := range t.connectors] of one tick, on the survivors and
    the registry calls collected so far. [None] is the nil dereference
    [c.id] of a nil entry; such an entry counts as closed. *)
Fixpoint clean_loop (t : Tunnel) (st : mux.Store) (cs : list Connector.ptr)
    (survivors : list Connector.ptr) (calls : list SDCall)
  : option (list Connector.ptr * list SDCall) :=
  match cs with
  | [] => Some (survivors, calls)
  | c :: cs =>
    match c with
    | None => None
    | Some c' =>
      if Connector.IsClosed c st then
        clean_loop t st cs survivors
          (if sd t
           then calls ++ [Deregister (Connector.id c') (id t) (node t)]
           else calls)
      else
        clean_loop t st cs (survivors ++ [c])
          (if sd t
           then calls ++ [Renew (Connector.id c') (id t) (node t)]
           else calls)
    end
  end.

(** The [case <-ticker.C] of [clean]: nothing happens on an empty list;
    otherwise the survivors replace the list when their number differs. *)
Definition clean_tick (t : Tunnel) (st : mux.Store)
  : option (Tunnel * list SDCall) :=
  match connectors t with
  | [] => Some (t, [])
  | cs =>
    match clean_loop t st cs [] [] with
    | None => None
    | Some (survivors, calls) =>
      Some (if negb (length survivors =? length cs)%nat
            then mkTunnel (node t) (id t) survivors (close t) (sd t) (ttl t)
            else t,
            calls)
    end
  end.

End Tunnel.

(** ** The connector pool (tunnel.go) *)

Module ConnectorPool.

Record ConnectorPool := mkPool
  { node : string; sd : bool; tunnels : gmap string Tunnel.Tunnel }.

Definition NewConnectorPool (node : string) (sd : bool) : ConnectorPool :=
  mkPool node sd ∅.

Definition Add (defaultTTL : Z) (p : ConnectorPool) (tid : relay.TunnelID)
    (c : Connector.ptr) (ttl : Z) : ConnectorPool :=
  let s := relay.String tid in
  let t :=
    match tunnels p !! s with
    | Some t => t
    | None => Tunnel.WithSD (Tunnel.NewTunnel defaultTTL (node p) tid ttl) (sd p)
    end in
  mkPool (node p) (sd p) (<[s := Tunnel.AddConnector t c]> (tunnels p)).

(** [Get] on a [*ConnectorPool]; the result pairs the connector with the
    pool as the call leaves it. *)
Definition Get (p : option ConnectorPool) (st : mux.Store) (network : string)
    (tid : string) (r : Z) : Connector.ptr * option ConnectorPool :=
  match p with
  | None => (None, None)
  | Some p =>
    match tunnels p !! tid with
    | None => (None, Some p)
    | Some t => (Tunnel.GetConnector t st network r, Some p)
    end
  end.

(** [Close] visits the entries in the order the runtime's map iteration
    yields them; [order] is that order. Every visited tunnel is closed and
    its entry deleted. *)
Definition Close_step (acc : gmap string Tunnel.Tunnel * mux.Store)
    (k : string) : gmap string Tunnel.Tunnel * mux.Store :=
  match acc.1 !! k with
  | None => acc
  | Some v => (delete k acc.1, (Tunnel.Close v acc.2).1.2)
  end.

Definition Close (p : option ConnectorPool) (order : list string)
    (st : mux.Store) : option ConnectorPool * mux.Store * option error :=
  match p with
  | None => (None, st, None)
  | Some p =>
    let '(m, st) := fold_left Close_step order (tunnels p, st) in
    (Some (mkPool (node p) (sd p) m), st, None)
  end.

(** One round of the hourly sweep of [closeIdles], on the iteration order
    [order]: an entry is deleted when [CloseOnIdle] says so. *)
Definition closeIdles_step (acc : gmap string Tunnel.Tunnel * mux.Store)
    (k : string) : gmap string Tunnel.Tunnel * mux.Store :=
  match acc.1 !! k with
  | None => acc
  | Some v =>
    let '(_, st, idle) := Tunnel.CloseOnIdle v acc.2 in
    if idle then (delete k acc.1, st) else acc
  end.

Definition closeIdles_tick (p : ConnectorPool) (order : list string)
    (st : mux.Store) : ConnectorPool * mux.Store :=
  let '(m, st) := fold_left closeIdles_step order (tunnels p, st) in
  (mkPool (node p) (sd p) m, st).

End ConnectorPool.

(** ** The tunnel handler (handler.go) *)

Module tunnelHandler.

(** The [net.Conn] handed to [Handle]: what [req.ReadFrom(conn)] will
    yield, the responses written so far, the read deadline and whether the
    connection was closed. *)
Record NetConn := mkNetConn
  { RemoteAddr : string;
    LocalAddr : string;
    incoming : relay.Request + error;
    written : list relay.Response;
    readDeadline : option Z;
    conn_closed : bool }.

Definition conn_Close (c : NetConn) : NetConn :=
  mkNetConn (RemoteAddr c) (LocalAddr c) (incoming c) (written c)
            (readDeadline c) true.

Definition SetReadDeadline (c : NetConn) (d : option Z) : NetConn :=
  mkNetConn (RemoteAddr c) (LocalAddr c) (incoming c) (written c)
            d (conn_closed c).

(** [resp.WriteTo(conn)]; its error is dropped by every caller here. *)
Definition WriteTo (resp : relay.Response) (c : NetConn) : NetConn :=
  mkNetConn (RemoteAddr c) (LocalAddr c) (incoming c) (written c ++ [resp])
            (readDeadline c) (conn_closed c).

(** [handler.Options] as far as [Handle] reads it. [Auther] is the
    authenticator's verdict on (user, pass): the client id and ok.
    [RateLimiter] maps a host to its limiter's answer to [Allow(1)], or to
    nil when the host has no limiter. *)
Record Options := mkHandlerOptions
  { Auther : option (string -> string -> string * bool);
    RateLimiter : option (string -> option bool);
    Observer : bool;
    Service : string }.

Record metadata := mkMetadata
  { readTimeout : Z; observePeriod : Z }.

Record tunnelHandler := mkHandler
  { id : string; options : Options; md : metadata }.

(** [context.Context] as far as the handler writes to it. *)
Record Context := mkContext { clientID : option string }.

(** The state behind [h.pool]: the pool and the sessions it refers to. *)
Definition PoolState : Type := option ConnectorPool.ConnectorPool * mux.Store.

(** What a call of [Handle] leaves behind. *)
Record Outcome := mkOutcome
  { err : option error; conn : NetConn; pool : PoolState }.

(** The variables the feature loop assigns. *)
Record Parsed := mkParsed
  { user : string; pass : string; srcAddr : string; dstAddr : string;
    network : string; tunnelID : relay.TunnelID }.

Definition contains (ch : ascii) (s : string) : bool :=
  existsb (Ascii.eqb ch) (list_ascii_of_string s).

(** [net.JoinHostPort]: a host with a colon is taken for a literal IPv6
    address and put in brackets. *)
Definition JoinHostPort (host port : string) : string :=
  if contains ":" host
  then "[" +:+ host +:+ "]:" +:+ port
  else host +:+ ":" +:+ port.

Definition Itoa (n : Z) : string :=
  DecimalString.NilZero.string_of_int (Z.to_int n).

Definition feature_step (p : Parsed) (f : relay.Feature) : Parsed :=
  match f with
  | relay.UserAuthFeature u pw =>
    mkParsed u pw (srcAddr p) (dstAddr p) (network p) (tunnelID p)
  | relay.AddrFeature host port =>
    let v := JoinHostPort host (Itoa port) in
    if negb (String.eqb (srcAddr p) "")
    then mkParsed (user p) (pass p) (srcAddr p) v (network p) (tunnelID p)
    else mkParsed (user p) (pass p) v (dstAddr p) (network p) (tunnelID p)
  | relay.TunnelFeature tid =>
    mkParsed (user p) (pass p) (srcAddr p) (dstAddr p) (network p) tid
  | relay.NetworkFeature n =>
    mkParsed (user p) (pass p) (srcAddr p) (dstAddr p) n (tunnelID p)
  | relay.OtherFeature _ => p
  end.

Definition parse_features (fs : list relay.Feature) : Parsed :=
  fold_left feature_step fs
    (mkParsed "" "" "" "" "tcp" relay.zeroTunnelID).

Section Handle.
(** Constants of the relay package. *)
Variables (Version1 CmdConnect CmdBind CmdMask : Z).
(** The host part [net.SplitHostPort] returns. *)
Variable SplitHostPort : string -> string.
(** [time.Now()] at the call. *)
Variable now : Z.
(** [handleConnect] and [handleBind] (connect.go and bind.go of the
    package) run on the request context, the request, the connection,
    the parsed network and addresses, the tunnel ID and the pool state. *)
Variable handleConnect :
  Context -> relay.Request -> NetConn -> string -> string -> string ->
  relay.TunnelID -> PoolState -> option error * NetConn * PoolState.
Variable handleBind :
  Context -> NetConn -> string -> string ->
  relay.TunnelID -> PoolState -> option error * NetConn * PoolState.

Definition checkRateLimit (h : tunnelHandler) (addr : string) : bool :=
  match RateLimiter (options h) with
  | None => true
  | Some limiters =>
    match limiters (SplitHostPort addr) with
    | Some allow => allow
    | None => true
    end
  end.

(** The [switch req.Cmd & relay.CmdMask]. *)
Definition dispatch (ctx : Context) (req : relay.Request) (c : NetConn)
    (p : Parsed) (ps : PoolState) (resp : relay.Response) : Outcome :=
  let cmd := Z.land (relay.Cmd req) CmdMask in
  if cmd =? CmdConnect then
    let '(e, c, ps) :=
      handleConnect ctx req c (network p) (srcAddr p) (dstAddr p)
                    (tunnelID p) ps in
    mkOutcome e (conn_Close c) ps
  else if cmd =? CmdBind then
    let '(e, c, ps) :=
      handleBind ctx c (network p) (dstAddr p) (tunnelID p) ps in
    mkOutcome e c ps
  else
    mkOutcome (Some ErrUnknownCmd)
      (WriteTo (relay.with_status resp relay.StatusBadRequest) c) ps.

(** The body of [Handle], before the deferred function runs. *)
Definition Handle_body (h : tunnelHandler) (ctx : Context) (c : NetConn)
    (ps : PoolState) : Outcome :=
  if negb (checkRateLimit h (RemoteAddr c)) then
    mkOutcome (Some ErrRateLimit) c ps
  else
    let c :=
      if 0 <? readTimeout (md h)
      then SetReadDeadline c (Some (now + readTimeout (md h))) else c in
    match incoming c with
    | inr e => mkOutcome (Some e) c ps
    | inl req =>
      let c := SetReadDeadline c None in
      let resp := relay.mkResponse Version1 relay.StatusOK in
      if negb (relay.Version req =? Version1) then
        mkOutcome (Some ErrBadVersion)
          (WriteTo (relay.with_status resp relay.StatusBadRequest) c) ps
      else
        let p := parse_features (relay.Features req) in
        if relay.IsZero (tunnelID p) then
          mkOutcome (Some ErrTunnelID)
            (WriteTo (relay.with_status resp relay.StatusBadRequest) c) ps
        else
          match Auther (options h) with
          | Some authenticate =>
            let '(client, ok) := authenticate (user p) (pass p) in
            if negb ok then
              mkOutcome (Some ErrUnauthorized)
                (WriteTo (relay.with_status resp relay.StatusUnauthorized) c)
                ps
            else dispatch (mkContext (Some client)) req c p ps resp
          | None => dispatch ctx req c p ps resp
          end
    end.

(** [Handle]: the body, then the deferred function, which closes the
    connection when the named result [err] is not nil. *)
Definition Handle (h : tunnelHandler) (ctx : Context) (c : NetConn)
    (ps : PoolState) : Outcome :=
  let out := Handle_body h ctx c ps in
  match err out with
  | Some _ => mkOutcome (err out) (conn_Close (conn out)) (pool out)
  | None => out
  end.

End Handle.

Definition Millisecond : Z := 1000000.
Definition Second : Z := 1000 * Millisecond.

(** What the [select] of the observer loop receives. *)
Inductive Wakeup := Tick | Done.

(** The [for { select { ... } }] of [observeStats]: one call of
    [Observer.Observe] per tick, until the context is done. *)
Fixpoint observe_loop (ws : list Wakeup) (observed : nat) : nat :=
  match ws with
  | [] => observed
  | Tick :: ws => observe_loop ws (S observed)
  | Done :: _ => observed
  end.

(** [observeStats]: the period handed to [time.NewTicker] and the number
    of [Observe] calls made on the wake-ups [ws]; [None] when the function
    returns at once because no observer is set. *)
Definition observeStats (h : tunnelHandler) (ws : list Wakeup)
  : option (Z * nat) :=
  if negb (Observer (options h)) then None
  else
    let d := observePeriod (md h) in
    let d := if d <? Millisecond then 5 * Second else d in
    Some (d, observe_loop ws 0%nat).

End tunnelHandler.

(** ** The SOCKS4 handler (package v4): the same observer loop *)

Module socks4Handler.

Record socks4Handler := mkHandler
  { Observer : bool; observePeriod : Z }.

Definition observeStats (h : socks4Handler)
    (ws : list tunnelHandler.Wakeup) : option (Z * nat) :=
  if negb (Observer h) then None
  else
    let d := observePeriod h in
    let d :=
      if d <? tunnelHandler.Millisecond then 5 * tunnelHandler.Second else d in
    Some (d, tunnelHandler.observe_loop ws 0%nat).

End socks4Handler.

(** ** The listeners' connection queue (packages mtcp and h2) *)

Module listener.

(** A connection or stream, by its handle. *)
Definition conn := nat.

(** A Go channel of capacity [cap]: the buffered values, the number of
    goroutines blocked in a receive, and the values handed directly to
    such receivers. *)
Record Chan := mkChan
  { buf : list conn; cap : nat; receivers : nat; handed : list conn }.

(** [make(chan net.Conn, backlog)] *)
Definition make (backlog : nat) : Chan := mkChan [] backlog 0 [].

(** The send case of a [select] with a [default]: [None] when the send
    cannot proceed, in which case the default case runs. *)
Definition try_send (ch : Chan) (v : conn) : option Chan :=
  if (0 <? receivers ch)%nat then
    Some (mkChan (buf ch) (cap ch) (pred (receivers ch)) (handed ch ++ [v]))
  else if (length (buf ch) <? cap ch)%nat then
    Some (mkChan (buf ch ++ [v]) (cap ch) (receivers ch) (handed ch))
  else None.

(** No receiver is waiting and the buffer has no room. *)
Definition full (ch : Chan) : Prop :=
  receivers ch = 0%nat ∧ (cap ch ≤ length (buf ch))%nat.

Inductive Event :=
  | EvConnClose (c : conn)
  | EvSessionClose
  | EvWarnQueueFull (c : conn)
  | EvLogError.

Record Listener := mkListener { cqueue : Chan; events : list Event }.

Definition log (l : Listener) (evs : list Event) : Listener :=
  mkListener (cqueue l) (events l ++ evs).

(** The [select] both listeners use to push onto the queue. *)
Definition push (l : Listener) (c : conn) : Listener :=
  match try_send (cqueue l) c with
  | Some ch => mkListener ch (events l)
  | None => log l [EvConnClose c; EvWarnQueueFull c]
  end.

(** What [session.Accept()] returns. *)
Inductive Accepted := AcceptStream (stream : conn) | AcceptError.

(** How a run of [mux] stands: it returned, or it is in [session.Accept()]
    for the next stream. *)
Inductive Status := Returned | Accepting.

(** The accept loop of [mtcpListener.mux] on the results of the successive
    [session.Accept()] calls. *)
Fixpoint mux_loop (accepts : list Accepted) (l : Listener)
  : Listener * Status :=
  match accepts with
  | [] => (l, Accepting)
  | AcceptError :: _ => (log l [EvLogError], Returned)
  | AcceptStream stream :: accepts => mux_loop accepts (push l stream)
  end.

(** [mtcpListener.mux]: [session] is [None] when [mux.ServerSession]
    fails; the deferred closes run when the function returns. *)
Definition mux (l : Listener) (c : conn) (session : option (list Accepted))
  : Listener * Status :=
  match session with
  | None => (log l [EvLogError; EvConnClose c], Returned)
  | Some accepts =>
    match mux_loop accepts l with
    | (l, Returned) => (log l [EvSessionClose; EvConnClose c], Returned)
    | (l, Accepting) => (l, Accepting)
    end
  end.

(** [h2Listener.handleFunc]: [upgraded] is [None] when [upgrade] fails;
    the result names the connection whose [closed] channel the function
    then waits on. *)
Definition handleFunc (l : Listener) (upgraded : option conn)
  : Listener * option conn :=
  match upgraded with
  | None => (log l [EvLogError], None)
  | Some c => (push l c, Some c)
  end.

End listener.

(** ** The error channel of the listeners *)

Module errchan.

(** How a blocking channel operation ends: it completes, it waits, or it
    panics (a send on, or a close of, a closed channel). *)
Inductive Outcome (A : Type) := Done (a : A) | Blocks | Panics.
Arguments Done {A} a.
Arguments Blocks {A}.
Arguments Panics {A}.

(** [errChan], made by [make(chan error, 1)]: the buffered errors, a nil
    error being [None], and whether the channel was closed. *)
Record ErrChan := mkErrChan { ebuf : list (option error); eclosed : bool }.

Definition make : ErrChan := mkErrChan [] false.

(** [ch <- e] *)
Definition send (ch : ErrChan) (e : option error) : Outcome ErrChan :=
  if eclosed ch then Panics
  else if (length (ebuf ch) <? 1)%nat
       then Done (mkErrChan (ebuf ch ++ [e]) false)
       else Blocks.

(** [close(ch)] *)
Definition close (ch : ErrChan) : Outcome ErrChan :=
  if eclosed ch then Panics else Done (mkErrChan (ebuf ch) true).

(** [v, ok = <-ch] when it can proceed: a buffered value with [ok] true, or
    the zero value with [ok] false once the channel is closed and drained;
    [None] when the receive would wait. *)
Definition recv (ch : ErrChan) : option (option error * bool * ErrChan) :=
  match ebuf ch with
  | e :: rest => Some (e, true, mkErrChan rest (eclosed ch))
  | [] => if eclosed ch then Some (None, false, ch) else None
  end.

End errchan.

(** ** The accept side of the mtcp listener (package mtcp) *)

Module mtcpListener.

(** [listener.ErrClosed] of the core package. *)
Definition ErrClosed : error := ErrOther "accept on closed listener".

(** The listener: the connection queue with its log, the error channel and
    the connections for which [go l.mux(conn)] was started. *)
Record State := mkState
  { queue : listener.Listener;
    errChan : errchan.ErrChan;
    spawned : list listener.conn }.

(** How a run of [listenLoop] stands. *)
Inductive Run := RunReturned | RunAccepting | RunBlocked | RunPanic.

(** [listenLoop] on the results of the successive [l.ln.Accept()] calls. *)
Fixpoint listenLoop (accepts : list (listener.conn + error)) (s : State)
  : State * Run :=
  match accepts with
  | [] => (s, RunAccepting)
  | inl c :: accepts =>
    listenLoop accepts (mkState (queue s) (errChan s) (spawned s ++ [c]))
  | inr e :: _ =>
    match errchan.send (errChan s) (Some e) with
    | errchan.Done ch =>
      match errchan.close ch with
      | errchan.Done ch' => (mkState (queue s) ch' (spawned s), RunReturned)
      | errchan.Blocks => (mkState (queue s) ch (spawned s), RunBlocked)
      | errchan.Panics => (mkState (queue s) ch (spawned s), RunPanic)
      end
    | errchan.Blocks => (s, RunBlocked)
    | errchan.Panics => (s, RunPanic)
    end
  end.

(** What [Accept] returns: a connection with a nil error, or a nil
    connection with the error received, which may itself be nil; or the
    call waits. *)
Inductive Accepted :=
  | GotConn (c : listener.conn)
  | GotErr (e : option error)
  | Waits.

(** [Accept]: the [select] over the queue and the error channel. When both
    cases can proceed the runtime picks one; [prefer_err] is that pick. The
    traffic-limiter wrapper around the connection is left out. *)
Definition Accept (prefer_err : bool) (s : State) : State * Accepted :=
  let q := listener.cqueue (queue s) in
  let take_conn c rest :=
    (mkState
       (listener.mkListener
          (listener.mkChan rest (listener.cap q) (listener.receivers q)
             (listener.handed q))
          (listener.events (queue s)))
       (errChan s) (spawned s),
     GotConn c) in
  let take_err (r : option error * bool * errchan.ErrChan) :=
    let '(e, ok, ch) := r in
    (mkState (queue s) ch (spawned s),
     GotErr (if ok then e else Some ErrClosed)) in
  match listener.buf q, errchan.recv (errChan s) with
  | c :: rest, Some r => if prefer_err then take_err r else take_conn c rest
  | c :: rest, None => take_conn c rest
  | [], Some r => take_err r
  | [], None => (s, Waits)
  end.

(** The streams [mux] accepts before the first accept error. *)
Fixpoint accepted (accepts : list listener.Accepted) : list listener.conn :=
  match accepts with
  | listener.AcceptStream c :: accepts => c :: accepted accepts
  | _ => []
  end.

(** The connections closed according to the log. *)
Definition closes (evs : list listener.Event) : list listener.conn :=
  omap (λ e, match e with listener.EvConnClose c => Some c | _ => None end) evs.

End mtcpListener.

(** ** Closing and accepting on the h2 listener (package h2, handler.go) *)

Module h2Listener.

(** The listener: the queue and error channel as for mtcp, and how often
    [l.server.Close()] was called. *)
Record State := mkState
  { inner : mtcpListener.State; server_closes : nat }.

(** [Accept] has the body of the mtcp listener's. *)
Definition Accept (prefer_err : bool) (s : State)
  : State * mtcpListener.Accepted :=
  let '(i, r) := mtcpListener.Accept prefer_err (inner s) in
  (mkState i (server_closes s), r).

(** [Close]: [serverClose] is what [l.server.Close()] returns if it is
    called. The result is the error returned, always nil. *)
Definition Close (serverClose : option error) (s : State)
  : State * errchan.Outcome (option error) :=
  let i := inner s in
  let with_chan ch n :=
    mkState (mtcpListener.mkState (mtcpListener.queue i) ch
               (mtcpListener.spawned i)) n in
  match errchan.recv (mtcpListener.errChan i) with
  | Some (_, _, ch) => (with_chan ch (server_closes s), errchan.Done None)
  | None =>
    match errchan.send (mtcpListener.errChan i) serverClose with
    | errchan.Done ch =>
      match errchan.close ch with
      | errchan.Done ch' =>
        (with_chan ch' (S (server_closes s)), errchan.Done None)
      | errchan.Blocks => (with_chan ch (S (server_closes s)), errchan.Blocks)
      | errchan.Panics => (with_chan ch (S (server_closes s)), errchan.Panics)
      end
    | errchan.Blocks =>
      (mkState i (S (server_closes s)), errchan.Blocks)
    | errchan.Panics =>
      (mkState i (S (server_closes s)), errchan.Panics)
    end
  end.

(** [Close] called once for each element of [results]. *)
Definition Close_all (results : list (option error)) (s : State)
  : State * list (errchan.Outcome (option error)) :=
  fold_left (λ acc r, let '(s', o) := Close r acc.1 in (s', acc.2 ++ [o]))
            results (s, []).

End h2Listener.

(** ** Closing and accepting on the tun listener (package tun) *)

Module tunListener.

(** [net.ErrClosed] and [listener.ErrClosed]. *)
Definition net_ErrClosed : error := ErrOther "use of closed network connection".

(** The listener: the connection a blocked [l.cqueue <- c] is offering on
    the unbuffered queue, if any, and the [closed] channel. *)
Record State := mkState
  { offered : option listener.conn; closed : Tunnel.chan }.

Definition Close (s : State) : State * option error :=
  match closed s with
  | Tunnel.ChanClosed => (s, Some net_ErrClosed)
  | Tunnel.ChanOpen => (mkState (offered s) Tunnel.ChanClosed, None)
  end.

(** [Accept]: when a connection is offered and the listener is closed the
    runtime picks a case; [prefer_closed] is that pick. [None] is a call
    that waits. *)
Definition Accept (prefer_closed : bool) (s : State)
  : option (State * (option listener.conn * option error)) :=
  let take c := Some (mkState None (closed s), (Some c, None)) in
  let refuse := Some (s, (None, Some mtcpListener.ErrClosed)) in
  match offered s, closed s with
  | Some c, Tunnel.ChanClosed => if prefer_closed then refuse else take c
  | Some c, Tunnel.ChanOpen => take c
  | None, Tunnel.ChanClosed => refuse
  | None, Tunnel.ChanOpen => None
  end.

End tunListener.

(** ** The SOCKS4 handler's request handling (package v4) *)

Module v4.

Definition ErrUnknownCmd : error := ErrOther "socks4: unknown command".
Definition ErrUnimplemented : error := ErrOther "socks4: unimplemented".

(** The reply codes of gosocks4 the handler uses. *)
Inductive ReplyCode := Granted | Failed | Rejected | RejectedUserid.

(** A [gosocks4.Request]: the command, the user id and [req.Addr.String()]. *)
Record Request := mkRequest { Cmd : Z; Userid : string; Addr : string }.

(** The client connection: what [gosocks4.ReadRequest] will yield, the
    error every [resp.Write] returns, the replies handed to [resp.Write] so
    far, the read deadline and whether the connection was closed. *)
Record Conn := mkConn
  { RemoteAddr : string;
    incoming : Request + error;
    write_err : option error;
    replies : list ReplyCode;
    readDeadline : option Z;
    closed : bool }.

Definition Close (c : Conn) : Conn :=
  mkConn (RemoteAddr c) (incoming c) (write_err c) (replies c)
         (readDeadline c) true.

Definition SetReadDeadline (c : Conn) (d : option Z) : Conn :=
  mkConn (RemoteAddr c) (incoming c) (write_err c) (replies c) d (closed c).

(** [gosocks4.NewReply(code, nil)] followed by [resp.Write(conn)]. *)
Definition Write (c : Conn) (code : ReplyCode) : Conn * option error :=
  (mkConn (RemoteAddr c) (incoming c) (write_err c) (replies c ++ [code])
          (readDeadline c) (closed c),
   write_err c).

(** The request context: the client id and the hash source. *)
Record Context := mkContext { clientID : option string; hash : option string }.

Inductive StatKind := KindTotalConns | KindCurrentConns.

(** The handler as far as [Handle] and [handleConnect] read it. [Bypass]
    answers [Contains] for a network and an address; [Dial] is
    [Router.Dial], yielding the upstream connection or an error. *)
Record socks4Handler := mkHandler
  { Auther : option (string -> string -> string * bool);
    RateLimiter : option (string -> option bool);
    Bypass : option (string -> string -> bool);
    Dial : Context -> string -> string -> nat + error;
    Observer : bool;
    readTimeout : Z;
    md_hash : string }.

(** What a call leaves behind: the error returned, the client connection,
    the upstream connection that was dialled, whether it was closed,
    whether [Transport] ran, and the counter updates in order, each with
    the client id whose counters it goes to. *)
Record Outcome := mkOutcome
  { err : option error;
    conn : Conn;
    upstream : option nat;
    upstream_closed : bool;
    transported : bool;
    stats : list (string * StatKind * Z) }.

Definition handleConnect (h : socks4Handler) (ctx : Context) (c : Conn)
    (req : Request) : Outcome :=
  let addr := Addr req in
  if match Bypass h with
     | Some contains => contains "tcp" addr
     | None => false
     end
  then
    let '(c, e) := Write c Rejected in
    mkOutcome e c None false false []
  else
    let ctx :=
      if String.eqb (md_hash h) "host"
      then mkContext (clientID ctx) (Some addr) else ctx in
    match Dial h ctx "tcp" addr with
    | inr e =>
      let '(c, _) := Write c Failed in
      mkOutcome (Some e) c None false false []
    | inl cc =>
      let '(c, e) := Write c Granted in
      match e with
      | Some e => mkOutcome (Some e) c (Some cc) true false []
      | None =>
        let id := default "" (clientID ctx) in
        mkOutcome None c (Some cc) true true
          (if Observer h
           then [(id, KindTotalConns, 1); (id, KindCurrentConns, 1);
                 (id, KindCurrentConns, -1)]
           else [])
      end
    end.

Definition handleBind (h : socks4Handler) (ctx : Context) (c : Conn)
    (req : Request) : Outcome :=
  mkOutcome (Some ErrUnimplemented) c None false false [].

Section Handle.
(** [gosocks4.CmdConnect] and [gosocks4.CmdBind]. *)
Variables (CmdConnect CmdBind : Z).
(** The host part [net.SplitHostPort] returns. *)
Variable SplitHostPort : string -> string.
(** [time.Now()] at the call. *)
Variable now : Z.

Definition checkRateLimit (h : socks4Handler) (addr : string) : bool :=
  match RateLimiter h with
  | None => true
  | Some limiters =>
    match limiters (SplitHostPort addr) with
    | Some allow => allow
    | None => true
    end
  end.

(** The body of [Handle], before the deferred [conn.Close()]. *)
Definition Handle_body (h : socks4Handler) (ctx : Context) (c : Conn)
  : Outcome :=
  if negb (checkRateLimit h (RemoteAddr c)) then
    mkOutcome None c None false false []
  else
    let c :=
      if 0 <? readTimeout h
      then SetReadDeadline c (Some (now + readTimeout h)) else c in
    match incoming c with
    | inr e => mkOutcome (Some e) c None false false []
    | inl req =>
      let c := SetReadDeadline c None in
      let switch ctx :=
        if Cmd req =? CmdConnect then handleConnect h ctx c req
        else if Cmd req =? CmdBind then handleBind h ctx c req
        else mkOutcome (Some ErrUnknownCmd) c None false false [] in
      match Auther h with
      | Some authenticate =>
        let '(id, ok) := authenticate (Userid req) "" in
        if negb ok then
          let '(c, e) := Write c RejectedUserid in
          mkOutcome e c None false false []
        else switch (mkContext (Some id) (hash ctx))
      | None => switch ctx
      end
    end.

Definition Handle (h : socks4Handler) (ctx : Context) (c : Conn) : Outcome :=
  let out := Handle_body h ctx c in
  mkOutcome (err out) (Close (conn out)) (upstream out) (upstream_closed out)
            (transported out) (stats out).
End Handle.

(** The net change of the current-connections counter of [id]. *)
Definition current (id : string) (l : list (string * StatKind * Z)) : Z :=
  fold_right
    (fun e acc =>
       match e with
       | (id', KindCurrentConns, d) =>
         if String.eqb id' id then d + acc else acc
       | _ => acc
       end) 0 l.

End v4.

(** ** BIND in the relay handler (package relay) *)

Module relayHandler.

(** What a BIND request does to the outside, in order. [ok] tells whether
    the call succeeded and so made a listener, a packet connection or a
    session. A response is written with its status and with or without an
    address feature. *)
Inductive Event :=
  | EvListen (network address : string) (ok : bool)
  | EvListenPacket (network address : string) (ok : bool)
  | EvWriteResponse (status : relay.Status) (with_addr : bool)
  | EvClientSession (ok : bool)
  | EvServe
  | EvRelayRun
  | EvCloseSession
  | EvCloseListener
  | EvClosePacketConn.

(** What the calls made on the way return: [lc.Listen] or
    [lc.ListenPacket], [resp.WriteTo], [mux.ClientSession] and
    [srv.Serve]; [None] is a nil error. *)
Record Env := mkEnv
  { listen : option error;
    write : option error;
    session : option error;
    serve : option error }.

(** [bindTCP]. The deferred closes run, last deferred first, when the
    function returns. The goroutine that drains the session is left out. *)
Definition bindTCP (env : Env) (network address : string)
  : list Event * option error :=
  match listen env with
  | Some e =>
    ([EvListen network address false;
      EvWriteResponse relay.StatusServiceUnavailable false], Some e)
  | None =>
    let opened := [EvListen network address true;
                   EvWriteResponse relay.StatusOK true] in
    match write env with
    | Some e => (opened ++ [EvCloseListener], Some e)
    | None =>
      match session env with
      | Some e => (opened ++ [EvClientSession false; EvCloseListener], Some e)
      | None =>
        (opened ++ [EvClientSession true; EvServe; EvCloseSession;
                    EvCloseListener],
         serve env)
      end
    end
  end.

(** [bindUDP] *)
Definition bindUDP (env : Env) (network address : string)
  : list Event * option error :=
  match listen env with
  | Some e => ([EvListenPacket network address false], Some e)
  | None =>
    let opened := [EvListenPacket network address true;
                   EvWriteResponse relay.StatusOK true] in
    match write env with
    | Some e => (opened ++ [EvClosePacketConn], Some e)
    | None => (opened ++ [EvRelayRun; EvClosePacketConn], None)
    end
  end.

(** [handleBind]; [enableBind] is [h.md.enableBind]. *)
Definition handleBind (enableBind : bool) (env : Env)
    (network address : string) : list Event * option error :=
  if negb enableBind then
    ([EvWriteResponse relay.StatusForbidden false], write env)
  else if String.eqb network "tcp" then bindTCP env network address
  else bindUDP env network address.






End relayHandler.

(** ** Proxy credentials in the HTTP/2 handler (package http2) *)

Module http2Handler.

(** [len(s)] *)
Definition len (s : string) : Z := Z.of_nat (String.length s).

(** [s[i:j]] for [0 <= i <= j <= len(s)]. *)
Definition slice (s : string) (i j : Z) : string :=
  String.substring (Z.to_nat i) (Z.to_nat (j - i)) s.

(** [strings.IndexByte]: the index of the first [c] in [s], or -1. *)
Fixpoint IndexByte (s : string) (c : ascii) : Z :=
  match s with
  | EmptyString => -1
  | String a s' =>
    if Ascii.eqb a c then 0
    else let i := IndexByte s' c in if i <? 0 then -1 else i + 1
  end.

(** [strings.HasPrefix] and [strings.TrimPrefix]. *)
Definition HasPrefix (s prefix : string) : bool := String.prefix prefix s.

Definition TrimPrefix (s prefix : string) : string :=
  if HasPrefix s prefix then slice s (len prefix) (len s) else s.

Section basicProxyAuth.
(** [base64.StdEncoding.DecodeString]; [None] is an error. *)
Variable DecodeString : string -> option string.

Definition basicProxyAuth (proxyAuth : string) : string * string * bool :=
  if String.eqb proxyAuth "" then ("", "", false)
  else if negb (HasPrefix proxyAuth "Basic ") then ("", "", false)
  else
    match DecodeString (TrimPrefix proxyAuth "Basic ") with
    | None => ("", "", false)
    | Some cs =>
      let s := IndexByte cs ":" in
      if s <? 0 then ("", "", false)
      else (slice cs 0 s, slice cs (s + 1) (len cs), true)
    end.
End basicProxyAuth.

(** A stand-in decoder for examples: every string decodes to itself. *)
Definition plain (s : string) : option string := Some s.

End http2Handler.

(** ** UUID parsing (github.com/google/uuid, imported by tunnel.go) *)

Module uuid.

(** A [UUID] is a [[16]byte]. *)
Definition UUID := list Z.

Definition Nil : UUID := replicate 16%nat 0.

(** The table [xvalues]: the value of a hexadecimal digit, 255 otherwise. *)
Definition xvalue (c : ascii) : Z :=
  let n := Z.of_nat (nat_of_ascii c) in
  if (48 <=? n) && (n <=? 57) then n - 48
  else if (65 <=? n) && (n <=? 70) then n - 55
  else if (97 <=? n) && (n <=? 102) then n - 87
  else 255.

(** [xtob]: two hexadecimal digits to a byte. *)
Definition xtob (x1 x2 : ascii) : Z * bool :=
  let b1 := xvalue x1 in
  let b2 := xvalue x2 in
  (Z.lor (Z.shiftl b1 4 mod 256) b2, negb (b1 =? 255) && negb (b2 =? 255)).

(** [s[i]], for an index within the string. *)
Definition byte_at (s : string) (i : nat) : ascii :=
  default "000"%char (String.get i s).

Definition lower (c : ascii) : ascii :=
  let n := nat_of_ascii c in
  if (65 <=? n)%nat && (n <=? 90)%nat then ascii_of_nat (n + 32) else c.

Fixpoint lower_string (s : string) : string :=
  match s with
  | EmptyString => EmptyString
  | String c s => String (lower c) (lower_string s)
  end.

(** [strings.EqualFold] against a lower-case ASCII constant. *)
Definition EqualFold (s t : string) : bool :=
  String.eqb (lower_string s) (lower_string t).

(** The 32-digit form: [uuid[i], ok = xtob(s[i*2], s[i*2+1])] for each
    [i], returning at the first pair that is not hexadecimal. *)
Fixpoint parse_plain (s : string) (idx : list nat) (u : UUID) : UUID * bool :=
  match idx with
  | [] => (u, true)
  | i :: idx =>
    let '(v, ok) := xtob (byte_at s (i * 2)) (byte_at s (i * 2 + 1)) in
    let u := <[i := v]> u in
    if ok then parse_plain s idx u else (u, false)
  end.

(** The hyphenated form: the pair at offset [x] fills [uuid[i]], and the
    function returns before the assignment when the pair is not
    hexadecimal. *)
Fixpoint parse_hyphenated (s : string) (ixs : list (nat * nat)) (u : UUID)
  : UUID * bool :=
  match ixs with
  | [] => (u, true)
  | (i, x) :: ixs =>
    let '(v, ok) := xtob (byte_at s x) (byte_at s (x + 1)) in
    if ok then parse_hyphenated s ixs (<[i := v]> u) else (u, false)
  end.

Definition offsets : list nat :=
  [0; 2; 4; 6; 9; 11; 14; 16; 19; 21; 24; 26; 28; 30; 32; 34]%nat.

Definition invalidFormat : error := ErrOther "invalid UUID format".

(** After the [switch]: [s] holds the hyphenated form at its start. *)
Definition parse_tail (s : string) : UUID * option error :=
  if negb (Ascii.eqb (byte_at s 8) "-") || negb (Ascii.eqb (byte_at s 13) "-")
     || negb (Ascii.eqb (byte_at s 18) "-") || negb (Ascii.eqb (byte_at s 23) "-")
  then (Nil, Some invalidFormat)
  else
    match parse_hyphenated s (imap (fun i x => (i, x)) offsets) Nil with
    | (u, true) => (u, None)
    | (u, false) => (u, Some invalidFormat)
    end.

(** [uuid.Parse] (uuid.go of the imported package): [var uuid UUID] is the
    zero array; the [switch len(s)] accepts the lengths 36, 36+9 (with the
    prefix urn:uuid:), 36+2 (braces) and 32 and returns the array with an
    invalid-length error otherwise; the decoding loops assign [uuid[i]] pair
    by pair, and every failure is a [return uuid, err], so the array decoded
    so far comes back together with the error. *)
Definition Parse (s : string) : UUID * option error :=
  let n := String.length s in
  if (n =? 36)%nat then parse_tail s
  else if (n =? 36 + 9)%nat then
    if negb (EqualFold (String.substring 0 9 s) "urn:uuid:")
    then (Nil, Some (ErrOther "invalid urn prefix"))
    else parse_tail (String.substring 9 (n - 9) s)
  else if (n =? 36 + 2)%nat then parse_tail (String.substring 1 (n - 1) s)
  else if (n =? 32)%nat then
    match parse_plain s (seq 0 16) Nil with
    | (u, true) => (u, None)
    | (u, false) => (u, Some invalidFormat)
    end
  else (Nil, Some (ErrOther "invalid UUID length")).

End uuid.

(** ** Textual tunnel IDs (tunnel.go) *)

Module tunnel.
Section parseTunnelID.
(** [uuid.Parse] of the imported package: the array and the error. *)
Variable Parse : string -> uuid.UUID * option error.

Definition parseTunnelID (s : string) : relay.TunnelID :=
  match s with
  | EmptyString => relay.zeroTunnelID
  | String c rest =>
    let '(private, s) :=
      if Ascii.eqb c "$" then (true, rest) else (false, s) in
    let '(uuid, _) := Parse s in
    if private then relay.NewPrivateTunnelID uuid else relay.NewTunnelID uuid
  end.
End parseTunnelID.
End tunnel.

(** ** Sequences of calls on one tunnel *)

Module Calls.

Inductive Call :=
  | AddConnector (c : Connector.ptr)
  | Close.

(** One call on the tunnel and the session store. *)
Definition call (ts : Tunnel.Tunnel * mux.Store) (op : Call)
  : Tunnel.Tunnel * mux.Store :=
  match op with
  | AddConnector c => (Tunnel.AddConnector ts.1 c, ts.2)
  | Close => (Tunnel.Close ts.1 ts.2).1
  end.

Definition run (ops : list Call) (ts : Tunnel.Tunnel * mux.Store)
  : Tunnel.Tunnel * mux.Store :=
  fold_left call ops ts.

(** The arguments of the [AddConnector] calls that are not nil, in call
    order. *)
Fixpoint added (ops : list Call) : list Connector.ptr :=
  match ops with
  | [] => []
  | AddConnector (Some c) :: ops => Some c :: added ops
  | _ :: ops => added ops
  end.

End Calls.

(** ** Concrete inputs used to exercise the theorems *)

Module Examples.

Definition store0 : mux.Store := mux.mkStore ∅ 0 [].

(** A connector at address [a] on session [a]. *)
Definition connector (a : nat) (udp : bool) (weight : Z) : Connector.Connector :=
  Connector.mkConnector a (relay.mkConnectorID [] udp weight)
    relay.zeroTunnelID "node" (Some a) (Connector.mkOptions "svc" false).

Definition tunnel_of (cs : list Connector.ptr) : Tunnel.Tunnel :=
  Tunnel.mkTunnel "node" relay.zeroTunnelID cs Tunnel.ChanOpen false 15.

(** Scenario S4 of the specification: weights 1, 255, 1. *)
Definition tunnel_S4 : Tunnel.Tunnel :=
  tunnel_of [Some (connector 1 false 1); Some (connector 2 false 255);
             Some (connector 3 false 1)].

(** A tunnel whose only connector is a UDP connector. *)
Definition tunnel_single_udp : Tunnel.Tunnel :=
  tunnel_of [Some (connector 1 true 1)].

(** A connector without a session. *)
Definition connector_no_session : Connector.Connector :=
  Connector.mkConnector 9 (relay.mkConnectorID [] false 1)
    relay.zeroTunnelID "node" None (Connector.mkOptions "svc" false).

(** The tunnel ID 11111111-1111-1111-1111-111111111111 of the scenarios. *)
Definition T1 : relay.TunnelID := relay.NewTunnelID (replicate 16%nat 17).

(** [AddConnector] twice with one connector. *)
Definition calls_same_twice : list Calls.Call :=
  [Calls.AddConnector (Some (connector 1 false 1));
   Calls.AddConnector (Some (connector 1 false 1))].

(** Two connectors, a nil argument and two closes. *)
Definition calls_mixed : list Calls.Call :=
  [Calls.AddConnector (Some (connector 1 false 1)); Calls.Close;
   Calls.AddConnector (Some (connector 2 true 255));
   Calls.AddConnector None; Calls.Close].

(** A pool holding one tunnel, registered under [T1]. *)
Definition pool_T1 : ConnectorPool.ConnectorPool :=
  ConnectorPool.Add 15 (ConnectorPool.NewConnectorPool "node" false) T1
    (Some (connector 1 false 1)) 0.


(** Handler inputs. The relay constants are those of the protocol: version
    1, CONNECT 1, BIND 2, mask 0x0F. *)
Definition h_reject_all : tunnelHandler.tunnelHandler :=
  tunnelHandler.mkHandler "node"
    (tunnelHandler.mkHandlerOptions (Some (fun _ _ => ("", false))) None
       false "svc")
    (tunnelHandler.mkMetadata 0 0).

Definition conn_with (req : relay.Request) : tunnelHandler.NetConn :=
  tunnelHandler.mkNetConn "192.0.2.1:4000" "192.0.2.2:8421" (inl req) [] None
    false.

(** BIND with credentials and tunnel [T1] (scenario S6). *)
Definition req_S6 : relay.Request :=
  relay.mkRequest 1 2
    [relay.UserAuthFeature "bad" "x"; relay.TunnelFeature T1].

(** BIND with credentials but no tunnel feature. *)
Definition req_no_tunnel : relay.Request :=
  relay.mkRequest 1 2 [relay.UserAuthFeature "bad" "x"].

(** A request of another protocol version, without a tunnel feature. *)
Definition req_bad_version : relay.Request :=
  relay.mkRequest 2 2 [relay.UserAuthFeature "bad" "x"].

Definition pool_state : tunnelHandler.PoolState := (Some pool_T1, store0).

(** Handlers with an observer: a period of 250ms and a period of 10ns. *)
Definition h_observed (period : Z) : tunnelHandler.tunnelHandler :=
  tunnelHandler.mkHandler "node"
    (tunnelHandler.mkHandlerOptions None None true "svc")
    (tunnelHandler.mkMetadata 0 period).

Definition wakeups : list tunnelHandler.Wakeup :=
  [tunnelHandler.Tick; tunnelHandler.Tick; tunnelHandler.Done;
   tunnelHandler.Tick].

(** A listener with backlog 1 whose queue holds connection 5. *)
Definition listener_full : listener.Listener :=
  listener.mkListener (listener.mkChan [5%nat] 1 0 []) [].

(** A hyphenated UUID whose last digit is not hexadecimal. *)
Definition bad_last_digit : string := "10000000-0000-0000-0000-00000000000g".

Definition no_context : tunnelHandler.Context := tunnelHandler.mkContext None.

(** Stand-ins for [handleConnect] and [handleBind], which the runs below
    never reach. *)
Definition connect_stub (_ : tunnelHandler.Context) (_ : relay.Request)
    (c : tunnelHandler.NetConn) (_ _ _ : string) (_ : relay.TunnelID)
    (ps : tunnelHandler.PoolState)
  : option error * tunnelHandler.NetConn * tunnelHandler.PoolState :=
  (None, c, ps).

Definition bind_stub (_ : tunnelHandler.Context)
    (c : tunnelHandler.NetConn) (_ _ : string) (_ : relay.TunnelID)
    (ps : tunnelHandler.PoolState)
  : option error * tunnelHandler.NetConn * tunnelHandler.PoolState :=
  (None, c, ps).

Definition handle (h : tunnelHandler.tunnelHandler) (req : relay.Request)
  : tunnelHandler.Outcome :=
  tunnelHandler.Handle 1 1 2 15 (fun a => a) 0 connect_stub bind_stub
    h no_context (conn_with req) pool_state.

End Examples.

(** ** Further inputs *)

Module Scenarios.

(** Weights 1, 0 and 3, all TCP and live; a fourth connector is UDP. *)
Definition tunnel_weights : Tunnel.Tunnel :=
  Examples.tunnel_of
    [Some (Examples.connector 1 false 1); Some (Examples.connector 2 false 0);
     Some (Examples.connector 3 false 3); Some (Examples.connector 4 true 9)].

(** A store in which session 2 is closed. *)
Definition store_2_closed : mux.Store := mux.mkStore {[2%nat]} 0 [].

(** [tunnel_weights] without the connector on session 2. *)
Definition tunnel_weights_reaped : Tunnel.Tunnel :=
  Examples.tunnel_of
    [Some (Examples.connector 1 false 1); Some (Examples.connector 3 false 3);
     Some (Examples.connector 4 true 9)].

(** A new tunnel without connectors. *)
Definition tunnel_empty : Tunnel.Tunnel :=
  Tunnel.NewTunnel 15 "node" Examples.T1 0.

(** The tunnel ID 22222222-2222-2222-2222-222222222222. *)
Definition T2 : relay.TunnelID := relay.NewTunnelID (replicate 16%nat 34).

(** A pool with a tunnel under [T1] holding connector 1 and an empty tunnel
    under [T2]. *)
Definition pool_two : ConnectorPool.ConnectorPool :=
  ConnectorPool.Add 15 Examples.pool_T1 T2 None 0.

Definition keys_two : list string :=
  [relay.String T2; relay.String Examples.T1].

(** A handler whose rate limiter denies the host 192.0.2.1 and knows no
    other host; the host of an address is what precedes its last colon. *)
Definition h_rate_limited : tunnelHandler.tunnelHandler :=
  tunnelHandler.mkHandler "node"
    (tunnelHandler.mkHandlerOptions None
       (Some (fun host => if String.eqb host "192.0.2.1" then Some false
                          else None))
       false "svc")
    (tunnelHandler.mkMetadata 0 0).

Definition host_of (addr : string) : string :=
  String.substring 0 (String.length addr - 5) addr.

Definition h_open : tunnelHandler.tunnelHandler :=
  tunnelHandler.mkHandler "node"
    (tunnelHandler.mkHandlerOptions None None false "svc")
    (tunnelHandler.mkMetadata 0 0).

(** A version-1 request with tunnel [T1] and command 3, which is neither
    CONNECT nor BIND. *)
Definition req_unknown_cmd : relay.Request :=
  relay.mkRequest 1 3 [relay.TunnelFeature Examples.T1].

(** An mtcp listener with an empty queue of backlog 2 and a fresh error
    channel. *)
Definition mtcp_fresh : mtcpListener.State :=
  mtcpListener.mkState (listener.mkListener (listener.make 2) [])
    errchan.make [].

Definition h2_fresh : h2Listener.State := h2Listener.mkState mtcp_fresh 0.

(** A request with three address features and two credentials. *)
Definition features_many : list relay.Feature :=
  [relay.AddrFeature "10.0.0.1" 1000; relay.UserAuthFeature "u1" "p1";
   relay.AddrFeature "::1" 2000; relay.NetworkFeature "udp";
   relay.AddrFeature "example.com" 443; relay.UserAuthFeature "u2" "p2";
   relay.TunnelFeature Examples.T1; relay.OtherFeature 9].

End Scenarios.

(** Inputs for the SOCKS4 handler. *)

Module V4Scenarios.

Definition CmdConnect : Z := 1.
Definition CmdBind : Z := 2.

Definition host_of (addr : string) : string := "192.0.2.7".

Definition conn_of (r : v4.Request + error) (w : option error) : v4.Conn :=
  v4.mkConn "192.0.2.7:4000" r w [] None false.

Definition req (cmd : Z) : v4.Request :=
  v4.mkRequest cmd "alice" "example.org:80".

(** Dials succeed except to port 81. *)
Definition dial (ctx : v4.Context) (network addr : string) : nat + error :=
  if String.eqb addr "example.org:81"
  then inr (ErrOther "connection refused") else inl 7%nat.

(** Accepts the user bob only, with the empty password. *)
Definition auther (user password : string) : string * bool :=
  if String.eqb user "bob" && String.eqb password "" then ("bob-id", true)
  else ("", false).

Definition h_plain : v4.socks4Handler :=
  v4.mkHandler None None None dial true 0 "".

Definition h_auth : v4.socks4Handler :=
  v4.mkHandler (Some auther) None None dial true 0 "".

Definition h_limited : v4.socks4Handler :=
  v4.mkHandler None (Some (fun _ => Some false)) None dial true 10 "".

Definition ctx0 : v4.Context := v4.mkContext None None.

End V4Scenarios.

(** * Properties *)

(** ** Generic facts about loops and the selector *)

Lemma fold_left_invariant {A B : Type} (f : A → B → A) (P : A → Prop)
    (l : list B) (a : A) :
  P a → (∀ a b, b ∈ l → P a → P (f a b)) → P (fold_left f l a).
Proof.
  revert a. induction l as [|b l IH]; intros a Ha Hstep; simpl; [done|].
  apply IH.
  - apply Hstep; [left | done].
  - intros a' b' Hb'. apply Hstep. by right.
Qed.

Section SelectorFacts.
Context {T : Type} (zero : T).

Lemma pick_elem_of (l : list (T * Z)) (ticket : Z) (x : T) :
  selector.pick l ticket = Some x → ∃ w, (x, w) ∈ l.
Proof.
  revert ticket. induction l as [|[y w] l IH]; intros ticket; simpl; [done|].
  destruct (ticket - w <=? 0).
  - intros [= ->]. exists w. left.
  - intros H. destruct (IH _ H) as [w' Hw']. exists w'. by right.
Qed.

(** [Next] returns the zero value or one of the items that were added. *)
Lemma Next_zero_or_item (rw : selector.RandomWeighted T) (r : Z) :
  selector.Next zero rw r = zero ∨
  ∃ w, (selector.Next zero rw r, w) ∈ selector.items rw.
Proof.
  unfold selector.Next. destruct (selector.items rw) as [|i l] eqn:E; [by left|].
  destruct (selector.sum rw <=? 0); [by left|].
  right. destruct (selector.pick (i :: l) _) as [x|] eqn:Hp.
  - by apply pick_elem_of in Hp.
  - destruct (last (i :: l)) as [[y w]|] eqn:Hl.
    + exists w. by apply last_Some_elem_of.
    + by apply last_None in Hl.
Qed.

Lemma total_app (l1 l2 : list (T * Z)) :
  selector.total (l1 ++ l2) = selector.total l1 + selector.total l2.
Proof. induction l1 as [|i l1 IH]; simpl; lia. Qed.

Lemma total_lower_bound (l : list (T * Z)) :
  (∀ x w, (x, w) ∈ l → 1 ≤ w) → 0 ≤ selector.total l.
Proof.
  induction l as [|[y w] l IH]; intros Hw; simpl; [lia|].
  pose proof (Hw y w (list_elem_of_here _ _)).
  assert (0 ≤ selector.total l); [|lia].
  apply IH. intros x w' Hx. apply (Hw x w'). by right.
Qed.

(** A ticket between 1 and the total weight always lands on an item. *)
Lemma pick_is_Some (l : list (T * Z)) (ticket : Z) :
  (∀ x w, (x, w) ∈ l → 1 ≤ w) → 1 ≤ ticket ≤ selector.total l →
  is_Some (selector.pick l ticket).
Proof.
  revert ticket. induction l as [|[y w] l IH]; intros ticket Hw Ht; simpl in *.
  - lia.
  - destruct (Z.leb_spec (ticket - w) 0); [by eexists|].
    apply IH; [|lia]. intros x w' Hx. apply (Hw x w'). by right.
Qed.

(** With positive weights that add up to [sum], [Next] on a selector that
    holds an item returns an item. *)
Lemma Next_item (rw : selector.RandomWeighted T) (r : Z) :
  selector.items rw ≠ [] →
  (∀ x w, (x, w) ∈ selector.items rw → 1 ≤ w) →
  selector.sum rw = selector.total (selector.items rw) →
  ∃ w, (selector.Next zero rw r, w) ∈ selector.items rw.
Proof.
  intros Hne Hw Hsum. unfold selector.Next.
  destruct (selector.items rw) as [|[y wy] l] eqn:E; [done|].
  assert (1 ≤ selector.sum rw) as Hpos.
  { rewrite Hsum. simpl.
    pose proof (Hw y wy (list_elem_of_here _ _)).
    assert (0 ≤ selector.total l); [|lia].
    apply total_lower_bound. intros x w Hx. apply (Hw x w). by right. }
  destruct (Z.leb_spec (selector.sum rw) 0); [lia|].
  pose proof (Z.mod_pos_bound r (selector.sum rw) ltac:(lia)) as Hr.
  destruct (pick_is_Some ((y, wy) :: l) (r mod selector.sum rw + 1)) as [x Hx].
  - done.
  - rewrite <- Hsum. lia.
  - rewrite Hx. by apply pick_elem_of in Hx.
Qed.
End SelectorFacts.

(** ** Weighted selection in [Tunnel.GetConnector] *)

Section GetConnectorFacts.
Variables (st : mux.Store) (network : string).

Local Abbreviation step := (Tunnel.select_step st network).
Local Abbreviation live c := (Connector.IsClosed (Some c) st = false).
Local Abbreviation matching c := (Tunnel.network_matches network c = true).

Lemma network_matches_spec (c : Connector.Connector) :
  matching c ↔ relay.IsUDP (Connector.id c) = bool_decide (network = "udp").
Proof.
  unfold Tunnel.network_matches.
  destruct (String.eqb_spec network "udp") as [->|Hne].
  - rewrite bool_decide_eq_true_2 by done.
    destruct (relay.IsUDP _); simpl; split; congruence.
  - rewrite bool_decide_eq_false_2 by done.
    destruct (relay.IsUDP _); simpl; split; congruence.
Qed.

Lemma weight_of_bounds (c : Connector.Connector) :
  1 ≤ Tunnel.weight_of c ≤ 255.
Proof.
  unfold Tunnel.weight_of, relay.Weight.
  pose proof (Z.mod_pos_bound (relay.cid_weight (Connector.ID c)) 256 ltac:(lia)).
  destruct (Z.eqb_spec (relay.cid_weight (Connector.ID c) mod 256) 0); lia.
Qed.

Lemma weight_of_max (c : Connector.Connector) :
  Tunnel.weight_of c = Tunnel.MaxWeight ↔
  relay.Weight (Connector.ID c) = Tunnel.MaxWeight.
Proof.
  unfold Tunnel.weight_of, Tunnel.MaxWeight.
  destruct (Z.eqb_spec (relay.Weight (Connector.ID c)) 0); lia.
Qed.

(** What the loop maintains about [(rw, found)]: every item is a live,
    matching connector of the list with its normalised weight; once
    [found] is set the selector is not empty and holds weight-255 items
    only; [sum] is the total of the item weights. *)
Lemma select_step_invariant (cs : list Connector.ptr) :
  let I (acc : selector.RandomWeighted Connector.ptr * bool) :=
    (∀ x w, (x, w) ∈ selector.items acc.1 →
       ∃ c, x = Some c ∧ Some c ∈ cs ∧ live c ∧ matching c ∧
            w = Tunnel.weight_of c) ∧
    (acc.2 = true →
       selector.items acc.1 ≠ [] ∧
       ∀ x w, (x, w) ∈ selector.items acc.1 → w = Tunnel.MaxWeight) ∧
    selector.sum acc.1 = selector.total (selector.items acc.1) in
  I (fold_left step cs (selector.NewRandomWeighted, false)).
Proof.
  intros I. subst I. cbn beta. apply fold_left_invariant.
  - repeat split; simpl; try done. intros x w Hx. by apply elem_of_nil in Hx.
  - intros [rw found] c Hc (Hitems & Hfound & Hsum). unfold Tunnel.select_step.
    destruct (Connector.IsClosed c st) eqn:Hclosed; [done|].
    destruct c as [c|]; [|done].
    destruct (Tunnel.network_matches network c) eqn:Hm; [|done].
    assert (∀ (l : list (Connector.ptr * Z)) x w,
              (∀ x w, (x, w) ∈ l → ∃ c', x = Some c' ∧ Some c' ∈ cs ∧
                  live c' ∧ matching c' ∧ w = Tunnel.weight_of c') →
              (x, w) ∈ l ++ [(Some c, Tunnel.weight_of c)] →
              ∃ c', x = Some c' ∧ Some c' ∈ cs ∧ live c' ∧ matching c' ∧
                    w = Tunnel.weight_of c') as Hadd.
    { intros l x w Hl [Hx|Hx%list_elem_of_singleton]%elem_of_app; [eauto|].
      injection Hx as -> ->. by exists c. }
    destruct (Z.eqb_spec (Tunnel.weight_of c) Tunnel.MaxWeight) as [Hmax|Hmax];
      destruct found;
      unfold selector.Add, selector.Reset;
      cbn [fst snd negb andb orb app selector.items selector.sum] in *.
    + split; [|split].
      * intros x w Hx. by apply (Hadd (selector.items rw)).
      * intros _. destruct (Hfound eq_refl) as [Hne Hall]. split.
        -- by destruct (selector.items rw).
        -- intros x w [Hx|Hx%list_elem_of_singleton]%elem_of_app; [eauto|].
           by injection Hx as -> ->.
      * rewrite total_app. simpl. lia.
    + split; [|split].
      * intros x w Hx. apply (Hadd []); [|done].
        intros x' w' Hx'. by apply elem_of_nil in Hx'.
      * intros _. split; [done|].
        intros x w Hx%list_elem_of_singleton. by injection Hx as -> ->.
      * simpl. lia.
    + split; [|split]; done.
    + split; [|split].
      * intros x w Hx. by apply (Hadd (selector.items rw)).
      * done.
      * rewrite total_app. simpl. lia.
Qed.

Lemma select_step_found_stays
    (acc : selector.RandomWeighted Connector.ptr * bool) (c : Connector.ptr) :
  acc.2 = true → (step acc c).2 = true.
Proof.
  destruct acc as [rw found]. simpl. intros ->. unfold Tunnel.select_step.
  destruct (Connector.IsClosed c st); [done|]. destruct c as [c|]; [|done].
  destruct (Tunnel.network_matches network c); [|done].
  by destruct (Tunnel.weight_of c =? Tunnel.MaxWeight).
Qed.

(** A live, matching connector of weight 255 in the list sets [found]. *)
Lemma select_found (cs : list Connector.ptr)
    (acc : selector.RandomWeighted Connector.ptr * bool) (c : Connector.Connector) :
  Some c ∈ cs → live c → matching c →
  Tunnel.weight_of c = Tunnel.MaxWeight →
  (fold_left step cs acc).2 = true.
Proof.
  intros Hin Hlive Hmatch Hmax. revert acc.
  induction cs as [|c' cs IH]; intros acc; [by apply elem_of_nil in Hin|].
  simpl. apply elem_of_cons in Hin as [<-|Hin]; [|by apply IH].
  apply (fold_left_invariant _ (λ acc, acc.2 = true)).
  - destruct acc as [rw found]. unfold Tunnel.select_step.
    rewrite Hlive, Hmatch. apply Z.eqb_eq in Hmax. rewrite Hmax.
    by destruct found.
  - intros a b _. apply select_step_found_stays.
Qed.
End GetConnectorFacts.

(** C1: for every tunnel and network string N, [GetConnector(N)] returns
    the sole connector unfiltered when the list has exactly one element, and
    otherwise returns nil or a connector of the list that is not closed and
    whose [IsUDP()] equals [N == "udp"]. *)
Theorem GetConnector_live_matching_or_single
    (t : Tunnel.Tunnel) (st : mux.Store) (network : string) (r : Z) :
  (∀ c, Tunnel.connectors t = [c] → Tunnel.GetConnector t st network r = c) ∧
  (length (Tunnel.connectors t) ≠ 1%nat →
   Tunnel.GetConnector t st network r = None ∨
   ∃ c, Tunnel.GetConnector t st network r = Some c ∧
        Some c ∈ Tunnel.connectors t ∧
        Connector.IsClosed (Some c) st = false ∧
        relay.IsUDP (Connector.id c) = bool_decide (network = "udp")).
Proof.
  unfold Tunnel.GetConnector. split.
  - intros c ->. reflexivity.
  - intros Hlen. destruct (Nat.eqb_spec (length (Tunnel.connectors t)) 1); [done|].
    pose proof (select_step_invariant st network (Tunnel.connectors t))
      as (Hitems & _ & _).
    destruct (fold_left _ _ _) as [rw found]. simpl in Hitems.
    destruct (Next_zero_or_item None rw r) as [Hnil|[w Hw]]; [by left|].
    right. destruct (Hitems _ _ Hw) as (c & Hc & Hin & Hlive & Hmatch & _).
    exists c. by rewrite <- network_matches_spec.
Qed.

Lemma GetConnector_live_matching_or_single_witness :
  Tunnel.GetConnector Examples.tunnel_single_udp Examples.store0 "tcp" 7
    = Some (Examples.connector 1 true 1) ∧
  (Tunnel.GetConnector Examples.tunnel_S4 Examples.store0 "tcp" 7 = None ∨
   ∃ c, Tunnel.GetConnector Examples.tunnel_S4 Examples.store0 "tcp" 7 = Some c ∧
        Some c ∈ Tunnel.connectors Examples.tunnel_S4 ∧
        Connector.IsClosed (Some c) Examples.store0 = false ∧
        relay.IsUDP (Connector.id c) = bool_decide ("tcp" = "udp")).
Proof.
  split.
  - apply (proj1 (GetConnector_live_matching_or_single
                    Examples.tunnel_single_udp Examples.store0 "tcp" 7)).
    reflexivity.
  - apply (proj2 (GetConnector_live_matching_or_single
                    Examples.tunnel_S4 Examples.store0 "tcp" 7)).
    simpl. lia.
Defined.

(** C2: with more than one connector in the list, if some live,
    network-matching connector has weight 255, the connector returned is not
    nil and its weight is 255. *)
Theorem GetConnector_max_weight_override
    (t : Tunnel.Tunnel) (st : mux.Store) (network : string) (r : Z) :
  (1 < length (Tunnel.connectors t))%nat →
  (∃ c, Some c ∈ Tunnel.connectors t ∧
        Connector.IsClosed (Some c) st = false ∧
        relay.IsUDP (Connector.id c) = bool_decide (network = "udp") ∧
        relay.Weight (Connector.ID c) = Tunnel.MaxWeight) →
  (∀ c, Tunnel.GetConnector t st network r = Some c →
        relay.Weight (Connector.ID c) = Tunnel.MaxWeight) ∧
  Tunnel.GetConnector t st network r ≠ None.
Proof.
  intros Hlen (cmax & Hin & Hlive & Hudp & Hmax). unfold Tunnel.GetConnector.
  destruct (Nat.eqb_spec (length (Tunnel.connectors t)) 1); [lia|].
  pose proof (select_step_invariant st network (Tunnel.connectors t))
    as (Hitems & Hfound & Hsum).
  pose proof (select_found st network (Tunnel.connectors t)
                (selector.NewRandomWeighted, false) cmax Hin Hlive) as Hset.
  rewrite network_matches_spec, weight_of_max in Hset.
  specialize (Hset Hudp Hmax).
  destruct (fold_left _ _ _) as [rw found]. simpl in *.
  destruct (Hfound Hset) as [Hne Hall].
  destruct (Next_item None rw r Hne) as [w Hw]; [|done|].
  { intros x w Hx. destruct (Hitems _ _ Hx) as (c & _ & _ & _ & _ & ->).
    apply weight_of_bounds. }
  destruct (Hitems _ _ Hw) as (c & Hc & _ & _ & _ & Hwc).
  rewrite Hc. split; [|done].
  intros c' [= <-]. apply weight_of_max. rewrite <- Hwc. by apply (Hall (Some c)); rewrite <- Hc.
Qed.

Lemma GetConnector_max_weight_override_witness :
  (∀ c, Tunnel.GetConnector Examples.tunnel_S4 Examples.store0 "tcp" 7 = Some c →
        relay.Weight (Connector.ID c) = Tunnel.MaxWeight) ∧
  Tunnel.GetConnector Examples.tunnel_S4 Examples.store0 "tcp" 7 ≠ None.
Proof.
  apply (GetConnector_max_weight_override Examples.tunnel_S4 Examples.store0 "tcp" 7).
  - simpl. lia.
  - exists (Examples.connector 2 false 255). split; [|by vm_compute].
    simpl. right. left.
Defined.

(** ** Nil connectors and nil sessions *)

(** C10: on a nil connector, or a connector whose session is nil, [GetConn]
    returns a nil connection together with a nil error, [IsClosed] returns
    true and [Close] returns nil; the session store is left as it was. *)
Theorem GetConn_nil_returns_nil_nil (c : Connector.ptr) (st : mux.Store) :
  (c = None ∨ ∃ c', c = Some c' ∧ Connector.s c' = None) →
  Connector.GetConn c st = (st, (None, None)) ∧
  Connector.IsClosed c st = true ∧
  Connector.Close c st = (st, None).
Proof.
  intros [->|(c' & -> & Hs)]; [done|].
  unfold Connector.GetConn, Connector.IsClosed, Connector.Close.
  by rewrite Hs.
Qed.

Lemma GetConn_nil_returns_nil_nil_witness :
  (Connector.GetConn None Examples.store0 = (Examples.store0, (None, None)) ∧
   Connector.IsClosed None Examples.store0 = true ∧
   Connector.Close None Examples.store0 = (Examples.store0, None)) ∧
  (Connector.GetConn (Some Examples.connector_no_session) Examples.store0
     = (Examples.store0, (None, None)) ∧
   Connector.IsClosed (Some Examples.connector_no_session) Examples.store0 = true ∧
   Connector.Close (Some Examples.connector_no_session) Examples.store0
     = (Examples.store0, None)).
Proof.
  split.
  - apply (GetConn_nil_returns_nil_nil None Examples.store0). by left.
  - apply (GetConn_nil_returns_nil_nil
             (Some Examples.connector_no_session) Examples.store0).
    right. exists Examples.connector_no_session. split; reflexivity.
Defined.

(** ** The connector pool *)

(** C6: [Get] with a tunnel ID that has no entry in the pool's map returns
    nil and leaves the pool as it was: the key still has no entry and every
    other key maps to what it mapped to. *)
Theorem Get_missing_returns_nil_unchanged
    (p : ConnectorPool.ConnectorPool) (st : mux.Store)
    (network tid : string) (r : Z) :
  ConnectorPool.tunnels p !! tid = None →
  ∃ p', ConnectorPool.Get (Some p) st network tid r = (None, Some p') ∧
        p' = p ∧
        ConnectorPool.tunnels p' !! tid = None ∧
        ∀ k, ConnectorPool.tunnels p' !! k = ConnectorPool.tunnels p !! k.
Proof.
  intros Hmiss. exists p. unfold ConnectorPool.Get. by rewrite Hmiss.
Qed.

Lemma Get_missing_returns_nil_unchanged_witness :
  ∃ p', ConnectorPool.Get (Some Examples.pool_T1) Examples.store0 "tcp"
          "22222222-2222-2222-2222-222222222222" 7 = (None, Some p') ∧
        p' = Examples.pool_T1 ∧
        ConnectorPool.tunnels p' !! "22222222-2222-2222-2222-222222222222" = None ∧
        ∀ k, ConnectorPool.tunnels p' !! k
             = ConnectorPool.tunnels Examples.pool_T1 !! k.
Proof.
  apply (Get_missing_returns_nil_unchanged Examples.pool_T1 Examples.store0
           "tcp" "22222222-2222-2222-2222-222222222222" 7).
  vm_compute. reflexivity.
Defined.

(** ** Sequences of [AddConnector] and [Close] *)

Lemma call_connectors (ts : Tunnel.Tunnel * mux.Store) (op : Calls.Call) :
  Tunnel.connectors (Calls.call ts op).1
  = Tunnel.connectors ts.1 ++ Calls.added [op].
Proof.
  destruct ts as [t st], op as [[c|]|]; simpl;
    [done | by rewrite app_nil_r |].
  unfold Tunnel.Close. destruct (Tunnel.close t); simpl; by rewrite app_nil_r.
Qed.

Lemma added_cons (op : Calls.Call) (ops : list Calls.Call) :
  Calls.added (op :: ops) = Calls.added [op] ++ Calls.added ops.
Proof. by destruct op as [[c|]|]. Qed.

(** The list is the initial list followed by the connectors added. *)
Lemma run_connectors (ops : list Calls.Call) (ts : Tunnel.Tunnel * mux.Store) :
  Tunnel.connectors (Calls.run ops ts).1
  = Tunnel.connectors ts.1 ++ Calls.added ops.
Proof.
  revert ts. induction ops as [|op ops IH]; intros ts.
  - simpl. by rewrite app_nil_r.
  - unfold Calls.run in *. simpl fold_left. rewrite IH, call_connectors.
    by rewrite (added_cons op ops), app_assoc.
Qed.

(** A second [Close] does nothing: the tunnel, the sessions and the trace
    of closes stay as the first [Close] left them. *)
Lemma Close_twice (t : Tunnel.Tunnel) (st : mux.Store) :
  (Tunnel.Close t st).2 = None ∧
  Tunnel.Close (Tunnel.Close t st).1.1 (Tunnel.Close t st).1.2
  = ((Tunnel.Close t st).1, None).
Proof.
  unfold Tunnel.Close. destruct (Tunnel.close t) eqn:E; simpl.
  - done.
  - by rewrite E.
Qed.

Lemma Close_closes_channel (t : Tunnel.Tunnel) (st : mux.Store) :
  Tunnel.close (Tunnel.Close t st).1.1 = Tunnel.ChanClosed.
Proof. unfold Tunnel.Close. by destruct (Tunnel.close t) eqn:E. Qed.

(** Once the channel is closed no call closes a session or the channel:
    the store, and with it the trace, stays as it is. *)
Lemma run_on_closed_tunnel (ops : list Calls.Call) (t : Tunnel.Tunnel)
    (st : mux.Store) :
  Tunnel.close t = Tunnel.ChanClosed →
  Tunnel.close (Calls.run ops (t, st)).1 = Tunnel.ChanClosed ∧
  (Calls.run ops (t, st)).2 = st.
Proof.
  revert t. induction ops as [|op ops IH]; intros t Hclosed; [done|].
  unfold Calls.run in *. simpl fold_left. destruct op as [c|]; simpl.
  - apply IH. by destruct c.
  - unfold Tunnel.Close. rewrite Hclosed. simpl. by apply IH.
Qed.

(** C5, as stated, fails: adding one connector twice leaves it twice in
    the list. *)
Lemma AddConnector_twice_keeps_duplicate :
  ¬ NoDup (Tunnel.connectors
             (Calls.run Examples.calls_same_twice
                (Tunnel.NewTunnel 15 "node" Examples.T1 0, Examples.store0)).1).
Proof.
  simpl. intros Hnd. apply NoDup_cons in Hnd as [Hnotin _].
  apply Hnotin. left.
Qed.

(** C5, amended: after any sequence of [AddConnector] and [Close] calls on a
    new tunnel the connector list is the list of the non-nil connectors that
    were added, in call order, so it has no duplicates when no connector was
    added twice; and, for any sequence, [Close] is idempotent: a second
    [Close] returns nil and leaves the tunnel, the sessions and the trace of
    closes as the first left them, and so does every later call. *)
Theorem AddConnector_Close_sequence
    (defaultTTL : Z) (node : string) (tid : relay.TunnelID) (ttl : Z)
    (ops : list Calls.Call) (st0 : mux.Store) :
  let ts := Calls.run ops (Tunnel.NewTunnel defaultTTL node tid ttl, st0) in
  Tunnel.connectors ts.1 = Calls.added ops ∧
  (NoDup (Calls.added ops) → NoDup (Tunnel.connectors ts.1)) ∧
  (Tunnel.Close ts.1 ts.2).2 = None ∧
  Tunnel.Close (Tunnel.Close ts.1 ts.2).1.1 (Tunnel.Close ts.1 ts.2).1.2
  = ((Tunnel.Close ts.1 ts.2).1, None) ∧
  ∀ more, (Calls.run more (Tunnel.Close ts.1 ts.2).1).2
          = (Tunnel.Close ts.1 ts.2).1.2.
Proof.
  intros ts.
  assert (Tunnel.connectors ts.1 = Calls.added ops) as Hcs.
  { subst ts. by rewrite run_connectors. }
  split; [done|]. split; [by rewrite Hcs|].
  destruct (Close_twice ts.1 ts.2) as [Hnil Htwice].
  split; [done|]. split; [done|]. intros more.
  destruct (Tunnel.Close ts.1 ts.2) as [[t1 st1] e1] eqn:E. simpl.
  apply run_on_closed_tunnel.
  pose proof (Close_closes_channel ts.1 ts.2) as Hc. by rewrite E in Hc.
Qed.

Lemma AddConnector_Close_sequence_witness :
  let ts := Calls.run Examples.calls_mixed
              (Tunnel.NewTunnel 15 "node" Examples.T1 0, Examples.store0) in
  Tunnel.connectors ts.1 = Calls.added Examples.calls_mixed ∧
  NoDup (Tunnel.connectors ts.1) ∧
  (Tunnel.Close ts.1 ts.2).2 = None ∧
  Tunnel.Close (Tunnel.Close ts.1 ts.2).1.1 (Tunnel.Close ts.1 ts.2).1.2
  = ((Tunnel.Close ts.1 ts.2).1, None) ∧
  ∀ more, (Calls.run more (Tunnel.Close ts.1 ts.2).1).2
          = (Tunnel.Close ts.1 ts.2).1.2.
Proof.
  destruct (AddConnector_Close_sequence 15 "node" Examples.T1 0
              Examples.calls_mixed Examples.store0)
    as (Hlist & Hnodup & Hclose).
  split; [exact Hlist|]. split; [|exact Hclose].
  apply Hnodup. simpl. apply NoDup_cons. split.
  - intros Hin. apply list_elem_of_singleton in Hin. discriminate Hin.
  - apply NoDup_singleton.
Defined.

(** ** The request state machine of [Handle] *)

(** Without a tunnel feature the loop leaves [tunnelID] at its zero value. *)
Lemma parse_features_no_tunnel (fs : list relay.Feature) :
  (∀ tid, relay.TunnelFeature tid ∉ fs) →
  tunnelHandler.tunnelID (tunnelHandler.parse_features fs) = relay.zeroTunnelID.
Proof.
  intros Hno. unfold tunnelHandler.parse_features.
  apply (fold_left_invariant _
           (λ p, tunnelHandler.tunnelID p = relay.zeroTunnelID)); [done|].
  intros p f Hf Hp. destruct f; simpl; try done.
  - by destruct (negb _).
  - by apply Hno in Hf.
Qed.

Section HandleFacts.
Variables (Version1 CmdConnect CmdBind CmdMask : Z).
Variable SplitHostPort : string → string.
Variable now : Z.
Variable handleConnect :
  tunnelHandler.Context → relay.Request → tunnelHandler.NetConn →
  string → string → string → relay.TunnelID → tunnelHandler.PoolState →
  option error * tunnelHandler.NetConn * tunnelHandler.PoolState.
Variable handleBind :
  tunnelHandler.Context → tunnelHandler.NetConn → string → string →
  relay.TunnelID → tunnelHandler.PoolState →
  option error * tunnelHandler.NetConn * tunnelHandler.PoolState.

Local Abbreviation Handle :=
  (tunnelHandler.Handle Version1 CmdConnect CmdBind CmdMask SplitHostPort
     now handleConnect handleBind).
Local Abbreviation respond status :=
  (relay.mkResponse Version1 status).

(** C4, amended: once the rate limit has admitted the connection and a
    request of version 1 has been read, a request whose tunnel feature is
    absent or carries sixteen zero bytes makes [Handle] write one response
    with status BadRequest, close the connection and return the
    invalid-tunnel-ID error, whatever the authenticator and the command
    handlers are; the pool is left as it was. *)
Theorem Handle_zero_tunnel_id_bad_request
    (h : tunnelHandler.tunnelHandler) (ctx : tunnelHandler.Context)
    (c : tunnelHandler.NetConn) (ps : tunnelHandler.PoolState)
    (req : relay.Request) :
  tunnelHandler.checkRateLimit SplitHostPort h (tunnelHandler.RemoteAddr c)
    = true →
  tunnelHandler.incoming c = inl req →
  relay.Version req = Version1 →
  ((∀ tid, relay.TunnelFeature tid ∉ relay.Features req) ∨
   relay.IsZero
     (tunnelHandler.tunnelID (tunnelHandler.parse_features (relay.Features req)))
   = true) →
  tunnelHandler.err (Handle h ctx c ps) = Some ErrTunnelID ∧
  tunnelHandler.written (tunnelHandler.conn (Handle h ctx c ps))
    = tunnelHandler.written c ++ [respond relay.StatusBadRequest] ∧
  tunnelHandler.conn_closed (tunnelHandler.conn (Handle h ctx c ps)) = true ∧
  tunnelHandler.pool (Handle h ctx c ps) = ps.
Proof.
  intros Hrate Hreq Hver Hzero.
  assert (relay.IsZero
            (tunnelHandler.tunnelID
               (tunnelHandler.parse_features (relay.Features req))) = true)
    as Hz.
  { destruct Hzero as [Hno|Hz]; [|done].
    by rewrite (parse_features_no_tunnel _ Hno). }
  unfold tunnelHandler.Handle, tunnelHandler.Handle_body.
  rewrite Hrate. simpl negb. cbv iota.
  destruct (0 <? tunnelHandler.readTimeout (tunnelHandler.md h)); simpl;
    rewrite Hreq, Hver, Z.eqb_refl, Hz; simpl; done.
Qed.

(** C3, amended: once the rate limit has admitted the connection and a
    request of version 1 with a non-zero tunnel ID has been read, an
    authenticator that rejects the credentials of the request makes
    [Handle] write one response with status Unauthorized, close the
    connection and return the unauthorized error, whatever the command
    handlers are; the pool is left as it was. *)
Theorem Handle_auth_reject_unauthorized
    (h : tunnelHandler.tunnelHandler) (ctx : tunnelHandler.Context)
    (c : tunnelHandler.NetConn) (ps : tunnelHandler.PoolState)
    (req : relay.Request) (authenticate : string → string → string * bool) :
  tunnelHandler.checkRateLimit SplitHostPort h (tunnelHandler.RemoteAddr c)
    = true →
  tunnelHandler.incoming c = inl req →
  relay.Version req = Version1 →
  relay.IsZero
    (tunnelHandler.tunnelID (tunnelHandler.parse_features (relay.Features req)))
  = false →
  tunnelHandler.Auther (tunnelHandler.options h) = Some authenticate →
  (authenticate
     (tunnelHandler.user (tunnelHandler.parse_features (relay.Features req)))
     (tunnelHandler.pass (tunnelHandler.parse_features (relay.Features req)))).2
  = false →
  tunnelHandler.err (Handle h ctx c ps) = Some ErrUnauthorized ∧
  tunnelHandler.written (tunnelHandler.conn (Handle h ctx c ps))
    = tunnelHandler.written c ++ [respond relay.StatusUnauthorized] ∧
  tunnelHandler.conn_closed (tunnelHandler.conn (Handle h ctx c ps)) = true ∧
  tunnelHandler.pool (Handle h ctx c ps) = ps.
Proof.
  intros Hrate Hreq Hver Hz Hauth Hrej.
  unfold tunnelHandler.Handle, tunnelHandler.Handle_body.
  rewrite Hrate. simpl negb. cbv iota.
  destruct (authenticate _ _) as [client ok] eqn:Hcall. simpl in Hrej. subst ok.
  destruct (0 <? tunnelHandler.readTimeout (tunnelHandler.md h)); simpl;
    rewrite Hreq, Hver, Z.eqb_refl, Hz, Hauth, Hcall; simpl; done.
Qed.
End HandleFacts.

Lemma Handle_zero_tunnel_id_bad_request_witness :
  tunnelHandler.err (Examples.handle Examples.h_reject_all Examples.req_no_tunnel)
    = Some ErrTunnelID ∧
  tunnelHandler.written
    (tunnelHandler.conn
       (Examples.handle Examples.h_reject_all Examples.req_no_tunnel))
    = [] ++ [relay.mkResponse 1 relay.StatusBadRequest] ∧
  tunnelHandler.conn_closed
    (tunnelHandler.conn
       (Examples.handle Examples.h_reject_all Examples.req_no_tunnel)) = true ∧
  tunnelHandler.pool
    (Examples.handle Examples.h_reject_all Examples.req_no_tunnel)
    = Examples.pool_state.
Proof.
  apply (Handle_zero_tunnel_id_bad_request 1 1 2 15 (fun a => a) 0
           Examples.connect_stub Examples.bind_stub Examples.h_reject_all
           Examples.no_context (Examples.conn_with Examples.req_no_tunnel)
           Examples.pool_state Examples.req_no_tunnel).
  - reflexivity.
  - reflexivity.
  - reflexivity.
  - right. reflexivity.
Defined.

(** C4, as stated, fails: a request of another version without a tunnel
    feature is answered BadRequest, but the error returned is the
    bad-version error. *)
Lemma Handle_bad_version_precedes_tunnel_id :
  (∀ tid, relay.TunnelFeature tid
          ∉ relay.Features Examples.req_bad_version) ∧
  tunnelHandler.err
    (Examples.handle Examples.h_reject_all Examples.req_bad_version)
    = Some ErrBadVersion ∧
  tunnelHandler.err
    (Examples.handle Examples.h_reject_all Examples.req_bad_version)
    ≠ Some ErrTunnelID.
Proof.
  split; [|split].
  - intros tid Hin. apply list_elem_of_singleton in Hin. discriminate Hin.
  - reflexivity.
  - discriminate.
Qed.

Lemma Handle_auth_reject_unauthorized_witness :
  tunnelHandler.err (Examples.handle Examples.h_reject_all Examples.req_S6)
    = Some ErrUnauthorized ∧
  tunnelHandler.written
    (tunnelHandler.conn (Examples.handle Examples.h_reject_all Examples.req_S6))
    = [] ++ [relay.mkResponse 1 relay.StatusUnauthorized] ∧
  tunnelHandler.conn_closed
    (tunnelHandler.conn (Examples.handle Examples.h_reject_all Examples.req_S6))
    = true ∧
  tunnelHandler.pool (Examples.handle Examples.h_reject_all Examples.req_S6)
    = Examples.pool_state.
Proof.
  apply (Handle_auth_reject_unauthorized 1 1 2 15 (fun a => a) 0
           Examples.connect_stub Examples.bind_stub Examples.h_reject_all
           Examples.no_context (Examples.conn_with Examples.req_S6)
           Examples.pool_state Examples.req_S6 (fun _ _ => ("", false)));
    reflexivity.
Defined.

(** C3, as stated, fails: the authenticator rejects the credentials of the
    request, yet a request without a tunnel ID is answered BadRequest with
    the invalid-tunnel-ID error, because the tunnel ID is checked before
    the authenticator is asked. *)
Lemma Handle_auth_reject_after_tunnel_id_check :
  (∃ authenticate,
     tunnelHandler.Auther (tunnelHandler.options Examples.h_reject_all)
       = Some authenticate ∧
     (authenticate "bad" "x").2 = false) ∧
  tunnelHandler.err
    (Examples.handle Examples.h_reject_all Examples.req_no_tunnel)
    ≠ Some ErrUnauthorized ∧
  tunnelHandler.written
    (tunnelHandler.conn
       (Examples.handle Examples.h_reject_all Examples.req_no_tunnel))
    = [relay.mkResponse 1 relay.StatusBadRequest].
Proof.
  split; [|split].
  - eexists. split; reflexivity.
  - discriminate.
  - reflexivity.
Qed.

(** ** The period of the stats observer *)

(** C7: with an observer set, the ticker of [observeStats] gets the
    configured [observePeriod] when that is at least one millisecond and
    five seconds when it is below; the period is never under one
    millisecond, and the SOCKS4 handler's loop does the same. *)
Theorem observeStats_tick_period
    (h : tunnelHandler.tunnelHandler) (h4 : socks4Handler.socks4Handler)
    (ws : list tunnelHandler.Wakeup) :
  tunnelHandler.Observer (tunnelHandler.options h) = true →
  socks4Handler.Observer h4 = true →
  socks4Handler.observePeriod h4
    = tunnelHandler.observePeriod (tunnelHandler.md h) →
  let d := tunnelHandler.observePeriod (tunnelHandler.md h) in
  ∃ period,
    tunnelHandler.observeStats h ws
      = Some (period, tunnelHandler.observe_loop ws 0) ∧
    socks4Handler.observeStats h4 ws = tunnelHandler.observeStats h ws ∧
    (tunnelHandler.Millisecond ≤ d → period = d) ∧
    (d < tunnelHandler.Millisecond → period = 5 * tunnelHandler.Second) ∧
    tunnelHandler.Millisecond ≤ period ∧
    5 * tunnelHandler.Second = 5000000000 ∧
    tunnelHandler.Millisecond = 1000000.
Proof.
  intros Hobs Hobs4 Hsame d.
  unfold tunnelHandler.observeStats, socks4Handler.observeStats.
  rewrite Hobs, Hobs4, Hsame. fold d. simpl negb. cbv iota.
  eexists. split; [reflexivity|]. split; [reflexivity|].
  change tunnelHandler.Second with 1000000000.
  change tunnelHandler.Millisecond with 1000000.
  destruct (Z.ltb_spec d 1000000); repeat split; lia.
Qed.

Lemma observeStats_tick_period_witness :
  (∃ period,
     tunnelHandler.observeStats (Examples.h_observed 250000000) Examples.wakeups
       = Some (period, tunnelHandler.observe_loop Examples.wakeups 0) ∧
     socks4Handler.observeStats (socks4Handler.mkHandler true 250000000)
       Examples.wakeups
       = tunnelHandler.observeStats (Examples.h_observed 250000000)
           Examples.wakeups ∧
     (tunnelHandler.Millisecond ≤ 250000000 → period = 250000000) ∧
     (250000000 < tunnelHandler.Millisecond → period = 5 * tunnelHandler.Second) ∧
     tunnelHandler.Millisecond ≤ period ∧
     5 * tunnelHandler.Second = 5000000000 ∧
     tunnelHandler.Millisecond = 1000000) ∧
  (∃ period,
     tunnelHandler.observeStats (Examples.h_observed 10) Examples.wakeups
       = Some (period, tunnelHandler.observe_loop Examples.wakeups 0) ∧
     socks4Handler.observeStats (socks4Handler.mkHandler true 10)
       Examples.wakeups
       = tunnelHandler.observeStats (Examples.h_observed 10) Examples.wakeups ∧
     (tunnelHandler.Millisecond ≤ 10 → period = 10) ∧
     (10 < tunnelHandler.Millisecond → period = 5 * tunnelHandler.Second) ∧
     tunnelHandler.Millisecond ≤ period ∧
     5 * tunnelHandler.Second = 5000000000 ∧
     tunnelHandler.Millisecond = 1000000).
Proof.
  split.
  - apply (observeStats_tick_period (Examples.h_observed 250000000)
             (socks4Handler.mkHandler true 250000000) Examples.wakeups);
      reflexivity.
  - apply (observeStats_tick_period (Examples.h_observed 10)
             (socks4Handler.mkHandler true 10) Examples.wakeups);
      reflexivity.
Defined.

(** ** The bounded connection queue of the listeners *)

Lemma try_send_full (ch : listener.Chan) (c : listener.conn) :
  listener.full ch → listener.try_send ch c = None.
Proof.
  intros [Hrecv Hcap]. unfold listener.try_send. rewrite Hrecv. simpl.
  by destruct (Nat.ltb_spec (length (listener.buf ch)) (listener.cap ch)); [lia|].
Qed.

(** With room in the buffer and no receiver waiting the connection is
    appended to the queue and nothing is closed. *)
Lemma push_with_room (l : listener.Listener) (c : listener.conn) :
  listener.receivers (listener.cqueue l) = 0%nat →
  (length (listener.buf (listener.cqueue l)) < listener.cap (listener.cqueue l))%nat →
  listener.buf (listener.cqueue (listener.push l c))
    = listener.buf (listener.cqueue l) ++ [c] ∧
  listener.events (listener.push l c) = listener.events l.
Proof.
  intros Hrecv Hroom. unfold listener.push, listener.try_send.
  rewrite Hrecv. simpl.
  by destruct (Nat.ltb_spec (length (listener.buf (listener.cqueue l)))
                 (listener.cap (listener.cqueue l))); [|lia].
Qed.

(** C8: when the queue is full, the push of a newly accepted connection
    takes the default case: the connection is closed and a warning logged,
    the queue is left as it was, and the accept loop of [mux] goes on with
    the next [Accept]; [handleFunc] of the h2 listener pushes the same way. *)
Theorem push_on_full_queue_drops
    (l : listener.Listener) (stream : listener.conn)
    (rest : list listener.Accepted) :
  listener.full (listener.cqueue l) →
  listener.cqueue (listener.push l stream) = listener.cqueue l ∧
  listener.events (listener.push l stream)
    = listener.events l
      ++ [listener.EvConnClose stream; listener.EvWarnQueueFull stream] ∧
  listener.mux_loop (listener.AcceptStream stream :: rest) l
    = listener.mux_loop rest (listener.push l stream) ∧
  listener.handleFunc l (Some stream) = (listener.push l stream, Some stream).
Proof.
  intros Hfull. unfold listener.push, listener.handleFunc.
  simpl listener.mux_loop. unfold listener.push.
  by rewrite (try_send_full _ stream Hfull).
Qed.

Lemma push_on_full_queue_drops_witness :
  listener.cqueue (listener.push Examples.listener_full 6%nat)
    = listener.cqueue Examples.listener_full ∧
  listener.events (listener.push Examples.listener_full 6%nat)
    = listener.events Examples.listener_full
      ++ [listener.EvConnClose 6%nat; listener.EvWarnQueueFull 6%nat] ∧
  listener.mux_loop
    (listener.AcceptStream 6%nat :: [listener.AcceptStream 7%nat])
    Examples.listener_full
    = listener.mux_loop [listener.AcceptStream 7%nat]
        (listener.push Examples.listener_full 6%nat) ∧
  listener.handleFunc Examples.listener_full (Some 6%nat)
    = (listener.push Examples.listener_full 6%nat, Some 6%nat).
Proof.
  apply (push_on_full_queue_drops Examples.listener_full 6%nat
           [listener.AcceptStream 7%nat]).
  split; simpl; lia.
Defined.

(** ** Textual tunnel IDs *)

Lemma parseTunnelID_empty (Parse : string → uuid.UUID * option error) :
  tunnel.parseTunnelID Parse "" = relay.zeroTunnelID.
Proof. reflexivity. Qed.

(** A string of a length that [uuid.Parse] does not accept is rejected with
    the array still zero. *)
Lemma Parse_invalid_length (s : string) :
  String.length s ∉ [32; 36; 38; 45]%nat →
  uuid.Parse s = (uuid.Nil, Some (ErrOther "invalid UUID length")).
Proof.
  intros Hlen. unfold uuid.Parse.
  destruct (Nat.eqb_spec (String.length s) 36) as [E|_];
    [exfalso; apply Hlen; rewrite E; set_solver|].
  destruct (Nat.eqb_spec (String.length s) (36 + 9)) as [E|_];
    [exfalso; apply Hlen; rewrite E; set_solver|].
  destruct (Nat.eqb_spec (String.length s) (36 + 2)) as [E|_];
    [exfalso; apply Hlen; rewrite E; set_solver|].
  destruct (Nat.eqb_spec (String.length s) 32) as [E|_];
    [exfalso; apply Hlen; rewrite E; set_solver|].
  reflexivity.
Qed.

(** Sixteen bytes are all zero exactly when they are the zero array. *)
Lemma all_zero_iff_Nil (u : list Z) :
  length u = 16%nat →
  forallb (fun b => b =? 0) u = true ↔ u = uuid.Nil.
Proof.
  intros Hlen. unfold uuid.Nil. rewrite <- Hlen. clear Hlen.
  induction u as [|b u IH]; [done|]. simpl. rewrite andb_true_iff, IH.
  split.
  - intros [Hb Hu]. apply Z.eqb_eq in Hb. subst b. by f_equal.
  - intros [= -> Hu]. by split.
Qed.

(** C9, as stated, fails: the string is not a valid UUID, yet the tunnel ID
    built from it is not the one built from the all-zero UUID, because
    [uuid.Parse] returns the bytes it has assigned together with its
    error. *)
Lemma parseTunnelID_keeps_decoded_bytes :
  (uuid.Parse Examples.bad_last_digit).2 ≠ None ∧
  tunnel.parseTunnelID uuid.Parse Examples.bad_last_digit
    ≠ relay.NewTunnelID uuid.Nil ∧
  relay.IsZero (tunnel.parseTunnelID uuid.Parse Examples.bad_last_digit) = false.
Proof.
  split; [|split].
  - vm_compute. discriminate.
  - vm_compute. discriminate.
  - vm_compute. reflexivity.
Qed.

(** C9, amended: [parseTunnelID] discards the error of [uuid.Parse]: for a
    non-empty input the result is the tunnel ID built from the sixteen bytes
    that [Parse] returned for the string without its optional leading dollar
    sign, private exactly when the dollar sign was there, whatever error
    came with them; so the result is the zero tunnel ID exactly when those
    bytes are all zero. When the stripped string has none of the lengths 32,
    36, 38 and 45, [uuid.Parse] fails with the bytes all zero and the result
    is the zero tunnel ID with that private flag. *)
Theorem parseTunnelID_discards_parse_error (c : ascii) (rest : string) :
  let s := String c rest in
  let private := Ascii.eqb c "$" in
  let body := if private then rest else s in
  (∀ Parse : string → uuid.UUID * option error,
     tunnel.parseTunnelID Parse s
     = (if private then relay.NewPrivateTunnelID (Parse body).1
        else relay.NewTunnelID (Parse body).1) ∧
     (length (Parse body).1 = 16%nat →
      (relay.IsZero (tunnel.parseTunnelID Parse s) = true ↔
       (Parse body).1 = uuid.Nil) ∧
      ((Parse body).1 = uuid.Nil →
       tunnel.parseTunnelID Parse s
       = relay.mkTunnelID relay.zeroBytes private))) ∧
  (String.length body ∉ [32; 36; 38; 45]%nat →
   (uuid.Parse body).2 ≠ None ∧
   tunnel.parseTunnelID uuid.Parse s = relay.mkTunnelID relay.zeroBytes private ∧
   relay.IsZero (tunnel.parseTunnelID uuid.Parse s) = true).
Proof.
  intros s private body. subst s private body. split.
  - intros Parse.
    assert (Hbuilt :
      tunnel.parseTunnelID Parse (String c rest)
      = (if Ascii.eqb c "$"
         then relay.NewPrivateTunnelID
                (Parse (if Ascii.eqb c "$" then rest else String c rest)).1
         else relay.NewTunnelID
                (Parse (if Ascii.eqb c "$" then rest else String c rest)).1)).
    { unfold tunnel.parseTunnelID.
      destruct (Ascii.eqb c "$"); by destruct (Parse _). }
    split; [exact Hbuilt|]. intros Hlen.
    assert (Hbytes :
      relay.tid_bytes (tunnel.parseTunnelID Parse (String c rest))
      = (Parse (if Ascii.eqb c "$" then rest else String c rest)).1).
    { rewrite Hbuilt. destruct (Ascii.eqb c "$"); simpl; unfold relay.copy16;
        by rewrite take_app_length' by done. }
    split.
    + unfold relay.IsZero. rewrite Hbytes. apply all_zero_iff_Nil, Hlen.
    + intros Hnil. rewrite Hbuilt, Hnil. by destruct (Ascii.eqb c "$").
  - intros Hlen. rewrite (Parse_invalid_length _ Hlen). split; [done|].
    unfold tunnel.parseTunnelID.
    destruct (Ascii.eqb c "$") eqn:E; rewrite (Parse_invalid_length _ Hlen);
      split; reflexivity.
Qed.

Lemma parseTunnelID_discards_parse_error_witness :
  (uuid.Parse "not-a-uuid").2 ≠ None ∧
  tunnel.parseTunnelID uuid.Parse "$not-a-uuid"
    = relay.mkTunnelID relay.zeroBytes true ∧
  relay.IsZero (tunnel.parseTunnelID uuid.Parse "$not-a-uuid") = true.
Proof.
  apply (proj2 (parseTunnelID_discards_parse_error "$" "not-a-uuid")).
  simpl. apply (bool_decide_unpack _). vm_compute. exact I.
Defined.

(** ** Sanity checks of the models on the scenarios *)

(** The first [Close] closes the session of the connector present and then
    the channel; the connector added afterwards is not closed by the second
    [Close]. *)
Example calls_mixed_trace :
  mux.trace (Calls.run Examples.calls_mixed
               (Tunnel.NewTunnel 15 "node" Examples.T1 0, Examples.store0)).2
  = [mux.EvSessionClose 1%nat;
     mux.EvChanClose "11111111-1111-1111-1111-111111111111"].
Proof. reflexivity. Qed.

(** Scenario S4: whatever the draw, the weight-255 connector is selected. *)
Example S4_selects_max_weight :
  map (λ r, Connector.addr <$>
              Tunnel.GetConnector Examples.tunnel_S4 Examples.store0 "tcp" r)
      [0; 1; 2; 254; 255; 256; 1000]
  = replicate 7 (Some 2%nat).
Proof. reflexivity. Qed.

(** The textual form of a tunnel ID parses back to the ID. *)
Example T1_round_trip :
  tunnel.parseTunnelID uuid.Parse (relay.String Examples.T1) = Examples.T1 ∧
  tunnel.parseTunnelID uuid.Parse
    ("$" +:+ relay.String Examples.T1)
  = relay.NewPrivateTunnelID (relay.tid_bytes Examples.T1).
Proof. split; reflexivity. Qed.

(** Scenario S6 against a handler without authenticator: the BIND is
    dispatched. *)
Example S6_without_auther_dispatches :
  tunnelHandler.err
    (Examples.handle
       (tunnelHandler.mkHandler "node"
          (tunnelHandler.mkHandlerOptions None None false "svc")
          (tunnelHandler.mkMetadata 0 0))
       Examples.req_S6) = None.
Proof. reflexivity. Qed.

(** * Further properties of the tunnel package *)

(** ** The loop of [GetConnector] computes the selection set *)

Section SelectionFacts.
Variables (st : mux.Store) (network : string).

Lemma eligible_spec (c : Connector.ptr) :
  Tunnel.eligible st network c = true ↔
  ∃ c', c = Some c' ∧ Connector.IsClosed (Some c') st = false ∧
        relay.IsUDP (Connector.id c') = bool_decide (network = "udp").
Proof.
  destruct c as [c'|]; simpl.
  - rewrite andb_true_iff, negb_true_iff, network_matches_spec. split.
    + intros [Hlive Hm]. by exists c'.
    + by intros (c'' & [= <-] & Hlive & Hm).
  - split; [done|]. by intros (c' & Hc & _).
Qed.

Lemma selection_set_snoc (cs : list Connector.ptr) (c : Connector.ptr) :
  Tunnel.selection_set st network (cs ++ [c])
  = if Tunnel.eligible st network c then
      match List.filter Tunnel.has_max_weight
              (List.filter (Tunnel.eligible st network) cs) with
      | [] => if Tunnel.has_max_weight c then [Tunnel.weighted c]
              else Tunnel.selection_set st network cs ++ [Tunnel.weighted c]
      | _ => if Tunnel.has_max_weight c
             then Tunnel.selection_set st network cs ++ [Tunnel.weighted c]
             else Tunnel.selection_set st network cs
      end
    else Tunnel.selection_set st network cs.
Proof.
  unfold Tunnel.selection_set. rewrite List.filter_app. simpl.
  destruct (Tunnel.eligible st network c); simpl;
    rewrite List.filter_app; simpl; [|by rewrite !app_nil_r].
  destruct (Tunnel.has_max_weight c); simpl;
    destruct (List.filter Tunnel.has_max_weight
                (List.filter (Tunnel.eligible st network) cs)) as [|x top];
    simpl; rewrite ?app_nil_r, ?fmap_app; done.
Qed.

Lemma found_snoc (cs : list Connector.ptr) (c : Connector.ptr) :
  match List.filter Tunnel.has_max_weight
          (List.filter (Tunnel.eligible st network) (cs ++ [c])) with
  | [] => false
  | _ => true
  end
  = match List.filter Tunnel.has_max_weight
            (List.filter (Tunnel.eligible st network) cs) with
    | [] => Tunnel.eligible st network c && Tunnel.has_max_weight c
    | _ => true
    end.
Proof.
  rewrite List.filter_app. simpl.
  destruct (Tunnel.eligible st network c); simpl;
    rewrite List.filter_app; simpl; [|by rewrite !app_nil_r].
  destruct (Tunnel.has_max_weight c); simpl;
    destruct (List.filter Tunnel.has_max_weight
                (List.filter (Tunnel.eligible st network) cs)) as [|x top];
    simpl; rewrite ?app_nil_r; done.
Qed.

(** After the loop the selector holds the selection set, [sum] is its
    total, and [found] tells whether a weight-255 connector is eligible. *)
Lemma select_fold_selection_set (cs : list Connector.ptr) :
  fold_left (Tunnel.select_step st network) cs
            (selector.NewRandomWeighted, false)
  = (selector.mkRW (Tunnel.selection_set st network cs)
       (selector.total (Tunnel.selection_set st network cs)),
     match List.filter Tunnel.has_max_weight
             (List.filter (Tunnel.eligible st network) cs) with
     | [] => false
     | _ => true
     end).
Proof.
  induction cs as [|c cs IH] using rev_ind; [done|].
  rewrite fold_left_app, IH. clear IH. simpl fold_left.
  rewrite selection_set_snoc, found_snoc.
  unfold Tunnel.select_step.
  destruct c as [c'|]; [|done].
  change (Tunnel.eligible st network (Some c')) with
    (negb (Connector.IsClosed (Some c') st)
     && Tunnel.network_matches network c').
  change (Tunnel.has_max_weight (Some c')) with
    (Tunnel.weight_of c' =? Tunnel.MaxWeight).
  change (Tunnel.weighted (Some c')) with (Some c', Tunnel.weight_of c').
  destruct (Connector.IsClosed (Some c') st); [done|]. simpl negb. simpl andb.
  destruct (Tunnel.network_matches network c'); [|done].
  destruct (Tunnel.weight_of c' =? Tunnel.MaxWeight);
    destruct (List.filter Tunnel.has_max_weight
                (List.filter (Tunnel.eligible st network) cs)) as [|x top];
    simpl; unfold selector.Add, selector.Reset; simpl;
    rewrite ?total_app; simpl; try done; f_equal; f_equal; lia.
Qed.

Lemma selection_set_elem (cs : list Connector.ptr) (x : Connector.ptr) (w : Z) :
  (x, w) ∈ Tunnel.selection_set st network cs →
  ∃ c', x = Some c' ∧ x ∈ cs ∧ Tunnel.eligible st network x = true ∧
        w = Tunnel.weight_of c'.
Proof.
  unfold Tunnel.selection_set. intros Hin.
  assert ((x, w) ∈ Tunnel.weighted
            <$> List.filter (Tunnel.eligible st network) cs) as Hin'.
  { destruct (List.filter Tunnel.has_max_weight _) as [|y top] eqn:E; [done|].
    rewrite <- E in Hin. apply list_elem_of_fmap in Hin as (z & Hz & Hin).
    apply list_elem_of_fmap. exists z. split; [done|].
    apply list_elem_of_In, List.filter_In in Hin as [Hin _].
    by apply list_elem_of_In. }
  apply list_elem_of_fmap in Hin' as (z & Hz & Hin').
  apply list_elem_of_In, List.filter_In in Hin' as [Hin' Hel].
  apply list_elem_of_In in Hin'. destruct z as [c'|]; [|done].
  injection Hz as -> ->. by exists c'.
Qed.

Lemma selection_set_nil (cs : list Connector.ptr) :
  Tunnel.selection_set st network cs = [] ↔
  ∀ c, c ∈ cs → Tunnel.eligible st network c = false.
Proof.
  unfold Tunnel.selection_set. split.
  - intros Hnil c Hc. destruct (Tunnel.eligible st network c) eqn:Hel; [|done].
    assert (c ∈ List.filter (Tunnel.eligible st network) cs) as Hin.
    { apply list_elem_of_In, List.filter_In. split; [|done].
      by apply list_elem_of_In. }
    destruct (List.filter Tunnel.has_max_weight _) as [|y top] eqn:E.
    + apply fmap_nil_inv in Hnil. rewrite Hnil in Hin.
      by apply elem_of_nil in Hin.
    + by apply fmap_nil_inv in Hnil.
  - intros Hall.
    assert (List.filter (Tunnel.eligible st network) cs = []) as ->; [|done].
    destruct (List.filter _ cs) as [|c l] eqn:E; [done|].
    assert (c ∈ List.filter (Tunnel.eligible st network) cs) as Hin
      by (rewrite E; left).
    apply list_elem_of_In, List.filter_In in Hin as [Hin Hel].
    apply list_elem_of_In in Hin. by rewrite (Hall c Hin) in Hel.
Qed.

(** For a list that does not have exactly one element, [GetConnector] is
    [Next] on the selection set. *)
Lemma GetConnector_Next_selection_set (t : Tunnel.Tunnel) (r : Z) :
  length (Tunnel.connectors t) ≠ 1%nat →
  Tunnel.GetConnector t st network r
  = selector.Next None
      (selector.mkRW (Tunnel.selection_set st network (Tunnel.connectors t))
         (selector.total
            (Tunnel.selection_set st network (Tunnel.connectors t)))) r.
Proof.
  intros Hlen. unfold Tunnel.GetConnector.
  destruct (Nat.eqb_spec (length (Tunnel.connectors t)) 1); [done|].
  by rewrite select_fold_selection_set.
Qed.
End SelectionFacts.

(** A ticket inside the interval of an item picks that item. *)
Lemma pick_interval {T : Type} (l1 l2 : list (T * Z)) (x : T) (w ticket : Z) :
  (∀ y wy, (y, wy) ∈ l1 → 1 ≤ wy) →
  selector.total l1 < ticket ≤ selector.total l1 + w →
  selector.pick (l1 ++ (x, w) :: l2) ticket = Some x.
Proof.
  revert ticket. induction l1 as [|[y wy] l1 IH]; intros ticket Hw Ht; simpl in *.
  - destruct (Z.leb_spec (ticket - w) 0); [done|lia].
  - assert (∀ y' wy', (y', wy') ∈ l1 → 1 ≤ wy') as Hw'.
    { intros y' wy' Hy'. apply (Hw y' wy'). by right. }
    pose proof (total_lower_bound l1 Hw').
    destruct (Z.leb_spec (ticket - wy) 0); [lia|].
    apply IH; [done|lia].
Qed.

(** X1: when the list does not have exactly one element, [GetConnector]
    returns a connector exactly when some connector of the list is live and
    of the requested network; it returns nil exactly when none is. *)
Theorem GetConnector_nil_iff_none_eligible
    (t : Tunnel.Tunnel) (st : mux.Store) (network : string) (r : Z) :
  length (Tunnel.connectors t) ≠ 1%nat →
  (Tunnel.GetConnector t st network r ≠ None ↔
   ∃ c, Some c ∈ Tunnel.connectors t ∧
        Connector.IsClosed (Some c) st = false ∧
        relay.IsUDP (Connector.id c) = bool_decide (network = "udp")).
Proof.
  intros Hlen. rewrite (GetConnector_Next_selection_set st network t r Hlen).
  split.
  - intros Hsome.
    destruct (Next_zero_or_item None
                (selector.mkRW
                   (Tunnel.selection_set st network (Tunnel.connectors t))
                   (selector.total
                      (Tunnel.selection_set st network (Tunnel.connectors t))))
                r) as [Hnil|[w Hw]]; [done|].
    simpl in Hw.
    apply selection_set_elem in Hw as (c' & Hc & Hin & Hel & _).
    rewrite Hc in Hin, Hel.
    apply eligible_spec in Hel as (c'' & [= <-] & Hlive & Hudp).
    by exists c'.
  - intros (c & Hin & Hlive & Hudp).
    assert (Tunnel.selection_set st network (Tunnel.connectors t) ≠ []) as Hne.
    { intros Hnil.
      pose proof (proj1 (selection_set_nil st network _) Hnil (Some c) Hin) as Hel.
      assert (Tunnel.eligible st network (Some c) = true) as Hel'.
      { apply eligible_spec. by exists c. }
      congruence. }
    destruct (Next_item None
                (selector.mkRW
                   (Tunnel.selection_set st network (Tunnel.connectors t))
                   (selector.total
                      (Tunnel.selection_set st network (Tunnel.connectors t))))
                r Hne) as [w Hw]; [|done|].
    { simpl. intros x wx Hx.
      apply selection_set_elem in Hx as (c' & _ & _ & _ & ->).
      apply weight_of_bounds. }
    simpl in Hw. apply selection_set_elem in Hw as (c' & Hc & _).
    by rewrite Hc.
Qed.

Lemma GetConnector_nil_iff_none_eligible_witness :
  Tunnel.GetConnector Scenarios.tunnel_weights Scenarios.store_2_closed "tcp" 3
    ≠ None ↔
  ∃ c, Some c ∈ Tunnel.connectors Scenarios.tunnel_weights ∧
       Connector.IsClosed (Some c) Scenarios.store_2_closed = false ∧
       relay.IsUDP (Connector.id c) = bool_decide ("tcp" = "udp").
Proof.
  apply (GetConnector_nil_iff_none_eligible Scenarios.tunnel_weights
           Scenarios.store_2_closed "tcp" 3).
  simpl. lia.
Defined.

(** Counting the elements that pass a test depends only on the test's
    values on the list. *)
Lemma count_ext {A : Type} (f g : A → bool) (l : list A) :
  (∀ x, x ∈ l → f x = g x) →
  length (List.filter f l) = length (List.filter g l).
Proof.
  induction l as [|a l IH]; intros Hfg; [done|]. simpl.
  rewrite (Hfg a) by left.
  assert (length (List.filter f l) = length (List.filter g l)) as Hl.
  { apply IH. intros x Hx. apply Hfg. by right. }
  destruct (g a); simpl; by rewrite Hl.
Qed.

Lemma count_const {A : Type} (b : bool) (l : list A) :
  length (List.filter (λ _, b) l) = if b then length l else 0%nat.
Proof. induction l as [|a l IH]; destruct b; simpl in *; congruence. Qed.

(** Of the tickets 1 to the total weight, as many pick an item with a given
    property as the items with it weigh together. The tickets are written
    as [r - s] for [r] from [s + 1]. *)
Lemma pick_share {T : Type} (Q : option T → bool) (l : list (T * Z)) (s : Z) :
  (∀ y wy, (y, wy) ∈ l → 1 ≤ wy) →
  Z.of_nat (length (List.filter (λ r, Q (selector.pick l (r - s)))
                      (seqZ (s + 1) (selector.total l))))
  = selector.total (List.filter (λ i, Q (Some i.1)) l).
Proof.
  revert s. induction l as [|[x w] l IH]; intros s Hw; [done|].
  assert (∀ y wy, (y, wy) ∈ l → 1 ≤ wy) as Hw'.
  { intros y wy Hy. apply (Hw y wy). by right. }
  pose proof (total_lower_bound l Hw') as Hl.
  pose proof (Hw x w ltac:(left)) as Hx.
  change (selector.total ((x, w) :: l)) with (w + selector.total l).
  rewrite seqZ_app by lia. rewrite List.filter_app, length_app, Nat2Z.inj_add.
  rewrite (count_ext _ (λ _, Q (Some x)) (seqZ (s + 1) w)).
  2:{ intros r Hr. apply elem_of_seqZ in Hr. simpl.
      destruct (Z.leb_spec (r - s - w) 0); [done|lia]. }
  rewrite (count_ext _ (λ r, Q (selector.pick l (r - (s + w))))
             (seqZ (s + 1 + w) (selector.total l))).
  2:{ intros r Hr. apply elem_of_seqZ in Hr. simpl.
      destruct (Z.leb_spec (r - s - w) 0); [lia|].
      by replace (r - s - w) with (r - (s + w)) by lia. }
  replace (s + 1 + w) with (s + w + 1) by lia. rewrite (IH (s + w) Hw').
  rewrite count_const, length_seqZ. simpl List.filter.
  destruct (Q (Some x)).
  - change (selector.total ((x, w) :: ?l')) with (w + selector.total l'). lia.
  - simpl. lia.
Qed.

(** X2: selection is proportional to weight: when the list does not have
    exactly one element, then for every property of connectors, of the
    draws from 0 up to the total weight of the selection set as many return
    a connector with the property as the entries of the selection set with
    it weigh together; and a draw counts only modulo the total weight. *)
Theorem GetConnector_weighted_share
    (t : Tunnel.Tunnel) (st : mux.Store) (network : string)
    (P : Connector.ptr → bool) (r : Z) :
  length (Tunnel.connectors t) ≠ 1%nat →
  let set := Tunnel.selection_set st network (Tunnel.connectors t) in
  Z.of_nat (length (List.filter (λ r, P (Tunnel.GetConnector t st network r))
                      (seqZ 0 (selector.total set))))
  = selector.total (List.filter (λ i, P i.1) set) ∧
  Tunnel.GetConnector t st network r
  = Tunnel.GetConnector t st network (r mod selector.total set).
Proof.
  intros Hlen set.
  assert (∀ y wy, (y, wy) ∈ set → 1 ≤ wy) as Hw.
  { intros y wy Hy. subst set.
    apply selection_set_elem in Hy as (c' & _ & _ & _ & ->).
    apply weight_of_bounds. }
  pose proof (total_lower_bound set Hw) as Htot.
  assert (∀ r', Tunnel.GetConnector t st network r'
                = selector.Next None (selector.mkRW set (selector.total set)) r')
    as HNext.
  { intros r'. by rewrite (GetConnector_Next_selection_set st network t r' Hlen). }
  split.
  - pose (Q := λ o : option Connector.ptr,
                 P (match o with
                    | Some x => x
                    | None => default None (fst <$> last set)
                    end)).
    rewrite (count_ext _ (λ r', Q (selector.pick set (r' - (-1))))).
    + exact (pick_share Q set (-1) Hw).
    + intros r' Hr. subst Q. cbn beta. apply elem_of_seqZ in Hr. rewrite HNext.
      unfold selector.Next. simpl selector.items. simpl selector.sum.
      destruct set as [|i l] eqn:E; [simpl in Hr; lia|].
      destruct (Z.leb_spec (selector.total (i :: l)) 0) as [Hle|_]; [lia|].
      rewrite Z.mod_small by lia.
      by replace (r' - -1) with (r' + 1) by lia.
  - rewrite !HNext. unfold selector.Next. simpl selector.items.
    simpl selector.sum. destruct set as [|i l] eqn:E; [done|].
    destruct (Z.leb_spec (selector.total (i :: l)) 0) as [|Hpos]; [done|].
    by rewrite Z.mod_mod by lia.
Qed.

Lemma GetConnector_weighted_share_witness :
  let heavy (c : Connector.ptr) :=
    match c with
    | Some c => relay.Weight (Connector.id c) =? 3
    | None => false
    end in
  let set := Tunnel.selection_set Examples.store0 "tcp"
               (Tunnel.connectors Scenarios.tunnel_weights) in
  Z.of_nat (length (List.filter
                      (λ r, heavy (Tunnel.GetConnector Scenarios.tunnel_weights
                                     Examples.store0 "tcp" r))
                      (seqZ 0 (selector.total set))))
  = selector.total (List.filter (λ i, heavy i.1) set) ∧
  Tunnel.GetConnector Scenarios.tunnel_weights Examples.store0 "tcp" 13
  = Tunnel.GetConnector Scenarios.tunnel_weights Examples.store0 "tcp"
      (13 mod selector.total set).
Proof.
  apply (GetConnector_weighted_share Scenarios.tunnel_weights Examples.store0
           "tcp"
           (λ c, match c with
                 | Some c => relay.Weight (Connector.id c) =? 3
                 | None => false
                 end) 13).
  simpl. lia.
Defined.

(** X3: the loop of [GetConnector] leaves in the selector exactly the
    selection set: the live connectors of the requested network in list
    order, only those of weight 255 when one of them has that weight, each
    with its weight (0 counted as 1); [sum] is their total weight and
    [found] tells whether a weight-255 connector was among them. *)
Theorem GetConnector_loop_computes_selection_set
    (st : mux.Store) (network : string) (cs : list Connector.ptr) :
  fold_left (Tunnel.select_step st network) cs
            (selector.NewRandomWeighted, false)
  = (selector.mkRW (Tunnel.selection_set st network cs)
       (selector.total (Tunnel.selection_set st network cs)),
     match List.filter Tunnel.has_max_weight
             (List.filter (Tunnel.eligible st network) cs) with
     | [] => false
     | _ => true
     end).
Proof. apply select_fold_selection_set. Qed.

(** ** Closing a tunnel *)

Lemma IsClosed_mono (c : Connector.ptr) (st st' : mux.Store) :
  mux.closed st ⊆ mux.closed st' →
  Connector.IsClosed c st = true → Connector.IsClosed c st' = true.
Proof.
  intros Hsub. destruct c as [c|]; [|done]. simpl.
  destruct (Connector.s c) as [sess|]; [|done]. unfold mux.IsClosed.
  rewrite !bool_decide_eq_true. set_solver.
Qed.

Lemma Connector_Close_closed (c : Connector.ptr) (st : mux.Store) :
  mux.closed st ⊆ mux.closed (Connector.Close c st).1 ∧
  Connector.IsClosed c (Connector.Close c st).1 = true.
Proof.
  destruct c as [c|]; [|done]. simpl.
  destruct (Connector.s c) as [sess|]; [|done]. simpl. split; [set_solver|].
  unfold mux.IsClosed. simpl. rewrite bool_decide_eq_true. set_solver.
Qed.

Lemma close_connectors_closed (cs : list Connector.ptr) (st : mux.Store) :
  mux.closed st ⊆ mux.closed (Tunnel.close_connectors cs st) ∧
  ∀ c, c ∈ cs → Connector.IsClosed c (Tunnel.close_connectors cs st) = true.
Proof.
  revert st. induction cs as [|c cs IH]; intros st.
  - split; [done|]. intros c Hc. by apply elem_of_nil in Hc.
  - unfold Tunnel.close_connectors in *. simpl fold_left.
    destruct (Connector_Close_closed c st) as [Hsub Hc].
    destruct (IH (Connector.Close c st).1) as [Hsub' Hall].
    split; [by etrans|].
    intros c' [->|Hin]%elem_of_cons; [|by apply Hall].
    by apply (IsClosed_mono _ _ _ Hsub').
Qed.

(** Nothing is selected from a list of closed connectors. *)
Lemma selection_set_all_closed (st : mux.Store) (network : string)
    (cs : list Connector.ptr) :
  (∀ c, c ∈ cs → Connector.IsClosed c st = true) →
  Tunnel.selection_set st network cs = [].
Proof.
  intros Hall. apply selection_set_nil. intros c Hc.
  destruct c as [c'|]; [|done]. simpl.
  pose proof (Hall (Some c') Hc) as Hclosed. simpl in Hclosed.
  by rewrite Hclosed.
Qed.

(** X4: [Close] on a tunnel whose channel is open closes the session of
    every connector of the list. Afterwards [GetConnector] returns nil when
    the list does not have exactly one element, and still returns the sole
    connector, now closed, when it has one. *)
Theorem Close_closes_every_connector (t : Tunnel.Tunnel) (st : mux.Store) :
  Tunnel.close t = Tunnel.ChanOpen →
  let t' := (Tunnel.Close t st).1.1 in
  let st' := (Tunnel.Close t st).1.2 in
  Tunnel.connectors t' = Tunnel.connectors t ∧
  (∀ c, c ∈ Tunnel.connectors t → Connector.IsClosed c st' = true) ∧
  (∀ network r, length (Tunnel.connectors t) ≠ 1%nat →
     Tunnel.GetConnector t' st' network r = None) ∧
  (∀ c network r, Tunnel.connectors t = [c] →
     Tunnel.GetConnector t' st' network r = c ∧
     Connector.IsClosed c st' = true).
Proof.
  intros Hopen t' st'. subst t' st'. unfold Tunnel.Close. rewrite Hopen.
  simpl.
  destruct (close_connectors_closed (Tunnel.connectors t) st) as [_ Hall].
  assert (∀ c, c ∈ Tunnel.connectors t →
            Connector.IsClosed c
              (mux.mkStore
                 (mux.closed (Tunnel.close_connectors (Tunnel.connectors t) st))
                 (mux.streams (Tunnel.close_connectors (Tunnel.connectors t) st))
                 (mux.trace (Tunnel.close_connectors (Tunnel.connectors t) st)
                  ++ [mux.EvChanClose (relay.String (Tunnel.id t))]))
            = true) as Hall'.
  { intros c Hc. apply (IsClosed_mono c _ _ (reflexivity _)), Hall, Hc. }
  split; [done|]. split; [done|]. split.
  - intros network r Hlen.
    rewrite GetConnector_Next_selection_set by done. simpl.
    by rewrite selection_set_all_closed.
  - intros c network r Hc. split.
    + unfold Tunnel.GetConnector. simpl. by rewrite Hc.
    + apply Hall'. rewrite Hc. left.
Qed.

Lemma Close_closes_every_connector_witness :
  let t' := (Tunnel.Close Examples.tunnel_S4 Examples.store0).1.1 in
  let st' := (Tunnel.Close Examples.tunnel_S4 Examples.store0).1.2 in
  Tunnel.connectors t' = Tunnel.connectors Examples.tunnel_S4 ∧
  (∀ c, c ∈ Tunnel.connectors Examples.tunnel_S4 →
        Connector.IsClosed c st' = true) ∧
  (∀ network r, length (Tunnel.connectors Examples.tunnel_S4) ≠ 1%nat →
     Tunnel.GetConnector t' st' network r = None) ∧
  (∀ c network r, Tunnel.connectors Examples.tunnel_S4 = [c] →
     Tunnel.GetConnector t' st' network r = c ∧
     Connector.IsClosed c st' = true).
Proof.
  apply (Close_closes_every_connector Examples.tunnel_S4 Examples.store0).
  reflexivity.
Defined.

(** ** The reaper tick *)

Lemma filter_length_eq {A : Type} (f : A → bool) (l : list A) :
  length (List.filter f l) = length l → List.filter f l = l.
Proof.
  induction l as [|x l IH]; [done|]. simpl.
  pose proof (List.filter_length_le f l).
  destruct (f x); simpl; intros Hlen; [|lia].
  f_equal. apply IH. lia.
Qed.

Lemma clean_loop_spec (t : Tunnel.Tunnel) (st : mux.Store)
    (cs survivors : list Connector.ptr) (calls : list Tunnel.SDCall) :
  (∀ c, c ∈ cs → c ≠ None) →
  Tunnel.clean_loop t st cs survivors calls
  = Some (survivors ++ List.filter (λ c, negb (Connector.IsClosed c st)) cs,
          calls ++
          if Tunnel.sd t then
            omap (λ c : Connector.ptr,
                    (λ c', if Connector.IsClosed c st
                           then Tunnel.Deregister (Connector.id c')
                                  (Tunnel.id t) (Tunnel.node t)
                           else Tunnel.Renew (Connector.id c')
                                  (Tunnel.id t) (Tunnel.node t)) <$> c) cs
          else []).
Proof.
  revert survivors calls. induction cs as [|c cs IH]; intros survivors calls Hnn.
  - simpl. destruct (Tunnel.sd t); by rewrite !app_nil_r.
  - assert (∀ c', c' ∈ cs → c' ≠ None) as Hnn'.
    { intros c' Hc'. apply Hnn. by right. }
    destruct c as [c'|]; [|by destruct (Hnn None (list_elem_of_here _ _))].
    cbn [Tunnel.clean_loop List.filter omap list_omap fmap option_fmap
         option_map].
    destruct (Connector.IsClosed (Some c') st) eqn:Hc; cbn [negb];
      rewrite IH by done; destruct (Tunnel.sd t);
      by rewrite <- ?app_assoc, ?app_nil_r.
Qed.

(** A nil entry makes the loop dereference nil. *)
Lemma clean_loop_nil_entry (t : Tunnel.Tunnel) (st : mux.Store)
    (cs survivors : list Connector.ptr) (calls : list Tunnel.SDCall) :
  None ∈ cs → Tunnel.clean_loop t st cs survivors calls = None.
Proof.
  revert survivors calls. induction cs as [|c cs IH]; intros survivors calls Hin.
  - by apply elem_of_nil in Hin.
  - cbn [Tunnel.clean_loop]. destruct c as [c'|]; [|done].
    apply elem_of_cons in Hin as [[=]|Hin].
    destruct (Connector.IsClosed (Some c') st); by apply IH.
Qed.

(** The tick on a list without nil entries, in full. *)
Lemma clean_tick_keeps_live_connectors_aux (t : Tunnel.Tunnel) (st : mux.Store) :
  (∀ c, c ∈ Tunnel.connectors t → c ≠ None) →
  ∃ t' calls,
    Tunnel.clean_tick t st = Some (t', calls) ∧
    Tunnel.connectors t'
      = List.filter (λ c, negb (Connector.IsClosed c st)) (Tunnel.connectors t) ∧
    (∀ c, c ∈ Tunnel.connectors t' → Connector.IsClosed c st = false) ∧
    (Tunnel.node t', Tunnel.id t', Tunnel.close t', Tunnel.sd t', Tunnel.ttl t')
      = (Tunnel.node t, Tunnel.id t, Tunnel.close t, Tunnel.sd t, Tunnel.ttl t) ∧
    calls
      = if Tunnel.sd t then
          omap (λ c : Connector.ptr,
                  (λ c', if Connector.IsClosed c st
                         then Tunnel.Deregister (Connector.id c')
                                (Tunnel.id t) (Tunnel.node t)
                         else Tunnel.Renew (Connector.id c')
                                (Tunnel.id t) (Tunnel.node t)) <$> c)
               (Tunnel.connectors t)
        else [].
Proof.
  intros Hnn. unfold Tunnel.clean_tick.
  assert (∀ l, ∀ c, c ∈ List.filter (λ c, negb (Connector.IsClosed c st)) l →
               Connector.IsClosed c st = false) as Hlive.
  { intros l c Hc. apply list_elem_of_In, List.filter_In in Hc as [_ Hc].
    by apply negb_true_iff in Hc. }
  destruct (Tunnel.connectors t) as [|c0 cs] eqn:E.
  - exists t, []. rewrite E. repeat split; try done.
    + intros c Hc. by apply elem_of_nil in Hc.
    + by destruct (Tunnel.sd t).
  - rewrite <- E in *. rewrite (clean_loop_spec t st _ [] [] Hnn). simpl app.
    destruct (Nat.eqb_spec
                (length (List.filter (λ c, negb (Connector.IsClosed c st))
                           (Tunnel.connectors t)))
                (length (Tunnel.connectors t))) as [Heq|Hne]; simpl negb;
      cbv iota.
    + rewrite E. rewrite <- E. eexists _, _. split; [reflexivity|].
      rewrite (filter_length_eq _ _ Heq) at 1. split; [done|].
      split; [|done]. intros c Hc. apply (Hlive (Tunnel.connectors t)).
      by rewrite (filter_length_eq _ _ Heq).
    + rewrite E. rewrite <- E. eexists _, _. split; [reflexivity|]. simpl.
      split; [done|]. split; [|done]. apply Hlive.
Qed.

(** X5: one tick of the reaper on a list without nil entries keeps exactly
    the connectors that are not closed, in their order, and changes nothing
    else of the tunnel; with a registry configured it makes one call per
    connector, Deregister for a closed one and Renew for a survivor, and
    without a registry it makes none. *)
Theorem clean_tick_keeps_live_connectors (t : Tunnel.Tunnel) (st : mux.Store) :
  (∀ c, c ∈ Tunnel.connectors t → c ≠ None) →
  ∃ t' calls,
    Tunnel.clean_tick t st = Some (t', calls) ∧
    Tunnel.connectors t'
      = List.filter (λ c, negb (Connector.IsClosed c st)) (Tunnel.connectors t) ∧
    (∀ c, c ∈ Tunnel.connectors t' → Connector.IsClosed c st = false) ∧
    (Tunnel.node t', Tunnel.id t', Tunnel.close t', Tunnel.sd t', Tunnel.ttl t')
      = (Tunnel.node t, Tunnel.id t, Tunnel.close t, Tunnel.sd t, Tunnel.ttl t) ∧
    calls
      = if Tunnel.sd t then
          omap (λ c : Connector.ptr,
                  (λ c', if Connector.IsClosed c st
                         then Tunnel.Deregister (Connector.id c')
                                (Tunnel.id t) (Tunnel.node t)
                         else Tunnel.Renew (Connector.id c')
                                (Tunnel.id t) (Tunnel.node t)) <$> c)
               (Tunnel.connectors t)
        else [].
Proof. apply clean_tick_keeps_live_connectors_aux. Qed.

Lemma clean_tick_keeps_live_connectors_witness :
  ∃ t' calls,
    Tunnel.clean_tick Scenarios.tunnel_weights Scenarios.store_2_closed
      = Some (t', calls) ∧
    Tunnel.connectors t'
      = List.filter
          (λ c, negb (Connector.IsClosed c Scenarios.store_2_closed))
          (Tunnel.connectors Scenarios.tunnel_weights) ∧
    (∀ c, c ∈ Tunnel.connectors t' →
          Connector.IsClosed c Scenarios.store_2_closed = false) ∧
    (Tunnel.node t', Tunnel.id t', Tunnel.close t', Tunnel.sd t', Tunnel.ttl t')
      = (Tunnel.node Scenarios.tunnel_weights, Tunnel.id Scenarios.tunnel_weights,
         Tunnel.close Scenarios.tunnel_weights, Tunnel.sd Scenarios.tunnel_weights,
         Tunnel.ttl Scenarios.tunnel_weights) ∧
    calls
      = if Tunnel.sd Scenarios.tunnel_weights then
          omap (λ c : Connector.ptr,
                  (λ c', if Connector.IsClosed c Scenarios.store_2_closed
                         then Tunnel.Deregister (Connector.id c')
                                (Tunnel.id Scenarios.tunnel_weights)
                                (Tunnel.node Scenarios.tunnel_weights)
                         else Tunnel.Renew (Connector.id c')
                                (Tunnel.id Scenarios.tunnel_weights)
                                (Tunnel.node Scenarios.tunnel_weights)) <$> c)
               (Tunnel.connectors Scenarios.tunnel_weights)
        else [].
Proof.
  apply (clean_tick_keeps_live_connectors Scenarios.tunnel_weights
           Scenarios.store_2_closed).
  intros c Hc. simpl in Hc.
  repeat (apply elem_of_cons in Hc as [->|Hc]; [discriminate|]).
  by apply elem_of_nil in Hc.
Defined.

(** X6: right after a reaper tick, and for the sessions as the tick saw
    them, [GetConnector] cannot return a closed connector, not even through
    its single-connector shortcut; and a second tick leaves the tunnel as
    the first left it. *)
Theorem clean_tick_then_GetConnector_live
    (t t' : Tunnel.Tunnel) (st : mux.Store) (calls : list Tunnel.SDCall) :
  Tunnel.clean_tick t st = Some (t', calls) →
  (∀ network r c, Tunnel.GetConnector t' st network r = Some c →
                  Connector.IsClosed (Some c) st = false) ∧
  ∃ calls', Tunnel.clean_tick t' st = Some (t', calls').
Proof.
  intros Htick.
  assert (∀ c, c ∈ Tunnel.connectors t → c ≠ None) as Hnn.
  { intros c Hc ->. unfold Tunnel.clean_tick in Htick.
    destruct (Tunnel.connectors t) as [|c0 cs] eqn:E;
      [by apply elem_of_nil in Hc|].
    by rewrite (clean_loop_nil_entry t st _ [] [] Hc) in Htick. }
  destruct (clean_tick_keeps_live_connectors_aux t st Hnn)
    as (t1 & calls1 & Ht1 & Hcs & Hlive & Hfields & _).
  rewrite Htick in Ht1. injection Ht1 as <- <-.
  assert (∀ c, c ∈ Tunnel.connectors t' → c ≠ None) as Hnn'.
  { intros c Hc ->. by pose proof (Hlive None Hc). }
  split.
  - intros network r c Hget.
    destruct (decide (length (Tunnel.connectors t') = 1%nat)) as [Hone|Hlen].
    + unfold Tunnel.GetConnector in Hget. rewrite Hone in Hget. simpl in Hget.
      destruct (Tunnel.connectors t') as [|c0 [|]] eqn:E; try done.
      simpl in Hget. subst c0. apply Hlive. left.
    + rewrite GetConnector_Next_selection_set in Hget by done.
      destruct (Next_zero_or_item None
                  (selector.mkRW
                     (Tunnel.selection_set st network (Tunnel.connectors t'))
                     (selector.total
                        (Tunnel.selection_set st network (Tunnel.connectors t'))))
                  r) as [Hnil|[w Hw]]; [congruence|].
      rewrite Hget in Hw. simpl in Hw.
      apply selection_set_elem in Hw as (c' & _ & Hin & _). by apply Hlive.
  - destruct (clean_tick_keeps_live_connectors_aux t' st Hnn')
      as (t2 & calls2 & Ht2 & Hcs2 & _ & Hfields2 & _).
    exists calls2. rewrite Ht2. f_equal. f_equal.
    assert (Tunnel.connectors t2 = Tunnel.connectors t') as Hsame.
    { rewrite Hcs2. apply filter_length_eq. f_equal.
      clear -Hlive. induction (Tunnel.connectors t') as [|c l IH]; [done|].
      simpl. rewrite (Hlive c) by left. simpl. f_equal. apply IH.
      intros c' Hc'. apply Hlive. by right. }
    destruct t2, t'. simpl in *. clear Ht2 Hcs2.
    injection Hfields2 as -> -> -> -> ->. by rewrite Hsame.
Qed.

Lemma clean_tick_then_GetConnector_live_witness :
  (∀ network r c,
     Tunnel.GetConnector Scenarios.tunnel_weights_reaped
       Scenarios.store_2_closed network r = Some c →
     Connector.IsClosed (Some c) Scenarios.store_2_closed = false) ∧
  ∃ calls', Tunnel.clean_tick Scenarios.tunnel_weights_reaped
              Scenarios.store_2_closed
            = Some (Scenarios.tunnel_weights_reaped, calls').
Proof.
  apply (clean_tick_then_GetConnector_live Scenarios.tunnel_weights
           Scenarios.tunnel_weights_reaped Scenarios.store_2_closed []).
  reflexivity.
Defined.

Lemma added_not_nil (ops : list Calls.Call) (c : Connector.ptr) :
  c ∈ Calls.added ops → c ≠ None.
Proof.
  induction ops as [|[[c'|]|] ops IH]; simpl; try done.
  - intros Hc. by apply elem_of_nil in Hc.
  - intros [->|Hc]%elem_of_cons; [done|by apply IH].
Qed.

(** X7: a tunnel that was built by [NewTunnel] and any sequence of
    [AddConnector] and [Close] calls never holds a nil connector, so the
    reaper tick never dereferences nil on it, whatever the sessions are. *)
Theorem clean_tick_never_dereferences_nil
    (defaultTTL : Z) (node : string) (tid : relay.TunnelID) (ttl : Z)
    (ops : list Calls.Call) (st0 st : mux.Store) :
  let t := (Calls.run ops (Tunnel.NewTunnel defaultTTL node tid ttl, st0)).1 in
  (∀ c, c ∈ Tunnel.connectors t → c ≠ None) ∧
  is_Some (Tunnel.clean_tick t st).
Proof.
  intros t.
  assert (∀ c, c ∈ Tunnel.connectors t → c ≠ None) as Hnn.
  { subst t. rewrite run_connectors. simpl. apply added_not_nil. }
  split; [done|].
  destruct (clean_tick_keeps_live_connectors_aux t st Hnn)
    as (t' & calls & -> & _). by eexists.
Qed.

(** ** Closing an idle tunnel *)

(** X8: [CloseOnIdle] reports true exactly when the channel is open and the
    list is empty, and then closes the channel; it never closes a session
    and never changes the list; once it has reported true, a further
    [CloseOnIdle] reports false and a [Close] does nothing. *)
Theorem CloseOnIdle_only_when_open_and_empty
    (t : Tunnel.Tunnel) (st : mux.Store) :
  let t' := (Tunnel.CloseOnIdle t st).1.1 in
  let st' := (Tunnel.CloseOnIdle t st).1.2 in
  let idle := (Tunnel.CloseOnIdle t st).2 in
  (idle = true ↔ Tunnel.close t = Tunnel.ChanOpen ∧ Tunnel.connectors t = []) ∧
  mux.closed st' = mux.closed st ∧
  Tunnel.connectors t' = Tunnel.connectors t ∧
  (idle = false → t' = t ∧ st' = st) ∧
  (idle = true →
     Tunnel.close t' = Tunnel.ChanClosed ∧
     mux.trace st'
       = mux.trace st ++ [mux.EvChanClose (relay.String (Tunnel.id t))] ∧
     Tunnel.CloseOnIdle t' st' = (t', st', false) ∧
     Tunnel.Close t' st' = (t', st', None)).
Proof.
  unfold Tunnel.CloseOnIdle, Tunnel.Close.
  destruct (Tunnel.close t) eqn:Hc; simpl.
  - destruct (Tunnel.connectors t) as [|c cs] eqn:Hcs; simpl.
    + repeat split; first [done | by rewrite Hcs].
    + rewrite Hc. repeat split; first [done | by intros [_ ?]].
  - rewrite Hc. repeat split; first [done | by intros [? _]].
Qed.

Lemma CloseOnIdle_only_when_open_and_empty_witness :
  (Tunnel.CloseOnIdle Scenarios.tunnel_empty Examples.store0).2 = true ∧
  Tunnel.close (Tunnel.CloseOnIdle Scenarios.tunnel_empty Examples.store0).1.1
  = Tunnel.ChanClosed.
Proof.
  pose proof (CloseOnIdle_only_when_open_and_empty Scenarios.tunnel_empty
                Examples.store0) as (Hiff & _ & _ & _ & Htrue).
  assert ((Tunnel.CloseOnIdle Scenarios.tunnel_empty Examples.store0).2 = true)
    as Hidle by (apply Hiff; split; reflexivity).
  split; [exact Hidle | apply (Htrue Hidle)].
Defined.

(** * Further properties of the connector pool *)

(** X9: registering a connector under a tunnel ID that has no entry and
    then asking for that tunnel returns this connector, for every network
    and every draw, whether or not its session is open. *)
Theorem Add_then_Get_returns_connector
    (defaultTTL : Z) (p : ConnectorPool.ConnectorPool) (tid : relay.TunnelID)
    (c : Connector.Connector) (ttl : Z) (st : mux.Store) (network : string)
    (r : Z) :
  ConnectorPool.tunnels p !! relay.String tid = None →
  ConnectorPool.Get
    (Some (ConnectorPool.Add defaultTTL p tid (Some c) ttl)) st network
    (relay.String tid) r
  = (Some c, Some (ConnectorPool.Add defaultTTL p tid (Some c) ttl)).
Proof.
  intros Hfresh. unfold ConnectorPool.Get, ConnectorPool.Add. simpl.
  by rewrite lookup_insert_eq, Hfresh.
Qed.

Lemma Add_then_Get_returns_connector_witness :
  ConnectorPool.Get
    (Some (ConnectorPool.Add 15 (ConnectorPool.NewConnectorPool "node" false)
             Examples.T1 (Some (Examples.connector 1 true 1)) 0))
    Scenarios.store_2_closed "tcp" (relay.String Examples.T1) 7
  = (Some (Examples.connector 1 true 1),
     Some (ConnectorPool.Add 15 (ConnectorPool.NewConnectorPool "node" false)
             Examples.T1 (Some (Examples.connector 1 true 1)) 0)).
Proof.
  apply (Add_then_Get_returns_connector 15
           (ConnectorPool.NewConnectorPool "node" false) Examples.T1
           (Examples.connector 1 true 1) 0 Scenarios.store_2_closed "tcp" 7).
  reflexivity.
Defined.

(** X10: [Add] touches only the entry of the tunnel ID's string. An
    existing tunnel gets the connector appended and keeps its ttl and its
    channel state, so the [ttl] argument matters for the first [Add] only;
    a missing tunnel is created open, with the pool's registry and the
    node, with [ttl] or the default when [ttl] is not positive. A nil
    connector adds nothing to the list but still creates the entry. *)
Theorem Add_extends_one_tunnel
    (defaultTTL : Z) (p : ConnectorPool.ConnectorPool) (tid : relay.TunnelID)
    (c : Connector.ptr) (ttl : Z) :
  let p' := ConnectorPool.Add defaultTTL p tid c ttl in
  let new := match c with Some _ => [c] | None => [] end in
  (ConnectorPool.node p', ConnectorPool.sd p')
    = (ConnectorPool.node p, ConnectorPool.sd p) ∧
  (∀ k, k ≠ relay.String tid →
        ConnectorPool.tunnels p' !! k = ConnectorPool.tunnels p !! k) ∧
  ∃ t', ConnectorPool.tunnels p' !! relay.String tid = Some t' ∧
    match ConnectorPool.tunnels p !! relay.String tid with
    | Some t =>
      Tunnel.connectors t' = Tunnel.connectors t ++ new ∧
      (Tunnel.node t', Tunnel.id t', Tunnel.close t', Tunnel.sd t', Tunnel.ttl t')
        = (Tunnel.node t, Tunnel.id t, Tunnel.close t, Tunnel.sd t, Tunnel.ttl t)
    | None =>
      Tunnel.connectors t' = new ∧
      (Tunnel.node t', Tunnel.id t', Tunnel.close t', Tunnel.sd t', Tunnel.ttl t')
        = (ConnectorPool.node p, tid, Tunnel.ChanOpen, ConnectorPool.sd p,
           if ttl <=? 0 then defaultTTL else ttl)
    end.
Proof.
  intros p' new. subst p' new. unfold ConnectorPool.Add. simpl.
  split; [done|]. split.
  - intros k Hk. by rewrite lookup_insert_ne.
  - rewrite lookup_insert_eq. eexists. split; [reflexivity|].
    destruct (ConnectorPool.tunnels p !! relay.String tid) as [t|];
      destruct c as [c|]; simpl; by rewrite ?app_nil_r.
Qed.

(** X11: registrations under tunnel IDs with different strings commute:
    the pool is the same whichever of the two [Add] calls came first. *)
Theorem Add_different_tunnels_commute
    (defaultTTL : Z) (p : ConnectorPool.ConnectorPool)
    (tid1 tid2 : relay.TunnelID) (c1 c2 : Connector.ptr) (ttl1 ttl2 : Z) :
  relay.String tid1 ≠ relay.String tid2 →
  ConnectorPool.Add defaultTTL
    (ConnectorPool.Add defaultTTL p tid1 c1 ttl1) tid2 c2 ttl2
  = ConnectorPool.Add defaultTTL
      (ConnectorPool.Add defaultTTL p tid2 c2 ttl2) tid1 c1 ttl1.
Proof.
  intros Hne. unfold ConnectorPool.Add. simpl.
  rewrite !lookup_insert_ne by done. f_equal. by apply insert_insert_ne.
Qed.

Lemma Add_different_tunnels_commute_witness :
  ConnectorPool.Add 15
    (ConnectorPool.Add 15 (ConnectorPool.NewConnectorPool "node" false)
       Examples.T1 (Some (Examples.connector 1 false 1)) 0)
    Scenarios.T2 (Some (Examples.connector 2 false 1)) 30
  = ConnectorPool.Add 15
      (ConnectorPool.Add 15 (ConnectorPool.NewConnectorPool "node" false)
         Scenarios.T2 (Some (Examples.connector 2 false 1)) 30)
      Examples.T1 (Some (Examples.connector 1 false 1)) 0.
Proof.
  apply (Add_different_tunnels_commute 15
           (ConnectorPool.NewConnectorPool "node" false) Examples.T1
           Scenarios.T2 (Some (Examples.connector 1 false 1))
           (Some (Examples.connector 2 false 1)) 0 30).
  vm_compute. discriminate.
Defined.

(** ** Closing the pool and sweeping idle tunnels *)

Lemma Tunnel_Close_store (t : Tunnel.Tunnel) (st : mux.Store) :
  mux.closed st ⊆ mux.closed (Tunnel.Close t st).1.2 ∧
  (Tunnel.close t = Tunnel.ChanOpen →
   ∀ c, c ∈ Tunnel.connectors t →
        Connector.IsClosed c (Tunnel.Close t st).1.2 = true).
Proof.
  unfold Tunnel.Close.
  destruct (close_connectors_closed (Tunnel.connectors t) st) as [Hsub Hall].
  destruct (Tunnel.close t); simpl; [|done]. split; [done|].
  intros _ c Hc. apply (IsClosed_mono c _ _ (reflexivity _)), Hall, Hc.
Qed.

Lemma Close_fold (order : list string) (m : gmap string Tunnel.Tunnel)
    (st : mux.Store) :
  let acc := fold_left ConnectorPool.Close_step order (m, st) in
  (∀ k, acc.1 !! k = if decide (k ∈ order) then None else m !! k) ∧
  mux.closed st ⊆ mux.closed acc.2 ∧
  (∀ k v c, k ∈ order → m !! k = Some v → Tunnel.close v = Tunnel.ChanOpen →
            c ∈ Tunnel.connectors v → Connector.IsClosed c acc.2 = true).
Proof.
  revert m st. induction order as [|k order IH]; intros m st; simpl.
  - repeat split; try done. intros k v c Hk. by apply elem_of_nil in Hk.
  - destruct (m !! k) as [v|] eqn:Hmk.
    + assert (ConnectorPool.Close_step (m, st) k
              = (delete k m, (Tunnel.Close v st).1.2)) as ->
        by (unfold ConnectorPool.Close_step; simpl; by rewrite Hmk).
      destruct (IH (delete k m) (Tunnel.Close v st).1.2) as (Hlook & Hsub & Hall).
      destruct (Tunnel_Close_store v st) as [Hsub1 Hall1].
      split; [|split].
      * intros k'. rewrite Hlook.
        destruct (decide (k' = k)) as [->|Hne].
        -- rewrite lookup_delete_eq. rewrite (decide_True _ _ (list_elem_of_here _ _)).
           by destruct (decide (k ∈ order)).
        -- rewrite lookup_delete_ne by done.
           destruct (decide (k' ∈ order)) as [Hin|Hnin].
           ++ by rewrite decide_True by (by right).
           ++ rewrite decide_False; [done|].
              by intros [?|?]%elem_of_cons.
      * clear -Hsub Hsub1. set_solver.
      * intros k' v' c [->|Hin]%elem_of_cons Hk' Hopen Hc.
        -- rewrite Hmk in Hk'. injection Hk' as <-.
           apply (IsClosed_mono c _ _ Hsub). by apply Hall1.
        -- destruct (decide (k' = k)) as [->|Hne].
           ++ rewrite Hmk in Hk'. injection Hk' as <-.
              apply (IsClosed_mono c _ _ Hsub). by apply Hall1.
           ++ apply (Hall k' v' c Hin); [|done|done].
              by rewrite lookup_delete_ne.
    + assert (ConnectorPool.Close_step (m, st) k = (m, st)) as ->
        by (unfold ConnectorPool.Close_step; simpl; by rewrite Hmk).
      destruct (IH m st) as (Hlook & Hsub & Hall). split; [|split].
      * intros k'. rewrite Hlook.
        destruct (decide (k' ∈ order)) as [Hin|Hnin].
        -- by rewrite decide_True by (by right).
        -- destruct (decide (k' = k)) as [->|Hne].
           ++ by rewrite decide_True by left.
           ++ rewrite decide_False; [done|]. by intros [?|?]%elem_of_cons.
      * done.
      * intros k' v' c [->|Hin]%elem_of_cons Hk' Hopen Hc; [congruence|].
        by apply (Hall k' v' c Hin).
Qed.

(** X12: [Close] of the pool, whatever order the map is walked in, returns
    nil and leaves the map empty; every connector of every tunnel whose
    channel was open has its session closed afterwards, and a later [Get]
    finds nothing. On a nil pool it does nothing. *)
Theorem Pool_Close_empties_and_closes
    (p : ConnectorPool.ConnectorPool) (order : list string) (st : mux.Store) :
  (∀ k, is_Some (ConnectorPool.tunnels p !! k) → k ∈ order) →
  ∃ p' st',
    ConnectorPool.Close (Some p) order st = (Some p', st', None) ∧
    ConnectorPool.tunnels p' = ∅ ∧
    (∀ k v c, ConnectorPool.tunnels p !! k = Some v →
              Tunnel.close v = Tunnel.ChanOpen → c ∈ Tunnel.connectors v →
              Connector.IsClosed c st' = true) ∧
    (∀ network tid r,
       ConnectorPool.Get (Some p') st' network tid r = (None, Some p')) ∧
    ConnectorPool.Close None order st = (None, st, None).
Proof.
  intros Hcover. unfold ConnectorPool.Close.
  pose proof (Close_fold order (ConnectorPool.tunnels p) st) as Hfold.
  destruct (fold_left ConnectorPool.Close_step order
              (ConnectorPool.tunnels p, st)) as [m st'] eqn:E.
  simpl in Hfold. destruct Hfold as (Hlook & _ & Hall).
  assert (m = ∅) as ->.
  { apply map_eq. intros k. rewrite Hlook, lookup_empty.
    destruct (decide (k ∈ order)) as [|Hnin]; [done|].
    destruct (ConnectorPool.tunnels p !! k) eqn:Hk; [|done].
    destruct Hnin. apply Hcover. by rewrite Hk. }
  eexists _, _. split; [reflexivity|]. simpl. split; [done|]. split.
  - intros k v c Hk. apply (Hall k v c); [|done]. apply Hcover. by rewrite Hk.
  - split; [|done]. intros network tid r. unfold ConnectorPool.Get. simpl.
    by rewrite lookup_empty.
Qed.

Lemma Pool_Close_empties_and_closes_witness :
  ∃ p' st',
    ConnectorPool.Close (Some Scenarios.pool_two) Scenarios.keys_two
      Examples.store0 = (Some p', st', None) ∧
    ConnectorPool.tunnels p' = ∅ ∧
    (∀ k v c, ConnectorPool.tunnels Scenarios.pool_two !! k = Some v →
              Tunnel.close v = Tunnel.ChanOpen → c ∈ Tunnel.connectors v →
              Connector.IsClosed c st' = true) ∧
    (∀ network tid r,
       ConnectorPool.Get (Some p') st' network tid r = (None, Some p')) ∧
    ConnectorPool.Close None Scenarios.keys_two Examples.store0
      = (None, Examples.store0, None).
Proof.
  apply (Pool_Close_empties_and_closes Scenarios.pool_two Scenarios.keys_two
           Examples.store0).
  intros k [v Hk]. unfold Scenarios.pool_two, Examples.pool_T1 in Hk.
  unfold ConnectorPool.Add in Hk. simpl in Hk.
  unfold Scenarios.keys_two.
  destruct (decide (k = relay.String Scenarios.T2)) as [->|Hne2]; [left|].
  rewrite lookup_insert_ne in Hk by done.
  destruct (decide (k = relay.String Examples.T1)) as [->|Hne1];
    [right; left|].
  rewrite lookup_insert_ne in Hk by done. by rewrite lookup_empty in Hk.
Defined.

Lemma CloseOnIdle_store (t : Tunnel.Tunnel) (st : mux.Store) :
  mux.closed (Tunnel.CloseOnIdle t st).1.2 = mux.closed st.
Proof.
  unfold Tunnel.CloseOnIdle. destruct (Tunnel.close t); [|done].
  by destruct (Tunnel.connectors t).
Qed.

Lemma closeIdles_fold (order : list string) (m : gmap string Tunnel.Tunnel)
    (st : mux.Store) :
  let acc := fold_left ConnectorPool.closeIdles_step order (m, st) in
  (∀ k, acc.1 !! k
        = if decide (k ∈ order)
          then m !! k ≫= λ v, if (Tunnel.CloseOnIdle v st).2 then None else Some v
          else m !! k) ∧
  mux.closed acc.2 = mux.closed st.
Proof.
  revert m st. induction order as [|k order IH]; intros m st; simpl; [done|].
  assert (∀ v st1 st2, (Tunnel.CloseOnIdle v st1).2 = (Tunnel.CloseOnIdle v st2).2)
    as Hindep.
  { intros v st1 st2. unfold Tunnel.CloseOnIdle.
    destruct (Tunnel.close v); [|done]. by destruct (Tunnel.connectors v). }
  destruct (m !! k) as [v|] eqn:Hmk.
  - destruct (Tunnel.CloseOnIdle v st) as [[v' st1] idle] eqn:Hidle.
    pose proof (CloseOnIdle_store v st) as Hst. rewrite Hidle in Hst.
    simpl in Hst. destruct idle.
    + assert (ConnectorPool.closeIdles_step (m, st) k = (delete k m, st1)) as ->
        by (unfold ConnectorPool.closeIdles_step; simpl; by rewrite Hmk, Hidle).
      destruct (IH (delete k m) st1) as [Hlook Hclosed]. split; [|congruence].
      intros k'. rewrite Hlook. destruct (decide (k' = k)) as [->|Hne].
      * rewrite (decide_True _ _ (list_elem_of_here k order)).
        rewrite lookup_delete_eq, Hmk. cbn [mbind option_bind].
        rewrite Hidle. by destruct (decide (k ∈ order)).
      * rewrite lookup_delete_ne by done.
        destruct (decide (k' ∈ order)) as [Hin|Hnin].
        -- rewrite (decide_True _ _ (list_elem_of_further _ k _ Hin)).
           destruct (m !! k') as [w|]; [|done]. cbn [mbind option_bind].
           by rewrite (Hindep w st1 st).
        -- rewrite decide_False; [done|]. by intros [?|?]%elem_of_cons.
    + assert (ConnectorPool.closeIdles_step (m, st) k = (m, st)) as ->
        by (unfold ConnectorPool.closeIdles_step; simpl; by rewrite Hmk, Hidle).
      destruct (IH m st) as [Hlook Hclosed]. split; [|done].
      intros k'. rewrite Hlook.
      destruct (decide (k' ∈ order)) as [Hin|Hnin].
      * by rewrite (decide_True _ _ (list_elem_of_further _ k _ Hin)).
      * destruct (decide (k' = k)) as [->|Hne].
        -- rewrite (decide_True _ _ (list_elem_of_here k order)), Hmk.
           cbn [mbind option_bind]. by rewrite Hidle.
        -- rewrite decide_False; [done|]. by intros [?|?]%elem_of_cons.
  - assert (ConnectorPool.closeIdles_step (m, st) k = (m, st)) as ->
      by (unfold ConnectorPool.closeIdles_step; simpl; by rewrite Hmk).
    destruct (IH m st) as [Hlook Hclosed]. split; [|done].
    intros k'. rewrite Hlook.
    destruct (decide (k' ∈ order)) as [Hin|Hnin].
    * by rewrite (decide_True _ _ (list_elem_of_further _ k _ Hin)).
    * destruct (decide (k' = k)) as [->|Hne].
      -- by rewrite (decide_True _ _ (list_elem_of_here k order)), Hmk.
      -- rewrite decide_False; [done|]. by intros [?|?]%elem_of_cons.
Qed.

(** X13: one round of the idle sweep, whatever order the map is walked in,
    removes exactly the tunnels that [CloseOnIdle] reports idle, that is
    those with an open channel and no connector, and keeps every other
    entry as it was; it closes no session. A tunnel that still lists a
    connector stays, even when that connector is closed. *)
Theorem closeIdles_removes_idle_tunnels
    (p : ConnectorPool.ConnectorPool) (order : list string) (st : mux.Store) :
  (∀ k, is_Some (ConnectorPool.tunnels p !! k) → k ∈ order) →
  let p' := (ConnectorPool.closeIdles_tick p order st).1 in
  let st' := (ConnectorPool.closeIdles_tick p order st).2 in
  (∀ k, ConnectorPool.tunnels p' !! k
        = ConnectorPool.tunnels p !! k
          ≫= λ v, match Tunnel.close v, Tunnel.connectors v with
                  | Tunnel.ChanOpen, [] => None
                  | _, _ => Some v
                  end) ∧
  mux.closed st' = mux.closed st ∧
  (ConnectorPool.node p', ConnectorPool.sd p')
    = (ConnectorPool.node p, ConnectorPool.sd p).
Proof.
  intros Hcover p' st'. subst p' st'. unfold ConnectorPool.closeIdles_tick.
  pose proof (closeIdles_fold order (ConnectorPool.tunnels p) st) as Hfold.
  destruct (fold_left ConnectorPool.closeIdles_step order
              (ConnectorPool.tunnels p, st)) as [m st'].
  simpl in *. destruct Hfold as [Hlook Hclosed]. split; [|done].
  intros k. rewrite Hlook.
  destruct (ConnectorPool.tunnels p !! k) as [v|] eqn:Hk.
  - rewrite decide_True by (apply Hcover; by rewrite Hk). simpl.
    unfold Tunnel.CloseOnIdle. destruct (Tunnel.close v); [|done].
    by destruct (Tunnel.connectors v).
  - by destruct (decide (k ∈ order)).
Qed.

Lemma closeIdles_removes_idle_tunnels_witness :
  let p' := (ConnectorPool.closeIdles_tick Scenarios.pool_two
               Scenarios.keys_two Examples.store0).1 in
  let st' := (ConnectorPool.closeIdles_tick Scenarios.pool_two
                Scenarios.keys_two Examples.store0).2 in
  (∀ k, ConnectorPool.tunnels p' !! k
        = ConnectorPool.tunnels Scenarios.pool_two !! k
          ≫= λ v, match Tunnel.close v, Tunnel.connectors v with
                  | Tunnel.ChanOpen, [] => None
                  | _, _ => Some v
                  end) ∧
  mux.closed st' = mux.closed Examples.store0 ∧
  (ConnectorPool.node p', ConnectorPool.sd p')
    = (ConnectorPool.node Scenarios.pool_two, ConnectorPool.sd Scenarios.pool_two).
Proof.
  apply (closeIdles_removes_idle_tunnels Scenarios.pool_two Scenarios.keys_two
           Examples.store0).
  intros k [v Hk]. unfold Scenarios.pool_two, Examples.pool_T1 in Hk.
  unfold ConnectorPool.Add in Hk. simpl in Hk.
  unfold Scenarios.keys_two.
  destruct (decide (k = relay.String Scenarios.T2)) as [->|Hne2]; [left|].
  rewrite lookup_insert_ne in Hk by done.
  destruct (decide (k = relay.String Examples.T1)) as [->|Hne1];
    [right; left|].
  rewrite lookup_insert_ne in Hk by done. by rewrite lookup_empty in Hk.
Defined.

(** * Further properties of the tunnel handler *)

Lemma JoinHostPort_not_empty (host port : string) :
  tunnelHandler.JoinHostPort host port ≠ "".
Proof.
  unfold tunnelHandler.JoinHostPort.
  destruct (tunnelHandler.contains ":" host); [done|]. by destruct host.
Qed.

Lemma parse_features_snoc (fs : list relay.Feature) (f : relay.Feature) :
  tunnelHandler.parse_features (fs ++ [f])
  = tunnelHandler.feature_step (tunnelHandler.parse_features fs) f.
Proof. unfold tunnelHandler.parse_features. by rewrite fold_left_app. Qed.

(** X14: how the feature loop reads a request: of several credentials,
    tunnel IDs or networks the last one counts (the network is "tcp" when
    there is none, the tunnel ID zero); of the address features the first
    is the source address and, when there are more, the last is the
    destination. *)
Theorem parse_features_last_wins_first_addr_is_source
    (fs : list relay.Feature) :
  let p := tunnelHandler.parse_features fs in
  let addrs :=
    omap (λ f, match f with
               | relay.AddrFeature host port =>
                 Some (tunnelHandler.JoinHostPort host (tunnelHandler.Itoa port))
               | _ => None
               end) fs in
  (tunnelHandler.user p, tunnelHandler.pass p)
    = default ("", "")
        (last (omap (λ f, match f with
                          | relay.UserAuthFeature u pw => Some (u, pw)
                          | _ => None
                          end) fs)) ∧
  tunnelHandler.tunnelID p
    = default relay.zeroTunnelID
        (last (omap (λ f, match f with
                          | relay.TunnelFeature tid => Some tid
                          | _ => None
                          end) fs)) ∧
  tunnelHandler.network p
    = default "tcp"
        (last (omap (λ f, match f with
                          | relay.NetworkFeature n => Some n
                          | _ => None
                          end) fs)) ∧
  tunnelHandler.srcAddr p = default "" (head addrs) ∧
  tunnelHandler.dstAddr p = default "" (last (tail addrs)).
Proof.
  induction fs as [|f fs IH] using rev_ind; [done|].
  rewrite parse_features_snoc. cbv zeta in *. rewrite !omap_app.
  destruct IH as (Huser & Htid & Hnet & Hsrc & Hdst).
  destruct f as [u pw|host port|tid|n|ty]; cbn [omap list_omap];
    rewrite ?app_nil_r, ?last_snoc; cbn [tunnelHandler.feature_step];
    try done.
  remember (omap (λ f, match f with
                       | relay.AddrFeature host port =>
                         Some (tunnelHandler.JoinHostPort host
                                 (tunnelHandler.Itoa port))
                       | _ => None
                       end) fs) as addrs eqn:Eaddrs.
  assert (tunnelHandler.srcAddr (tunnelHandler.parse_features fs) = ""
          ↔ addrs = []) as Hempty.
  { rewrite Hsrc. destruct addrs as [|a l]; [done|]. simpl. split; [|done].
    intros ->. exfalso.
    assert (("" : string) ∈ "" :: l) as Hin by left.
    rewrite Eaddrs in Hin. apply list_elem_of_omap in Hin as (f & _ & Hf).
    destruct f; try done. injection Hf as Hf.
    by apply JoinHostPort_not_empty in Hf. }
  destruct (String.eqb_spec
              (tunnelHandler.srcAddr (tunnelHandler.parse_features fs)) "")
    as [Hnil|Hnn]; cbn [negb].
  - pose proof (proj1 Hempty Hnil) as ->. simpl. simpl in Hdst.
    by rewrite Hdst.
  - destruct addrs as [|a l]; [by destruct Hnn; apply Hempty|].
    simpl in *. by rewrite last_snoc.
Qed.

Section MoreHandleFacts.
Variables (Version1 CmdConnect CmdBind CmdMask : Z).
Variable SplitHostPort : string → string.
Variable now : Z.
Variable handleConnect :
  tunnelHandler.Context → relay.Request → tunnelHandler.NetConn →
  string → string → string → relay.TunnelID → tunnelHandler.PoolState →
  option error * tunnelHandler.NetConn * tunnelHandler.PoolState.
Variable handleBind :
  tunnelHandler.Context → tunnelHandler.NetConn → string → string →
  relay.TunnelID → tunnelHandler.PoolState →
  option error * tunnelHandler.NetConn * tunnelHandler.PoolState.

Local Abbreviation Handle :=
  (tunnelHandler.Handle Version1 CmdConnect CmdBind CmdMask SplitHostPort
     now handleConnect handleBind).
Local Abbreviation Handle_body :=
  (tunnelHandler.Handle_body Version1 CmdConnect CmdBind CmdMask SplitHostPort
     now handleConnect handleBind).

(** X15: a connection is refused for its rate exactly when a rate limiter
    is configured, has a limiter for the host of the remote address, and
    that limiter denies. [Handle] then returns the rate-limit error and
    closes the connection without reading the request, setting a deadline
    or writing a response, and leaves the pool as it was. *)
Theorem Handle_rate_limited
    (h : tunnelHandler.tunnelHandler) (ctx : tunnelHandler.Context)
    (c : tunnelHandler.NetConn) (ps : tunnelHandler.PoolState) :
  (tunnelHandler.checkRateLimit SplitHostPort h (tunnelHandler.RemoteAddr c)
     = false ↔
   ∃ limiters,
     tunnelHandler.RateLimiter (tunnelHandler.options h) = Some limiters ∧
     limiters (SplitHostPort (tunnelHandler.RemoteAddr c)) = Some false) ∧
  (tunnelHandler.checkRateLimit SplitHostPort h (tunnelHandler.RemoteAddr c)
     = false →
   Handle h ctx c ps
   = tunnelHandler.mkOutcome (Some ErrRateLimit) (tunnelHandler.conn_Close c) ps).
Proof.
  split.
  - unfold tunnelHandler.checkRateLimit.
    destruct (tunnelHandler.RateLimiter (tunnelHandler.options h)) as [ls|].
    + destruct (ls (SplitHostPort (tunnelHandler.RemoteAddr c))) as [[]|] eqn:E.
      * split; [done|]. intros (ls' & [= <-] & Hl). congruence.
      * split; [|done]. intros _. by exists ls.
      * split; [done|]. intros (ls' & [= <-] & Hl). congruence.
    + split; [done|]. by intros (ls & ? & _).
  - intros Hdeny. unfold tunnelHandler.Handle, tunnelHandler.Handle_body.
    by rewrite Hdeny.
Qed.

(** X16: a request of a version other than 1 is answered with one
    BadRequest response and the bad-version error, whatever its features,
    its command and the authenticator; the read deadline is cleared, the
    connection closed and the pool left as it was. *)
Theorem Handle_bad_version
    (h : tunnelHandler.tunnelHandler) (ctx : tunnelHandler.Context)
    (c : tunnelHandler.NetConn) (ps : tunnelHandler.PoolState)
    (req : relay.Request) :
  tunnelHandler.checkRateLimit SplitHostPort h (tunnelHandler.RemoteAddr c)
    = true →
  tunnelHandler.incoming c = inl req →
  relay.Version req ≠ Version1 →
  Handle h ctx c ps
  = tunnelHandler.mkOutcome (Some ErrBadVersion)
      (tunnelHandler.mkNetConn (tunnelHandler.RemoteAddr c)
         (tunnelHandler.LocalAddr c) (tunnelHandler.incoming c)
         (tunnelHandler.written c
          ++ [relay.mkResponse Version1 relay.StatusBadRequest])
         None true)
      ps.
Proof.
  intros Hrate Hreq Hver.
  unfold tunnelHandler.Handle, tunnelHandler.Handle_body.
  rewrite Hrate. simpl negb. cbv iota.
  apply Z.eqb_neq in Hver.
  destruct (0 <? tunnelHandler.readTimeout (tunnelHandler.md h)); simpl;
    rewrite Hreq, Hver; simpl;
    unfold tunnelHandler.conn_Close, tunnelHandler.WriteTo,
      tunnelHandler.SetReadDeadline, relay.with_status; simpl;
    by rewrite ?Hreq.
Qed.

(** X17: a version-1 request with a non-zero tunnel ID that passes the
    authenticator, or meets none, and whose command under the mask is
    neither CONNECT nor BIND is answered with one BadRequest response and
    the unknown-command error; the connection is closed and the pool left
    as it was. *)
Theorem Handle_unknown_command
    (h : tunnelHandler.tunnelHandler) (ctx : tunnelHandler.Context)
    (c : tunnelHandler.NetConn) (ps : tunnelHandler.PoolState)
    (req : relay.Request) :
  tunnelHandler.checkRateLimit SplitHostPort h (tunnelHandler.RemoteAddr c)
    = true →
  tunnelHandler.incoming c = inl req →
  relay.Version req = Version1 →
  relay.IsZero
    (tunnelHandler.tunnelID (tunnelHandler.parse_features (relay.Features req)))
  = false →
  (∀ authenticate,
     tunnelHandler.Auther (tunnelHandler.options h) = Some authenticate →
     (authenticate
        (tunnelHandler.user (tunnelHandler.parse_features (relay.Features req)))
        (tunnelHandler.pass (tunnelHandler.parse_features (relay.Features req)))).2
     = true) →
  Z.land (relay.Cmd req) CmdMask ≠ CmdConnect →
  Z.land (relay.Cmd req) CmdMask ≠ CmdBind →
  tunnelHandler.err (Handle h ctx c ps) = Some ErrUnknownCmd ∧
  tunnelHandler.written (tunnelHandler.conn (Handle h ctx c ps))
    = tunnelHandler.written c
      ++ [relay.mkResponse Version1 relay.StatusBadRequest] ∧
  tunnelHandler.conn_closed (tunnelHandler.conn (Handle h ctx c ps)) = true ∧
  tunnelHandler.pool (Handle h ctx c ps) = ps.
Proof.
  intros Hrate Hreq Hver Hz Hauth Hc Hb.
  unfold tunnelHandler.Handle, tunnelHandler.Handle_body.
  rewrite Hrate. simpl negb. cbv iota.
  apply Z.eqb_neq in Hc, Hb.
  assert (∀ ctx' c',
            tunnelHandler.dispatch CmdConnect CmdBind CmdMask
              handleConnect handleBind ctx' req c'
              (tunnelHandler.parse_features (relay.Features req)) ps
              (relay.mkResponse Version1 relay.StatusOK)
            = tunnelHandler.mkOutcome (Some ErrUnknownCmd)
                (tunnelHandler.WriteTo
                   (relay.mkResponse Version1 relay.StatusBadRequest) c') ps)
    as Hdisp.
  { intros ctx' c'. unfold tunnelHandler.dispatch. by rewrite Hc, Hb. }
  destruct (0 <? tunnelHandler.readTimeout (tunnelHandler.md h)); simpl;
    rewrite Hreq, Hver, Z.eqb_refl, Hz; simpl;
    (destruct (tunnelHandler.Auther (tunnelHandler.options h)) as [a|] eqn:Ha;
     [ specialize (Hauth a eq_refl);
       destruct (a _ _) as [client ok]; simpl in Hauth; subst ok; simpl
     | ]);
    rewrite Hdisp; done.
Qed.

(** X18: whenever [Handle] returns an error the connection has been
    closed, whatever the command handlers do. *)
Theorem Handle_error_closes_connection
    (h : tunnelHandler.tunnelHandler) (ctx : tunnelHandler.Context)
    (c : tunnelHandler.NetConn) (ps : tunnelHandler.PoolState) :
  tunnelHandler.err (Handle h ctx c ps) ≠ None →
  tunnelHandler.conn_closed (tunnelHandler.conn (Handle h ctx c ps)) = true.
Proof.
  unfold tunnelHandler.Handle.
  destruct (tunnelHandler.err (Handle_body h ctx c ps)) eqn:E; simpl;
    [done | by rewrite E].
Qed.

(** X19: [Handle] itself never touches the pool: if the command handlers
    leave the pool as they find it, so does [Handle], on every request. *)
Theorem Handle_pool_frame
    (h : tunnelHandler.tunnelHandler) (ctx : tunnelHandler.Context)
    (c : tunnelHandler.NetConn) (ps : tunnelHandler.PoolState) :
  (∀ ctx' req c' n s d t ps', (handleConnect ctx' req c' n s d t ps').2 = ps') →
  (∀ ctx' c' n d t ps', (handleBind ctx' c' n d t ps').2 = ps') →
  tunnelHandler.pool (Handle h ctx c ps) = ps.
Proof.
  intros Hconnect Hbind.
  assert (∀ ctx' req c' p resp,
            tunnelHandler.pool
              (tunnelHandler.dispatch CmdConnect CmdBind CmdMask
                 handleConnect handleBind ctx' req c' p ps resp) = ps) as Hdisp.
  { intros ctx' req c' p resp. unfold tunnelHandler.dispatch.
    destruct (_ =? CmdConnect).
    - specialize (Hconnect ctx' req c' (tunnelHandler.network p)
                    (tunnelHandler.srcAddr p) (tunnelHandler.dstAddr p)
                    (tunnelHandler.tunnelID p) ps).
      by destruct (handleConnect _ _ _ _ _ _ _ _) as [[e c''] ps''].
    - destruct (_ =? CmdBind); [|done].
      specialize (Hbind ctx' c' (tunnelHandler.network p)
                    (tunnelHandler.dstAddr p) (tunnelHandler.tunnelID p) ps).
      by destruct (handleBind _ _ _ _ _ _) as [[e c''] ps'']. }
  assert (tunnelHandler.pool (Handle_body h ctx c ps) = ps) as Hbody.
  { unfold tunnelHandler.Handle_body.
    destruct (negb _); [done|].
    destruct (tunnelHandler.incoming _) as [req|e]; [|done].
    destruct (negb _); [done|]. destruct (relay.IsZero _); [done|].
    destruct (tunnelHandler.Auther _) as [a|]; [|apply Hdisp].
    destruct (a _ _) as [client ok]. destruct (negb ok); [done|apply Hdisp]. }
  unfold tunnelHandler.Handle.
  by destruct (tunnelHandler.err (Handle_body h ctx c ps)).
Qed.
End MoreHandleFacts.

(** The feature loop on a request with three addresses and two
    credentials. *)
Example parse_features_many :
  tunnelHandler.parse_features Scenarios.features_many
  = tunnelHandler.mkParsed "u2" "p2" "10.0.0.1:1000" "example.com:443" "udp"
      Examples.T1.
Proof. reflexivity. Qed.

Lemma Handle_rate_limited_witness :
  tunnelHandler.Handle 1 1 2 15 Scenarios.host_of 0 Examples.connect_stub
    Examples.bind_stub Scenarios.h_rate_limited Examples.no_context
    (Examples.conn_with Examples.req_S6) Examples.pool_state
  = tunnelHandler.mkOutcome (Some ErrRateLimit)
      (tunnelHandler.conn_Close (Examples.conn_with Examples.req_S6))
      Examples.pool_state.
Proof.
  apply (proj2 (Handle_rate_limited 1 1 2 15 Scenarios.host_of 0
                  Examples.connect_stub Examples.bind_stub
                  Scenarios.h_rate_limited Examples.no_context
                  (Examples.conn_with Examples.req_S6) Examples.pool_state)).
  reflexivity.
Defined.

Lemma Handle_bad_version_witness :
  Examples.handle Scenarios.h_open Examples.req_bad_version
  = tunnelHandler.mkOutcome (Some ErrBadVersion)
      (tunnelHandler.mkNetConn "192.0.2.1:4000" "192.0.2.2:8421"
         (inl Examples.req_bad_version)
         ([] ++ [relay.mkResponse 1 relay.StatusBadRequest]) None true)
      Examples.pool_state.
Proof.
  apply (Handle_bad_version 1 1 2 15 (fun a => a) 0 Examples.connect_stub
           Examples.bind_stub Scenarios.h_open Examples.no_context
           (Examples.conn_with Examples.req_bad_version) Examples.pool_state
           Examples.req_bad_version).
  - reflexivity.
  - reflexivity.
  - simpl. lia.
Defined.

Lemma Handle_unknown_command_witness :
  tunnelHandler.err (Examples.handle Scenarios.h_open Scenarios.req_unknown_cmd)
    = Some ErrUnknownCmd ∧
  tunnelHandler.written
    (tunnelHandler.conn
       (Examples.handle Scenarios.h_open Scenarios.req_unknown_cmd))
    = [] ++ [relay.mkResponse 1 relay.StatusBadRequest] ∧
  tunnelHandler.conn_closed
    (tunnelHandler.conn
       (Examples.handle Scenarios.h_open Scenarios.req_unknown_cmd)) = true ∧
  tunnelHandler.pool
    (Examples.handle Scenarios.h_open Scenarios.req_unknown_cmd)
    = Examples.pool_state.
Proof.
  apply (Handle_unknown_command 1 1 2 15 (fun a => a) 0 Examples.connect_stub
           Examples.bind_stub Scenarios.h_open Examples.no_context
           (Examples.conn_with Scenarios.req_unknown_cmd) Examples.pool_state
           Scenarios.req_unknown_cmd).
  - reflexivity.
  - reflexivity.
  - reflexivity.
  - reflexivity.
  - intros authenticate Hauth. discriminate Hauth.
  - vm_compute. discriminate.
  - vm_compute. discriminate.
Defined.

Lemma Handle_error_closes_connection_witness :
  tunnelHandler.conn_closed
    (tunnelHandler.conn (Examples.handle Examples.h_reject_all Examples.req_S6))
  = true.
Proof.
  apply (Handle_error_closes_connection 1 1 2 15 (fun a => a) 0
           Examples.connect_stub Examples.bind_stub Examples.h_reject_all
           Examples.no_context (Examples.conn_with Examples.req_S6)
           Examples.pool_state).
  simpl. discriminate.
Defined.

Lemma Handle_pool_frame_witness :
  tunnelHandler.pool (Examples.handle Scenarios.h_open Examples.req_S6)
  = Examples.pool_state.
Proof.
  apply (Handle_pool_frame 1 1 2 15 (fun a => a) 0 Examples.connect_stub
           Examples.bind_stub Scenarios.h_open Examples.no_context
           (Examples.conn_with Examples.req_S6) Examples.pool_state).
  - intros. reflexivity.
  - intros. reflexivity.
Defined.

(** * Further properties of the listeners *)

(** X20: when the accept loop of the mtcp listener meets an accept error
    on a fresh error channel, it has started one [mux] for every connection
    accepted before, it sends the error, closes the channel and returns;
    with an empty queue the next [Accept] returns that error, and every
    [Accept] after it returns the closed-listener error. *)
Theorem listenLoop_error_then_Accept
    (conns : list listener.conn) (e : error)
    (rest : list (listener.conn + error)) (s : mtcpListener.State) :
  mtcpListener.errChan s = errchan.make →
  let s1 := mtcpListener.mkState (mtcpListener.queue s)
              (errchan.mkErrChan [Some e] true)
              (mtcpListener.spawned s ++ conns) in
  let s2 := mtcpListener.mkState (mtcpListener.queue s)
              (errchan.mkErrChan [] true)
              (mtcpListener.spawned s ++ conns) in
  mtcpListener.listenLoop ((inl <$> conns) ++ inr e :: rest) s
    = (s1, mtcpListener.RunReturned) ∧
  (listener.buf (listener.cqueue (mtcpListener.queue s)) = [] →
   ∀ pick, mtcpListener.Accept pick s1 = (s2, mtcpListener.GotErr (Some e)) ∧
           mtcpListener.Accept pick s2
           = (s2, mtcpListener.GotErr (Some mtcpListener.ErrClosed))).
Proof.
  intros Hfresh s1 s2. subst s1 s2. split.
  - revert s Hfresh. induction conns as [|c conns IH]; intros s Hfresh.
    + simpl. rewrite Hfresh. simpl. by rewrite app_nil_r.
    + rewrite fmap_cons, <- app_comm_cons. cbn [mtcpListener.listenLoop].
      rewrite (IH (mtcpListener.mkState (mtcpListener.queue s)
                     (mtcpListener.errChan s) (mtcpListener.spawned s ++ [c]))
                  Hfresh).
      simpl. by rewrite <- app_assoc.
  - intros Hempty pick. unfold mtcpListener.Accept. simpl.
    by rewrite Hempty.
Qed.

Lemma listenLoop_error_then_Accept_witness :
  let s1 := mtcpListener.mkState (mtcpListener.queue Scenarios.mtcp_fresh)
              (errchan.mkErrChan [Some (ErrOther "accept failed")] true)
              (mtcpListener.spawned Scenarios.mtcp_fresh ++ [1; 2]%nat) in
  let s2 := mtcpListener.mkState (mtcpListener.queue Scenarios.mtcp_fresh)
              (errchan.mkErrChan [] true)
              (mtcpListener.spawned Scenarios.mtcp_fresh ++ [1; 2]%nat) in
  mtcpListener.listenLoop
    ((inl <$> [1; 2]%nat) ++ inr (ErrOther "accept failed") :: [inl 3%nat])
    Scenarios.mtcp_fresh
    = (s1, mtcpListener.RunReturned) ∧
  (listener.buf (listener.cqueue (mtcpListener.queue Scenarios.mtcp_fresh)) = [] →
   ∀ pick, mtcpListener.Accept pick s1
           = (s2, mtcpListener.GotErr (Some (ErrOther "accept failed"))) ∧
           mtcpListener.Accept pick s2
           = (s2, mtcpListener.GotErr (Some mtcpListener.ErrClosed))).
Proof.
  apply (listenLoop_error_then_Accept [1; 2]%nat (ErrOther "accept failed")
           [inl 3%nat] Scenarios.mtcp_fresh).
  reflexivity.
Defined.

Lemma h2_Close_on_closed_channel (r : option error) (s : h2Listener.State) :
  errchan.eclosed (mtcpListener.errChan (h2Listener.inner s)) = true →
  ∃ s', h2Listener.Close r s = (s', errchan.Done None) ∧
        h2Listener.server_closes s' = h2Listener.server_closes s ∧
        errchan.eclosed (mtcpListener.errChan (h2Listener.inner s')) = true.
Proof.
  intros Hclosed. unfold h2Listener.Close, errchan.recv.
  destruct (errchan.ebuf _) as [|e l]; [rewrite Hclosed|]; eexists; done.
Qed.

Lemma h2_Close_all_on_closed_channel (results : list (option error))
    (s : h2Listener.State) (outs : list (errchan.Outcome (option error))) :
  errchan.eclosed (mtcpListener.errChan (h2Listener.inner s)) = true →
  let r := fold_left
             (λ acc r, let '(s', o) := h2Listener.Close r acc.1 in
                       (s', acc.2 ++ [o])) results (s, outs) in
  h2Listener.server_closes r.1 = h2Listener.server_closes s ∧
  r.2 = outs ++ replicate (length results) (errchan.Done None).
Proof.
  revert s outs. induction results as [|r results IH]; intros s outs Hclosed.
  - simpl. by rewrite app_nil_r.
  - simpl fold_left.
    destruct (h2_Close_on_closed_channel r s Hclosed) as (s' & -> & Hn & Hc).
    destruct (IH s' (outs ++ [errchan.Done None]) Hc) as [Hn' Houts].
    simpl in *. split; [congruence|]. by rewrite Houts, <- app_assoc.
Qed.

(** X21: on an h2 listener with a fresh error channel, any number of
    [Close] calls, at least one, return nil each, never wait or panic, and
    together call [server.Close()] exactly once. *)
Theorem h2_Close_closes_server_once
    (r : option error) (results : list (option error))
    (s : h2Listener.State) :
  mtcpListener.errChan (h2Listener.inner s) = errchan.make →
  h2Listener.server_closes (h2Listener.Close_all (r :: results) s).1
    = S (h2Listener.server_closes s) ∧
  (h2Listener.Close_all (r :: results) s).2
    = replicate (S (length results)) (errchan.Done None).
Proof.
  intros Hfresh. unfold h2Listener.Close_all. simpl fold_left.
  assert (h2Listener.Close r s
          = (h2Listener.mkState
               (mtcpListener.mkState (mtcpListener.queue (h2Listener.inner s))
                  (errchan.mkErrChan [r] true)
                  (mtcpListener.spawned (h2Listener.inner s)))
               (S (h2Listener.server_closes s)),
             errchan.Done None)) as ->.
  { unfold h2Listener.Close. by rewrite Hfresh. }
  pose proof (h2_Close_all_on_closed_channel results
                (h2Listener.mkState
                   (mtcpListener.mkState
                      (mtcpListener.queue (h2Listener.inner s))
                      (errchan.mkErrChan [r] true)
                      (mtcpListener.spawned (h2Listener.inner s)))
                   (S (h2Listener.server_closes s)))
                [errchan.Done None] eq_refl) as [Hn Houts].
  simpl in *. by rewrite Hn, Houts.
Qed.

Lemma h2_Close_closes_server_once_witness :
  h2Listener.server_closes
    (h2Listener.Close_all [Some (ErrOther "server closed"); None; None]
       Scenarios.h2_fresh).1
    = S (h2Listener.server_closes Scenarios.h2_fresh) ∧
  (h2Listener.Close_all [Some (ErrOther "server closed"); None; None]
     Scenarios.h2_fresh).2
    = replicate 3 (errchan.Done None).
Proof.
  apply (h2_Close_closes_server_once (Some (ErrOther "server closed"))
           [None; None] Scenarios.h2_fresh).
  reflexivity.
Defined.

(** X22: after one [Close] of an h2 listener with a fresh error channel and
    an empty queue, [Accept] returns a nil connection together with
    whatever [server.Close()] returned, a nil error included; after a second
    [Close], which takes that value off the channel, [Accept] returns the
    closed-listener error instead. *)
Theorem h2_Accept_after_Close
    (r r2 : option error) (s : h2Listener.State) (pick : bool) :
  mtcpListener.errChan (h2Listener.inner s) = errchan.make →
  listener.buf (listener.cqueue (mtcpListener.queue (h2Listener.inner s))) = [] →
  (h2Listener.Accept pick (h2Listener.Close r s).1).2 = mtcpListener.GotErr r ∧
  (h2Listener.Accept pick
     (h2Listener.Close r2 (h2Listener.Close r s).1).1).2
    = mtcpListener.GotErr (Some mtcpListener.ErrClosed).
Proof.
  intros Hfresh Hempty.
  unfold h2Listener.Accept, h2Listener.Close, mtcpListener.Accept.
  rewrite Hfresh. simpl. by rewrite Hempty.
Qed.

Lemma h2_Accept_after_Close_witness :
  (h2Listener.Accept false (h2Listener.Close None Scenarios.h2_fresh).1).2
    = mtcpListener.GotErr None ∧
  (h2Listener.Accept false
     (h2Listener.Close None (h2Listener.Close None Scenarios.h2_fresh).1).1).2
    = mtcpListener.GotErr (Some mtcpListener.ErrClosed).
Proof.
  apply (h2_Accept_after_Close None None Scenarios.h2_fresh false);
    reflexivity.
Defined.

Lemma closes_app (evs1 evs2 : list listener.Event) :
  mtcpListener.closes (evs1 ++ evs2)
  = mtcpListener.closes evs1 ++ mtcpListener.closes evs2.
Proof. apply omap_app. Qed.

(** One push: the connection ends in the buffer, with a waiting receiver,
    or closed, and the buffer stays within its capacity. *)
Lemma push_conserves (l : listener.Listener) (c : listener.conn) :
  let l' := listener.push l c in
  listener.buf (listener.cqueue l') ++ listener.handed (listener.cqueue l')
    ++ mtcpListener.closes (listener.events l')
  ≡ₚ (listener.buf (listener.cqueue l) ++ listener.handed (listener.cqueue l)
      ++ mtcpListener.closes (listener.events l)) ++ [c] ∧
  listener.cap (listener.cqueue l') = listener.cap (listener.cqueue l) ∧
  ((length (listener.buf (listener.cqueue l)) ≤ listener.cap (listener.cqueue l))%nat →
   (length (listener.buf (listener.cqueue l')) ≤ listener.cap (listener.cqueue l'))%nat).
Proof.
  unfold listener.push, listener.try_send.
  destruct (0 <? listener.receivers (listener.cqueue l))%nat; simpl.
  - split; [|done]. rewrite !app_assoc.
    rewrite <- (app_assoc _ [c]).
    rewrite (Permutation_app_comm [c]). by rewrite !app_assoc.
  - destruct (Nat.ltb_spec (length (listener.buf (listener.cqueue l)))
                (listener.cap (listener.cqueue l))); simpl.
    + split; [|split; [done|]].
      * rewrite <- !app_assoc. apply Permutation_app_head.
        rewrite (Permutation_app_comm [c]). by rewrite <- app_assoc.
      * intros _. rewrite length_app. simpl. lia.
    + split; [|done]. rewrite closes_app. simpl. by rewrite !app_assoc.
Qed.

(** X23: the accept loop of [mux] leaks no stream and accepts none twice:
    whatever the queue's state and the sequence of accept results, the
    streams accepted before the first error are, together with what was
    there before, exactly the streams found afterwards in the buffer, with
    receivers, or closed; the capacity is unchanged and a buffer within its
    capacity stays within it. *)
Theorem mux_loop_conserves_streams
    (accepts : list listener.Accepted) (l : listener.Listener) :
  let l' := (listener.mux_loop accepts l).1 in
  listener.buf (listener.cqueue l') ++ listener.handed (listener.cqueue l')
    ++ mtcpListener.closes (listener.events l')
  ≡ₚ (listener.buf (listener.cqueue l) ++ listener.handed (listener.cqueue l)
      ++ mtcpListener.closes (listener.events l))
     ++ mtcpListener.accepted accepts ∧
  listener.cap (listener.cqueue l') = listener.cap (listener.cqueue l) ∧
  ((length (listener.buf (listener.cqueue l)) ≤ listener.cap (listener.cqueue l))%nat →
   (length (listener.buf (listener.cqueue l')) ≤ listener.cap (listener.cqueue l'))%nat).
Proof.
  revert l. induction accepts as [|[c|] accepts IH]; intros l; simpl.
  - by rewrite app_nil_r.
  - destruct (IH (listener.push l c)) as (Hperm & Hcap & Hlen).
    destruct (push_conserves l c) as (Hperm1 & Hcap1 & Hlen1).
    split; [|split].
    + rewrite Hperm, Hperm1. by rewrite <- app_assoc.
    + congruence.
    + intros Hle. apply Hlen, Hlen1, Hle.
  - rewrite closes_app. simpl. by rewrite !app_nil_r.
Qed.

(** ** The tun listener *)

(** X24: the first [Close] of a tun listener returns nil and closes the
    [closed] channel; every later [Close] returns [net.ErrClosed] and
    changes nothing, so the channel is never closed twice; once closed, and
    with no connection on offer, [Accept] returns the closed-listener
    error. *)
Theorem tun_Close_once (s : tunListener.State) (pick : bool) :
  let s1 := (tunListener.Close s).1 in
  tunListener.closed s1 = Tunnel.ChanClosed ∧
  tunListener.offered s1 = tunListener.offered s ∧
  ((tunListener.Close s).2 = None ↔ tunListener.closed s = Tunnel.ChanOpen) ∧
  tunListener.Close s1 = (s1, Some tunListener.net_ErrClosed) ∧
  (tunListener.offered s = None →
   tunListener.Accept pick s1 = Some (s1, (None, Some mtcpListener.ErrClosed))).
Proof.
  unfold tunListener.Close, tunListener.Accept.
  destruct (tunListener.closed s) eqn:E; simpl.
  - repeat split; try done. by intros ->.
  - rewrite E. repeat split; try done. by intros ->.
Qed.

(** ** The SOCKS4 handler *)

Section V4Facts.
Variables (CmdConnect CmdBind : Z).
Variable SplitHostPort : string -> string.
Variable now : Z.

Local Abbreviation Handle4 := (v4.Handle CmdConnect CmdBind SplitHostPort now).
Local Abbreviation Body4 := (v4.Handle_body CmdConnect CmdBind SplitHostPort now).

(** Whether the handler's authenticator, if any, accepts the user id of
    the request with the empty password. *)
Local Abbreviation passes h req :=
  (match v4.Auther h with
   | Some authenticate => (authenticate (v4.Userid req) "").2
   | None => true
   end).

Lemma v4_reply_added (l : list v4.ReplyCode) (code : v4.ReplyCode) :
  l ++ [code] ≠ l.
Proof.
  intros H. apply (f_equal length) in H. rewrite length_app in H.
  simpl in H. lia.
Qed.

(** What [handleConnect] leaves behind, whatever its inputs. *)
Lemma v4_handleConnect_invariant (h : v4.socks4Handler) (ctx : v4.Context)
    (c : v4.Conn) (req : v4.Request) :
  let out := v4.handleConnect h ctx c req in
  (∃ code, v4.replies (v4.conn out) = v4.replies c ++ [code] ∧
           (v4.transported out = true →
            code = v4.Granted ∧ v4.err out = None ∧ v4.write_err c = None)) ∧
  v4.closed (v4.conn out) = v4.closed c ∧
  v4.readDeadline (v4.conn out) = v4.readDeadline c ∧
  (is_Some (v4.upstream out) ↔ v4.upstream_closed out = true) ∧
  (∀ id, v4.current id (v4.stats out) = 0).
Proof.
  unfold v4.handleConnect.
  destruct (match v4.Bypass h with
            | Some contains => contains "tcp" (v4.Addr req)
            | None => false
            end).
  { simpl. split; [by exists v4.Rejected|]. split; [done|]. split; [done|].
    split; [|done]. split; [by intros [? ?]|done]. }
  destruct (v4.Dial h _ "tcp" (v4.Addr req)) as [cc|e].
  - simpl. destruct (v4.write_err c) as [e|] eqn:Hw; simpl.
    + split; [by exists v4.Granted|]. split; [done|]. split; [done|].
      split; [|done]. split; [done|by eexists].
    + split; [by exists v4.Granted|]. split; [done|]. split; [done|].
      split; [split; [done|by eexists]|].
      intros id. destruct (v4.Observer h); [|done].
      simpl. destruct (String.eqb _ id); lia.
  - simpl. split; [by exists v4.Failed|]. split; [done|]. split; [done|].
    split; [|done]. split; [by intros [? ?]|done].
Qed.

(** X25: whatever the request, the authenticator, the bypass and the dial
    do, [Handle] of the SOCKS4 handler closes the client connection, writes
    at most one reply, closes the upstream connection exactly when one was
    dialled, relays data only after a [Granted] reply was written without
    error, and leaves every current-connections counter where it was. *)
Theorem socks4_Handle_releases_connections
    (h : v4.socks4Handler) (ctx : v4.Context) (c : v4.Conn) :
  let out := Handle4 h ctx c in
  v4.closed (v4.conn out) = true ∧
  (∃ l, v4.replies (v4.conn out) = v4.replies c ++ l ∧ (length l ≤ 1)%nat ∧
        (v4.transported out = true →
         l = [v4.Granted] ∧ v4.err out = None ∧ v4.write_err c = None)) ∧
  (is_Some (v4.upstream out) ↔ v4.upstream_closed out = true) ∧
  (∀ id, v4.current id (v4.stats out) = 0).
Proof.
  unfold v4.Handle. cbn [v4.err v4.conn v4.upstream v4.upstream_closed
                         v4.transported v4.stats v4.Close v4.closed v4.replies].
  split; [done|].
  assert (Hnone : ∀ (e : option error) (c' : v4.Conn),
            v4.replies c' = v4.replies c →
            let out := v4.mkOutcome e c' None false false [] in
            (∃ l, v4.replies (v4.conn out) = v4.replies c ++ l ∧
                  (length l ≤ 1)%nat ∧
                  (v4.transported out = true →
                   l = [v4.Granted] ∧ v4.err out = None ∧ v4.write_err c = None)) ∧
            (is_Some (v4.upstream out) ↔ v4.upstream_closed out = true) ∧
            (∀ id, v4.current id (v4.stats out) = 0)).
  { intros e c' Hr. simpl. split.
    - exists []. rewrite app_nil_r. split; [done|]. split; [simpl; lia|done].
    - split; [|done]. split; [by intros [? ?]|done]. }
  assert (Hconn : ∀ ctx' (c' : v4.Conn) req,
            v4.replies c' = v4.replies c → v4.write_err c' = v4.write_err c →
            let out := v4.handleConnect h ctx' c' req in
            (∃ l, v4.replies (v4.conn out) = v4.replies c ++ l ∧
                  (length l ≤ 1)%nat ∧
                  (v4.transported out = true →
                   l = [v4.Granted] ∧ v4.err out = None ∧ v4.write_err c = None)) ∧
            (is_Some (v4.upstream out) ↔ v4.upstream_closed out = true) ∧
            (∀ id, v4.current id (v4.stats out) = 0)).
  { intros ctx' c' req Hr Hw.
    destruct (v4_handleConnect_invariant h ctx' c' req)
      as ((code & Hrep & Htr) & _ & _ & Hup & Hst).
    cbn zeta. split; [|by split].
    exists [code]. rewrite Hrep, Hr. split; [done|]. split; [simpl; lia|].
    intros Ht. destruct (Htr Ht) as (-> & ? & ?). rewrite <- Hw. by repeat split. }
  unfold v4.Handle_body.
  destruct (negb (v4.checkRateLimit SplitHostPort h (v4.RemoteAddr c)));
    [by apply Hnone|].
  set (c1 := if 0 <? v4.readTimeout h then _ else c).
  assert (Hc1 : v4.replies c1 = v4.replies c ∧ v4.write_err c1 = v4.write_err c
                ∧ v4.incoming c1 = v4.incoming c).
  { subst c1. by destruct (0 <? v4.readTimeout h). }
  destruct Hc1 as (Hr1 & Hw1 & Hi1).
  destruct (v4.incoming c1) as [req|e]; [|by apply Hnone].
  assert (Hswitch : ∀ ctx',
            let out :=
              if v4.Cmd req =? CmdConnect
              then v4.handleConnect h ctx' (v4.SetReadDeadline c1 None) req
              else if v4.Cmd req =? CmdBind
                   then v4.handleBind h ctx' (v4.SetReadDeadline c1 None) req
                   else v4.mkOutcome (Some v4.ErrUnknownCmd)
                          (v4.SetReadDeadline c1 None) None false false [] in
            (∃ l, v4.replies (v4.conn out) = v4.replies c ++ l ∧
                  (length l ≤ 1)%nat ∧
                  (v4.transported out = true →
                   l = [v4.Granted] ∧ v4.err out = None ∧ v4.write_err c = None)) ∧
            (is_Some (v4.upstream out) ↔ v4.upstream_closed out = true) ∧
            (∀ id, v4.current id (v4.stats out) = 0)).
  { intros ctx'. cbn zeta. destruct (v4.Cmd req =? CmdConnect).
    - by apply Hconn.
    - destruct (v4.Cmd req =? CmdBind); by apply Hnone. }
  destruct (v4.Auther h) as [authenticate|]; [|apply Hswitch].
  destruct (authenticate (v4.Userid req) "") as [id ok]. destruct ok; simpl negb; cbv iota.
  - apply Hswitch.
  - simpl. split.
    + exists [v4.RejectedUserid]. rewrite Hr1. split; [done|]. split; [simpl; lia|done].
    + split; [|done]. split; [by intros [? ?]|done].
Qed.

(** X26: a request whose user id the authenticator rejects, asked with the
    empty password, gets the single reply [RejectedUserid]; [Handle] returns
    what writing that reply returned, nil when it succeeded; nothing is
    dialled or relayed, whatever the command, and the read deadline is
    cleared. *)
Theorem socks4_Handle_rejected_userid
    (h : v4.socks4Handler) (ctx : v4.Context) (c : v4.Conn)
    (req : v4.Request) (authenticate : string → string → string * bool) :
  v4.checkRateLimit SplitHostPort h (v4.RemoteAddr c) = true →
  v4.incoming c = inl req →
  v4.Auther h = Some authenticate →
  (authenticate (v4.Userid req) "").2 = false →
  let out := Handle4 h ctx c in
  v4.replies (v4.conn out) = v4.replies c ++ [v4.RejectedUserid] ∧
  v4.err out = v4.write_err c ∧
  v4.upstream out = None ∧ v4.transported out = false ∧
  v4.stats out = [] ∧
  v4.readDeadline (v4.conn out) = None ∧
  v4.closed (v4.conn out) = true.
Proof.
  intros Hrate Hin Hauth Hno. unfold v4.Handle, v4.Handle_body.
  rewrite Hrate. cbn [negb].
  set (c1 := if 0 <? v4.readTimeout h then _ else c).
  assert (Hc1 : v4.replies c1 = v4.replies c ∧ v4.write_err c1 = v4.write_err c
                ∧ v4.incoming c1 = v4.incoming c).
  { subst c1. by destruct (0 <? v4.readTimeout h). }
  destruct Hc1 as (Hr1 & Hw1 & Hi1). rewrite Hi1, Hin, Hauth.
  destruct (authenticate (v4.Userid req) "") as [id ok]. simpl in Hno. subst ok.
  simpl. by rewrite Hr1, Hw1.
Qed.

(** X27: the client gets no reply at all exactly when the rate limiter
    refuses it, when the request cannot be read, or when an accepted
    request asks for anything but CONNECT; [Handle] then returns nil for a
    refused client, and the unimplemented error for BIND and the
    unknown-command error for any other command. *)
Theorem socks4_Handle_silent_iff
    (h : v4.socks4Handler) (ctx : v4.Context) (c : v4.Conn) :
  let out := Handle4 h ctx c in
  (v4.replies (v4.conn out) = v4.replies c ↔
   v4.checkRateLimit SplitHostPort h (v4.RemoteAddr c) = false ∨
   match v4.incoming c with
   | inr _ => True
   | inl req => passes h req = true ∧ v4.Cmd req ≠ CmdConnect
   end) ∧
  (v4.checkRateLimit SplitHostPort h (v4.RemoteAddr c) = false →
   v4.err out = None ∧ v4.readDeadline (v4.conn out) = v4.readDeadline c) ∧
  (v4.checkRateLimit SplitHostPort h (v4.RemoteAddr c) = true →
   ∀ req, v4.incoming c = inl req → passes h req = true →
          v4.Cmd req ≠ CmdConnect →
          v4.err out = Some (if v4.Cmd req =? CmdBind
                             then v4.ErrUnimplemented else v4.ErrUnknownCmd)).
Proof.
  unfold v4.Handle, v4.Handle_body.
  destruct (v4.checkRateLimit SplitHostPort h (v4.RemoteAddr c)) eqn:Hrate;
    cbn [negb]; [|simpl; split; [split; [by left|done]|by split]].
  set (c1 := if 0 <? v4.readTimeout h then _ else c).
  assert (Hc1 : v4.replies c1 = v4.replies c ∧ v4.write_err c1 = v4.write_err c
                ∧ v4.incoming c1 = v4.incoming c).
  { subst c1. by destruct (0 <? v4.readTimeout h). }
  destruct Hc1 as (Hr1 & Hw1 & Hi1). rewrite Hi1.
  destruct (v4.incoming c) as [req|e];
    [|simpl; split; [split; [by right|by rewrite Hr1]|by split]].
  assert (Hswitch : ∀ ctx',
            let out :=
              if v4.Cmd req =? CmdConnect
              then v4.handleConnect h ctx' (v4.SetReadDeadline c1 None) req
              else if v4.Cmd req =? CmdBind
                   then v4.handleBind h ctx' (v4.SetReadDeadline c1 None) req
                   else v4.mkOutcome (Some v4.ErrUnknownCmd)
                          (v4.SetReadDeadline c1 None) None false false [] in
            (v4.replies (v4.conn out) = v4.replies c ↔ v4.Cmd req ≠ CmdConnect) ∧
            (v4.Cmd req ≠ CmdConnect →
             v4.err out = Some (if v4.Cmd req =? CmdBind
                                then v4.ErrUnimplemented else v4.ErrUnknownCmd))).
  { intros ctx'. cbn zeta. destruct (Z.eqb_spec (v4.Cmd req) CmdConnect) as [Heq|Hne].
    - destruct (v4_handleConnect_invariant h ctx' (v4.SetReadDeadline c1 None) req)
        as ((code & Hrep & _) & _). rewrite Hrep. simpl. rewrite Hr1.
      split; [|done]. split; [|done]. intros Habs. by apply v4_reply_added in Habs.
    - destruct (v4.Cmd req =? CmdBind); simpl; by rewrite Hr1. }
  destruct (v4.Auther h) as [authenticate|].
  - destruct (authenticate (v4.Userid req) "") as [id ok] eqn:Ha.
    destruct ok; simpl negb; cbv iota.
    + destruct (Hswitch (v4.mkContext (Some id) (v4.hash ctx))) as [Hiff Herr].
      cbn [v4.conn v4.err v4.Close v4.replies] in *. simpl snd.
      split; [|split; [done|]].
      * rewrite Hiff. split; [by right|]. by intros [?|[_ ?]].
      * intros _ req' [= <-] _. apply Herr.
    + simpl. rewrite Hr1. split; [|split; [done|]].
      * split; [intros Habs; by apply v4_reply_added in Habs|].
        by intros [?|[? _]].
      * intros _ req' [= <-] Hp. by rewrite Ha in Hp.
  - destruct (Hswitch ctx) as [Hiff Herr].
    cbn [v4.conn v4.err v4.Close v4.replies] in *.
    split; [|split; [done|]].
    + rewrite Hiff. split; [by right|]. by intros [?|[_ ?]].
    + intros _ req' [= <-] _. apply Herr.
Qed.

(** X28: an authenticated CONNECT. The bypass is asked first and answers
    with [Rejected]; otherwise the router dials under the authenticated
    client id, with the destination as hash source when the hash option is
    "host". A failed dial is answered with [Failed] and its error is
    returned even when writing the reply fails too; after a successful dial
    [Granted] is written, and only if that write succeeds is data relayed
    and, with an observer, the connection counted under the authenticated
    id. *)
Theorem socks4_Handle_connect_authenticated
    (h : v4.socks4Handler) (ctx : v4.Context) (c : v4.Conn)
    (req : v4.Request) (authenticate : string → string → string * bool)
    (id : string) :
  v4.checkRateLimit SplitHostPort h (v4.RemoteAddr c) = true →
  v4.incoming c = inl req →
  v4.Cmd req = CmdConnect →
  v4.Auther h = Some authenticate →
  authenticate (v4.Userid req) "" = (id, true) →
  let out := Handle4 h ctx c in
  let bypassed :=
    match v4.Bypass h with
    | Some contains => contains "tcp" (v4.Addr req)
    | None => false
    end in
  let dialled :=
    v4.Dial h
      (v4.mkContext (Some id)
         (if String.eqb (v4.md_hash h) "host"
          then Some (v4.Addr req) else v4.hash ctx))
      "tcp" (v4.Addr req) in
  (bypassed = true →
   v4.replies (v4.conn out) = v4.replies c ++ [v4.Rejected] ∧
   v4.err out = v4.write_err c ∧ v4.upstream out = None) ∧
  (bypassed = false → ∀ e, dialled = inr e →
   v4.replies (v4.conn out) = v4.replies c ++ [v4.Failed] ∧
   v4.err out = Some e ∧ v4.upstream out = None) ∧
  (bypassed = false → ∀ cc, dialled = inl cc →
   v4.replies (v4.conn out) = v4.replies c ++ [v4.Granted] ∧
   v4.err out = v4.write_err c ∧ v4.upstream out = Some cc ∧
   v4.upstream_closed out = true ∧
   v4.transported out = bool_decide (v4.write_err c = None) ∧
   v4.stats out
   = if v4.Observer h && bool_decide (v4.write_err c = None)
     then [(id, v4.KindTotalConns, 1); (id, v4.KindCurrentConns, 1);
           (id, v4.KindCurrentConns, -1)]
     else []).
Proof.
  intros Hrate Hin Hcmd Hauth Hok. unfold v4.Handle, v4.Handle_body.
  rewrite Hrate. cbn [negb].
  set (c1 := if 0 <? v4.readTimeout h then _ else c).
  assert (Hc1 : v4.replies c1 = v4.replies c ∧ v4.write_err c1 = v4.write_err c
                ∧ v4.incoming c1 = v4.incoming c).
  { subst c1. by destruct (0 <? v4.readTimeout h). }
  destruct Hc1 as (Hr1 & Hw1 & Hi1). rewrite Hi1, Hin, Hauth, Hok.
  cbn [negb]. rewrite Hcmd, Z.eqb_refl. unfold v4.handleConnect.
  cbn zeta.
  destruct (match v4.Bypass h with
            | Some contains => contains "tcp" (v4.Addr req)
            | None => false
            end).
  { simpl. rewrite Hr1, Hw1. by repeat split. }
  cbn [v4.clientID v4.hash].
  destruct (String.eqb (v4.md_hash h) "host");
    (destruct (v4.Dial h _ "tcp" (v4.Addr req)) as [cc|e];
     [ simpl; rewrite Hw1; destruct (v4.write_err c) as [e|]; simpl;
       rewrite Hr1;
       (split; [done|]); (split; [done|]); intros _ cc' [= <-];
       rewrite ?andb_false_r, ?andb_true_r; by repeat split
     | simpl; rewrite Hr1; (split; [done|]);
       split; [by intros _ e' [= <-]|done] ]).
Qed.

End V4Facts.

Lemma socks4_Handle_rejected_userid_witness :
  let out :=
    v4.Handle V4Scenarios.CmdConnect V4Scenarios.CmdBind V4Scenarios.host_of 0
      V4Scenarios.h_auth V4Scenarios.ctx0
      (V4Scenarios.conn_of (inl (V4Scenarios.req 1)) None) in
  v4.replies (v4.conn out) = [] ++ [v4.RejectedUserid] ∧
  v4.err out = None ∧
  v4.upstream out = None ∧ v4.transported out = false ∧
  v4.stats out = [] ∧
  v4.readDeadline (v4.conn out) = None ∧
  v4.closed (v4.conn out) = true.
Proof.
  apply (socks4_Handle_rejected_userid V4Scenarios.CmdConnect
           V4Scenarios.CmdBind V4Scenarios.host_of 0 V4Scenarios.h_auth
           V4Scenarios.ctx0
           (V4Scenarios.conn_of (inl (V4Scenarios.req 1)) None)
           (V4Scenarios.req 1) V4Scenarios.auther); reflexivity.
Defined.

Lemma socks4_Handle_connect_authenticated_witness :
  let c := V4Scenarios.conn_of
             (inl (v4.mkRequest 1 "bob" "example.org:80")) None in
  let out :=
    v4.Handle V4Scenarios.CmdConnect V4Scenarios.CmdBind V4Scenarios.host_of 0
      V4Scenarios.h_auth V4Scenarios.ctx0 c in
  v4.replies (v4.conn out) = [v4.Granted] ∧
  v4.err out = None ∧ v4.upstream out = Some 7%nat ∧
  v4.upstream_closed out = true ∧
  v4.transported out = true ∧
  v4.stats out
  = [("bob-id", v4.KindTotalConns, 1); ("bob-id", v4.KindCurrentConns, 1);
     ("bob-id", v4.KindCurrentConns, -1)].
Proof.
  refine (proj2 (proj2
    (socks4_Handle_connect_authenticated V4Scenarios.CmdConnect
       V4Scenarios.CmdBind V4Scenarios.host_of 0 V4Scenarios.h_auth
       V4Scenarios.ctx0
       (V4Scenarios.conn_of (inl (v4.mkRequest 1 "bob" "example.org:80")) None)
       (v4.mkRequest 1 "bob" "example.org:80") V4Scenarios.auther "bob-id"
       eq_refl eq_refl eq_refl eq_refl eq_refl)) eq_refl 7%nat eq_refl).
Defined.

(** ** BIND in the relay handler *)


(** ** Proxy credentials in the HTTP/2 handler *)

Lemma substring_all (s : string) : String.substring 0 (String.length s) s = s.
Proof. induction s as [|a s IH]; simpl; [done|by rewrite IH]. Qed.

Lemma substring_app_left (u v : string) :
  String.substring 0 (String.length u) (u +:+ v) = u.
Proof.
  induction u as [|a u IH]; simpl.
  - by destruct v.
  - by rewrite IH.
Qed.

Lemma substring_app_right (u v : string) (n : nat) :
  String.substring (String.length u) n (u +:+ v) = String.substring 0 n v.
Proof. induction u as [|a u IH]; simpl; [done|apply IH]. Qed.

Lemma string_length_app (u v : string) :
  String.length (u +:+ v) = (String.length u + String.length v)%nat.
Proof. induction u as [|a u IH]; simpl; [done|by rewrite IH]. Qed.

(** [IndexByte] finds the first occurrence. *)
Lemma IndexByte_app (u v : string) (c : ascii) :
  ¬ In c (list_ascii_of_string u) →
  http2Handler.IndexByte (u +:+ String c v) c = http2Handler.len u.
Proof.
  unfold http2Handler.len. induction u as [|a u IH]; intros Hnot.
  - simpl. by rewrite Ascii.eqb_refl.
  - change (String a u +:+ String c v) with (String a (u +:+ String c v)).
    change (http2Handler.IndexByte (String a (u +:+ String c v)) c)
      with (if Ascii.eqb a c then 0
            else let i := http2Handler.IndexByte (u +:+ String c v) c in
                 if i <? 0 then -1 else i + 1).
    destruct (Ascii.eqb_spec a c) as [->|Hne]; [exfalso; apply Hnot; by left|].
    cbn zeta. rewrite IH by (intros Hin; apply Hnot; by right).
    destruct (Z.ltb_spec (Z.of_nat (String.length u)) 0); [lia|].
    simpl String.length. lia.
Qed.

Lemma IndexByte_found (s : string) (c : ascii) :
  0 ≤ http2Handler.IndexByte s c →
  ∃ u v, s = u +:+ String c v ∧ ¬ In c (list_ascii_of_string u).
Proof.
  induction s as [|a s IH]; cbn [http2Handler.IndexByte]; [lia|].
  destruct (Ascii.eqb_spec a c) as [->|Hne].
  - intros _. exists EmptyString, s. split; [done|]. simpl. tauto.
  - destruct (Z.ltb_spec (http2Handler.IndexByte s c) 0); [lia|].
    intros _. destruct IH as (u & v & -> & Hnot); [done|].
    exists (String a u), v. split; [done|]. simpl. intros [?|?]; tauto.
Qed.

Lemma HasPrefix_split (s p : string) :
  http2Handler.HasPrefix s p = true →
  s = p +:+ http2Handler.slice s (http2Handler.len p) (http2Handler.len s).
Proof.
  unfold http2Handler.HasPrefix, http2Handler.slice, http2Handler.len.
  revert s. induction p as [|a p IH]; intros s Hp.
  - change (String.length "") with 0%nat.
    replace (Z.to_nat (Z.of_nat (String.length s) - Z.of_nat 0))
      with (String.length s) by lia.
    change (Z.to_nat (Z.of_nat 0)) with 0%nat.
    rewrite substring_all. reflexivity.
  - destruct s as [|b s]; [done|].
    change (String.prefix (String a p) (String b s))
      with (if ascii_dec a b then String.prefix p s else false) in Hp.
    destruct (ascii_dec a b) as [->|]; [|done].
    change (String b p +:+ ?x) with (String b (p +:+ x)). f_equal.
    rewrite (IH s Hp) at 1. f_equal.
    change (String.length (String b p)) with (S (String.length p)).
    change (String.length (String b s)) with (S (String.length s)).
    rewrite !Nat2Z.id.
    replace (Z.to_nat (Z.of_nat (S (String.length s)) - Z.of_nat (S (String.length p))))
      with (Z.to_nat (Z.of_nat (String.length s) - Z.of_nat (String.length p)))
      by lia.
    reflexivity.
Qed.

Lemma HasPrefix_app (p v : string) : http2Handler.HasPrefix (p +:+ v) p = true.
Proof.
  unfold http2Handler.HasPrefix. induction p as [|a p IH]; simpl.
  - by destruct v.
  - by destruct (ascii_dec a a).
Qed.

Lemma TrimPrefix_app (p v : string) : http2Handler.TrimPrefix (p +:+ v) p = v.
Proof.
  unfold http2Handler.TrimPrefix. rewrite HasPrefix_app.
  unfold http2Handler.slice, http2Handler.len.
  rewrite string_length_app, Nat2Z.id.
  replace (Z.to_nat (Z.of_nat (String.length p + String.length v)
                     - Z.of_nat (String.length p)))
    with (String.length v) by lia.
  by rewrite substring_app_right, substring_all.
Qed.

Lemma split_at_colon (u v : string) :
  let cs := u +:+ String ":" v in
  http2Handler.slice cs 0 (http2Handler.len u) = u ∧
  http2Handler.slice cs (http2Handler.len u + 1) (http2Handler.len cs) = v.
Proof.
  unfold http2Handler.slice, http2Handler.len. cbn zeta. split.
  - rewrite Z.sub_0_r, Nat2Z.id. apply substring_app_left.
  - rewrite string_length_app. cbn [String.length].
    replace (Z.to_nat (Z.of_nat (String.length u) + 1))
      with (S (String.length u)) by lia.
    replace (Z.to_nat (Z.of_nat (String.length u + S (String.length v))
                       - (Z.of_nat (String.length u) + 1)))
      with (String.length v) by lia.
    clear. induction u as [|a u IH]; simpl.
    + apply substring_all.
    + apply IH.
Qed.

(** X30: [basicProxyAuth] accepts exactly the headers that are "Basic "
    followed by an encoding of a text with a colon, and splits that text at
    its first colon: a user name without a colon and any password, colons
    included, come back as they were encoded; whenever it refuses, both
    strings are empty. *)
Theorem basicProxyAuth_splits_at_first_colon
    (DecodeString : string → option string) :
  (∀ enc username password,
     DecodeString enc = Some (username +:+ String ":" password) →
     ¬ In ":"%char (list_ascii_of_string username) →
     http2Handler.basicProxyAuth DecodeString ("Basic " +:+ enc)
     = (username, password, true)) ∧
  (∀ proxyAuth username password,
     http2Handler.basicProxyAuth DecodeString proxyAuth
     = (username, password, true) →
     ∃ enc, proxyAuth = "Basic " +:+ enc ∧
            DecodeString enc = Some (username +:+ String ":" password) ∧
            ¬ In ":"%char (list_ascii_of_string username)) ∧
  (∀ proxyAuth username password,
     http2Handler.basicProxyAuth DecodeString proxyAuth
     = (username, password, false) →
     username = "" ∧ password = "").
Proof.
  split; [|split].
  - intros enc u p Hdec Hnot. unfold http2Handler.basicProxyAuth.
    change (String.eqb ("Basic " +:+ enc) "") with false. cbv iota.
    rewrite HasPrefix_app, TrimPrefix_app, Hdec. cbn [negb].
    cbn zeta. rewrite (IndexByte_app u p ":" Hnot).
    destruct (Z.ltb_spec (http2Handler.len u) 0) as [Hlt|_];
      [unfold http2Handler.len in Hlt; lia|].
    destruct (split_at_colon u p) as [-> ->]. done.
  - intros proxyAuth u p. unfold http2Handler.basicProxyAuth.
    destruct (String.eqb proxyAuth ""); [done|].
    destruct (http2Handler.HasPrefix proxyAuth "Basic ") eqn:Hp; [|done].
    cbn [negb]. unfold http2Handler.TrimPrefix. rewrite Hp.
    destruct (DecodeString _) as [cs|] eqn:Hdec; [|done]. cbn zeta.
    destruct (Z.ltb_spec (http2Handler.IndexByte cs ":") 0) as [|Hge]; [done|].
    destruct (IndexByte_found cs ":" Hge) as (u' & p' & -> & Hnot).
    rewrite (IndexByte_app u' p' ":" Hnot).
    destruct (split_at_colon u' p') as [-> ->]. intros [= <- <-].
    eexists. split; [by apply HasPrefix_split|]. by split.
  - intros proxyAuth u p. unfold http2Handler.basicProxyAuth.
    destruct (String.eqb proxyAuth ""); [by intros [= <- <-]|].
    destruct (negb _); [by intros [= <- <-]|].
    destruct (DecodeString _) as [cs|]; [|by intros [= <- <-]]. cbn zeta.
    destruct (_ <? 0); [by intros [= <- <-]|done].
Qed.

Lemma basicProxyAuth_splits_at_first_colon_witness :
  http2Handler.basicProxyAuth http2Handler.plain "Basic alice:pa:ss"
  = ("alice", "pa:ss", true).
Proof.
  apply (proj1 (basicProxyAuth_splits_at_first_colon http2Handler.plain)
           "alice:pa:ss" "alice" "pa:ss"); [reflexivity|].
  simpl. intros H.
  repeat (destruct H as [H|H]; [discriminate H|]). exact H.
Defined.
